(** * MT5 trading copier: the reconciliation engine of [mt5_copier_fixed.py]

    A shallow embedding of [MT5Copier] (change detection, lot sizing, the
    per-follower synchronisation pass and the orphan cleanup) together with
    the properties of the engine that the specification states.

    Modelling conventions.
    - A Python [float] is an exact rational ([Q]); [round] is Python's
      round-half-to-even; NaN and infinities are outside the model.  The
      arithmetic of the lot sizing is exact.  The tolerance test
      [abs(a - b) > 0.00001] is modelled to the bit: the subtraction is
      rounded to binary64 ([round64]) and the literal has the value of the
      binary64 number it denotes, so that on floats the model and the code
      decide alike, at the boundary too.
    - A Python [str] is a string of the code points below 256, one character
      each; other characters are outside the model.  [int()] is Python's,
      without the limit on the number of digits.
    - The fields that the source guards with [x if x else 0.0] may hold
      [None]: they have type [pyfloat = option Q].
    - A Python [dict] that the source iterates over is an insertion-ordered
      association list ([PyDict]); the others are [gmap]s, sets are [gset]s.
    - The MetaTrader terminal is an abstract collaborator: every call takes
      the terminal's state and returns an answer and a new state.  The four
      order actions ([send_order], [modify_order], [close_position],
      [cancel_order]) are recorded in a log when the engine issues them.
    - [try: ... except Exception] is modelled where the body can raise in
      the model: arithmetic on [None], a missing attribute, division by
      zero, [int()] of a malformed string, an unknown enum value.
    - The order wrappers over the [mt5] module ([get_symbol_info],
      [get_filling_mode], [send_order], [modify_order], [close_position],
      [cancel_order]) are embedded on their own, over the functions and
      constants of the module; the requests they hand to [mt5.order_send]
      are returned with their answer.  [connect_account],
      [disconnect_account] and [stop] are embedded over the platform calls
      they make, with the connection flags as their state.
    - Logging is left out, and with it [_log_tracking_stats]. *)

From Stdlib Require Import ZArith QArith Qround Qabs Qpower Lqa Lia String Ascii List Bool.
From stdpp Require Import gmap strings list pretty.

Open Scope Z_scope.

(** ** Python numbers *)

Module PyNum.

Definition pyfloat := option Q.

(** [x if x else 0.0]: [None] and zero both give zero. *)
Definition or_zero (x : pyfloat) : Q :=
  match x with
  | Some q => q
  | None => 0%Q
  end.

Definition Qlt_bool (a b : Q) : bool := negb (Qle_bool b a).

(** [max(a, b)] and [min(a, b)] return their first argument on a tie. *)
Definition py_max (a b : Q) : Q := if Qlt_bool a b then b else a.
Definition py_min (a b : Q) : Q := if Qlt_bool b a then b else a.

(** [round(x)] with one argument: the nearest integer, ties to even. *)
Definition py_round (x : Q) : Z :=
  let f := Qfloor x in
  match (x - inject_Z f ?= 1 # 2)%Q with
  | Lt => f
  | Gt => f + 1
  | Eq => if Z.even f then f else f + 1
  end.

(** [2^k], for an exponent of either sign. *)
Definition pow2 (k : Z) : Q := (2 ^ k)%Q.

(** The binade of a positive rational: the [k] with [2^k <= x < 2^(k+1)]. *)
Definition binade (x : Q) : Z :=
  let k := Z.log2 (Qnum x) - Z.log2 (Z.pos (Qden x)) in
  if Qle_bool (pow2 k) x then k else k - 1.

(** The binary64 number nearest to [x], ties to even: the result that a
    float operation stores when its exact result is [x].  The spacing is
    [2^(k-52)] in the binade [k], and [2^(-1074)] below [2^(-1022)];
    overflow is outside the model. *)
Definition round64 (x : Q) : Q :=
  let quantum := pow2 (Z.max (binade (Qabs x)) (-1022) - 52) in
  (inject_Z (py_round (x / quantum)) * quantum)%Q.

(** The tolerance literal [0.00001]: the binary64 number that the literal
    denotes, [5902958103587057 / 2^69], a little above [1/100000]. *)
Definition tolerance : Q := 5902958103587057 # 590295810358705651712.

(** [abs(a - b) > 0.00001], the subtraction rounded as a float
    subtraction is. *)
Definition differs (a b : Q) : bool := Qlt_bool tolerance (Qabs (round64 (a - b))).

End PyNum.
Export PyNum.

(** ** Python strings: [int(s)] and the [Copy:<ticket>] comment *)

Module PyStr.

(** The blanks that [int] skips at both ends of its argument: the ASCII
    ones (tab to carriage return, and the space) and, above them, the
    next-line and no-break-space characters; the separators U+001C to
    U+001F are not skipped. *)
Definition is_space (c : ascii) : bool :=
  let n := nat_of_ascii c in
  ((9 <=? n)%nat && (n <=? 13)%nat) || (n =? 32)%nat || (n =? 133)%nat || (n =? 160)%nat.

Fixpoint lstrip (s : string) : string :=
  match s with
  | String c r => if is_space c then lstrip r else s
  | EmptyString => EmptyString
  end.

Definition strip (s : string) : string :=
  String.rev (lstrip (String.rev (lstrip s))).

Definition digit_val (c : ascii) : option Z :=
  let n := nat_of_ascii c in
  if ((48 <=? n)%nat && (n <=? 57)%nat) then Some (Z.of_nat n - 48) else None.

(** Decimal digits, single underscores allowed between two digits. *)
Fixpoint digits (acc : Z) (after_digit : bool) (s : string) : option Z :=
  match s with
  | EmptyString => if after_digit then Some acc else None
  | String c r =>
      if Ascii.eqb c "_"%char
      then (if after_digit then digits acc false r else None)
      else match digit_val c with
           | Some d => digits (10 * acc + d) true r
           | None => None
           end
  end.

(** [int(s)]; [None] stands for [ValueError]. *)
Definition py_int (s : string) : option Z :=
  match strip s with
  | String "+"%char r => digits 0 false r
  | String "-"%char r => Z.opp <$> digits 0 false r
  | t => digits 0 false t
  end.

(** The text up to the next colon: [s.split(':')[0]]. *)
Fixpoint until_colon (s : string) : string :=
  match s with
  | EmptyString => EmptyString
  | String c r => if Ascii.eqb c ":"%char then EmptyString else String c (until_colon r)
  end.

Definition drop_prefix (n : nat) (s : string) : string :=
  String.substring n (String.length s - n) s.

(** [comment.startswith('Copy:')] and then
    [int(comment.split(':')[1])]; [None] when the comment does not start
    so, or when [int] raises. *)
Definition copy_ticket (comment : string) : option Z :=
  if String.prefix "Copy:" comment
  then py_int (until_colon (drop_prefix 5 comment))
  else None.

(** [f"Copy:{ticket}"]. *)
Definition copy_comment (ticket : Z) : string := "Copy:" +:+ pretty ticket.

End PyStr.
Export PyStr.

(** ** Insertion-ordered dictionaries with integer keys *)

Module PyDict.
Section dict.
Context {V : Type}.

Fixpoint get (k : Z) (d : list (Z * V)) : option V :=
  match d with
  | [] => None
  | (k', v) :: r => if k =? k' then Some v else get k r
  end.

(** [d[k] = v]: an existing key keeps its place, a new one goes last. *)
Fixpoint set (k : Z) (v : V) (d : list (Z * V)) : list (Z * V) :=
  match d with
  | [] => [(k, v)]
  | (k', v') :: r => if k =? k' then (k, v) :: r else (k', v') :: set k v r
  end.

(** [del d[k]]. *)
Fixpoint del (k : Z) (d : list (Z * V)) : list (Z * V) :=
  match d with
  | [] => []
  | (k', v') :: r => if k =? k' then del k r else (k', v') :: del k r
  end.

Definition keys (d : list (Z * V)) : list Z := map fst d.
End dict.
End PyDict.

(** ** Data model *)

(** [OrderInfo], the engine's snapshot of one master order.  The field
    [master_ticket], which the source never sets or reads, is left out. *)
Record OrderInfo := {
  ticket : Z;
  symbol : string;
  order_type : Z;
  volume : Q;
  price : pyfloat;
  sl : pyfloat;
  tp : pyfloat;
  comment : string;
  magic : Z;
  time_setup : Z;
  state : Z
}.

(** [OrderType.BUY], [OrderType.SELL] and [OrderState.FILLED]. *)
Definition ORDER_TYPE_BUY : Z := 0.
Definition ORDER_TYPE_SELL : Z := 1.
Definition FILLED : Z := 4.

(** An order or a position as the terminal returns it.  The attributes the
    source probes with [hasattr] are optional; [mt_volume] is
    [volume_initial] of a pending order and [volume] of a position,
    [mt_time] is [time_setup] or [time]. *)
Record MtOrder := {
  mt_ticket : Z;
  mt_symbol : string;
  mt_type : option Z;
  mt_volume : Q;
  mt_price_open : option pyfloat;
  mt_sl : pyfloat;
  mt_tp : pyfloat;
  mt_comment : option string;
  mt_magic : Z;
  mt_time : Z;
  mt_state : Z
}.

Inductive LotCalculationType := FIXED | MULTIPLIER | PERCENT_BALANCE | RISK_BASED.

(** [LotCalculationType(name)]; [None] stands for [ValueError]. *)
Definition LotCalculationType_of_string (name : string) : option LotCalculationType :=
  if String.eqb name "fixed" then Some FIXED
  else if String.eqb name "multiplier" then Some MULTIPLIER
  else if String.eqb name "percent_balance" then Some PERCENT_BALANCE
  else if String.eqb name "risk_based" then Some RISK_BASED
  else None.

(** A follower's configuration dictionary.  [min_lot], [max_lot],
    [symbol_mapping] and [enabled] are read with [dict.get] and a default. *)
Record FollowerConfig := {
  login : Z;
  lot_calculation : string;
  lot_value : Q;
  max_lot : option Q;
  min_lot : option Q;
  symbol_mapping : option (gmap string string);
  magic_number : Z;
  enabled : option bool
}.

Record Config := {
  master_account : Z;
  follower_accounts : list FollowerConfig
}.

(** The keys of [symbol_info] that the engine reads. *)
Record SymbolInfo := {
  trade_contract_size : Q;
  trade_tick_value : Q;
  volume_step : Q
}.

(** The keyword arguments of [send_order]. *)
Record OrderRequest := {
  req_symbol : string;
  req_order_type : Z;
  req_volume : Q;
  req_price : pyfloat;
  req_sl : pyfloat;
  req_tp : pyfloat;
  req_comment : string;
  req_magic : Z
}.

(** The order actions the engine issues, tagged with the follower whose
    pass issues them; [ACreate] also names the master ticket copied, and
    [AModify] lists [price], [sl] and [tp] ([None]: not passed). *)
Inductive Action :=
| ACreate (follower master_ticket : Z) (req : OrderRequest)
| AModify (follower follower_ticket : Z) (new_price new_sl new_tp : pyfloat)
| AClose (follower follower_ticket : Z)
| ACancel (follower follower_ticket : Z).

(** The terminal collaborator, at the interface the engine uses: the
    [mt5] queries it makes itself, and the methods of [MT5Copier] that only
    talk to the terminal ([connect_account], [get_symbol_info],
    [send_order], [modify_order], [close_position], [cancel_order]), each
    with the answer the engine branches on.  [W] is the terminal's state. *)
Record Terminal (W : Type) := {
  connect_account : Z -> W -> bool * W;
  orders_get : W -> list MtOrder * W;
  positions_get : W -> list MtOrder * W;
  (** whether [mt5.positions_get(ticket=t)] is non-empty *)
  position_exists : Z -> W -> bool * W;
  get_symbol_info : string -> Z -> W -> option SymbolInfo * W;
  (** [mt5.account_info()], of which only [balance] is read *)
  account_balance : W -> option Q * W;
  send_order : OrderRequest -> W -> option Z * W;
  modify_order : Z -> pyfloat -> pyfloat -> pyfloat -> W -> bool * W;
  close_position : Z -> W -> bool * W;
  cancel_order : Z -> W -> bool * W
}.
Arguments connect_account {W}.
Arguments orders_get {W}.
Arguments positions_get {W}.
Arguments position_exists {W}.
Arguments get_symbol_info {W}.
Arguments account_balance {W}.
Arguments send_order {W}.
Arguments modify_order {W}.
Arguments close_position {W}.
Arguments cancel_order {W}.

(** ** The copier's state and the monad of the engine *)

(** The tracking tables of [MT5Copier], the terminal and the log of issued
    actions. *)
Record Sys (W : Type) := {
  follower_orders : list (Z * gmap Z Z);
  last_master_state : gmap Z OrderInfo;
  order_sync_status : gmap Z (gmap Z string);
  manually_closed : gmap Z (gset Z);
  cycle_count : Z;
  world : W;
  log : list Action
}.
Arguments follower_orders {W}.
Arguments last_master_state {W}.
Arguments order_sync_status {W}.
Arguments manually_closed {W}.
Arguments cycle_count {W}.
Arguments world {W}.
Arguments log {W}.

(** The engine's code runs in a state monad over [Sys]. *)
Definition M (W A : Type) : Type := Sys W -> A * Sys W.

Definition ret {W A} (a : A) : M W A := fun s => (a, s).

Definition bind {W A B} (m : M W A) (k : A -> M W B) : M W B :=
  fun s => k (m s).1 (m s).2.

Notation "'let*' x ':=' m 'in' k" := (bind m (fun x => k))
  (at level 10, x name, m at level 100, k at level 200).
Notation "m ';;' k" := (bind m (fun _ => k))
  (at level 100, k at level 200, right associativity).

(** Field updates of the state record. *)
Definition with_follower_orders {W} (v : list (Z * gmap Z Z)) (s : Sys W) : Sys W :=
  {| follower_orders := v; last_master_state := last_master_state s;
     order_sync_status := order_sync_status s; manually_closed := manually_closed s;
     cycle_count := cycle_count s; world := world s; log := log s |}.

Definition with_last_master_state {W} (v : gmap Z OrderInfo) (s : Sys W) : Sys W :=
  {| follower_orders := follower_orders s; last_master_state := v;
     order_sync_status := order_sync_status s; manually_closed := manually_closed s;
     cycle_count := cycle_count s; world := world s; log := log s |}.

Definition with_order_sync_status {W} (v : gmap Z (gmap Z string)) (s : Sys W) : Sys W :=
  {| follower_orders := follower_orders s; last_master_state := last_master_state s;
     order_sync_status := v; manually_closed := manually_closed s;
     cycle_count := cycle_count s; world := world s; log := log s |}.

Definition with_manually_closed {W} (v : gmap Z (gset Z)) (s : Sys W) : Sys W :=
  {| follower_orders := follower_orders s; last_master_state := last_master_state s;
     order_sync_status := order_sync_status s; manually_closed := v;
     cycle_count := cycle_count s; world := world s; log := log s |}.

Definition with_cycle_count {W} (v : Z) (s : Sys W) : Sys W :=
  {| follower_orders := follower_orders s; last_master_state := last_master_state s;
     order_sync_status := order_sync_status s; manually_closed := manually_closed s;
     cycle_count := v; world := world s; log := log s |}.

Definition with_world {W} (w : W) (s : Sys W) : Sys W :=
  {| follower_orders := follower_orders s; last_master_state := last_master_state s;
     order_sync_status := order_sync_status s; manually_closed := manually_closed s;
     cycle_count := cycle_count s; world := w; log := log s |}.

Definition with_log {W} (l : list Action) (s : Sys W) : Sys W :=
  {| follower_orders := follower_orders s; last_master_state := last_master_state s;
     order_sync_status := order_sync_status s; manually_closed := manually_closed s;
     cycle_count := cycle_count s; world := world s; log := l |}.

Definition set_follower_orders {W} (v : list (Z * gmap Z Z)) : M W unit :=
  fun s => (tt, with_follower_orders v s).
Definition set_last_master_state {W} (v : gmap Z OrderInfo) : M W unit :=
  fun s => (tt, with_last_master_state v s).
Definition set_order_sync_status {W} (v : gmap Z (gmap Z string)) : M W unit :=
  fun s => (tt, with_order_sync_status v s).
Definition set_manually_closed {W} (v : gmap Z (gset Z)) : M W unit :=
  fun s => (tt, with_manually_closed v s).
Definition set_cycle_count {W} (v : Z) : M W unit :=
  fun s => (tt, with_cycle_count v s).

(** Reading the copier's state. *)
Definition get_state {W} : M W (Sys W) := fun s => (s, s).

(** A call to the terminal. *)
Definition call {W A} (f : W -> A * W) : M W A :=
  fun s => ((f (world s)).1, with_world (f (world s)).2 s).

(** Recording an issued action. *)
Definition emit {W} (a : Action) : M W unit :=
  fun s => (tt, with_log (log s ++ [a]) s).

(** [for x in l: body(x)]. *)
Fixpoint for_each {W A} (l : list A) (body : A -> M W unit) : M W unit :=
  match l with
  | [] => ret tt
  | x :: r => body x ;; for_each r body
  end.

Section Engine.
Context {W : Type} (T : Terminal W).

(** ** Lot sizing *)

Definition clamp_lot (cfg : FollowerConfig) (calculated_lot : Q) : Q :=
  let min_lot := default (1 # 100)%Q (min_lot cfg) in
  let max_lot := default 100%Q (max_lot cfg) in
  py_max min_lot (py_min max_lot calculated_lot).

(** The branch on [calc_type]: [None] stands for the paths that leave the
    function with [master_volume] ([account_info] or the symbol missing, a
    division by zero caught by the handler). *)
Definition policy_lot (calc_type : LotCalculationType) (master_volume : Q)
    (cfg : FollowerConfig) (symbol : string) : M W (option Q) :=
  match calc_type with
  | FIXED => ret (Some (lot_value cfg))
  | MULTIPLIER => ret (Some (master_volume * lot_value cfg)%Q)
  | PERCENT_BALANCE =>
      let* account := call (account_balance T) in
      match account with
      | None => ret None
      | Some balance =>
          let* symbol_info := call (get_symbol_info T symbol (login cfg)) in
          match symbol_info with
          | None => ret None
          | Some info =>
              let risk_amount := (balance * (lot_value cfg / 100))%Q in
              let divisor := (trade_contract_size info * trade_tick_value info)%Q in
              if Qeq_bool divisor 0 then ret None
              else ret (Some (risk_amount / divisor)%Q)
          end
      end
  | RISK_BASED => ret (Some (master_volume * lot_value cfg)%Q)
  end.

Definition calculate_lot_size (master_volume : Q) (cfg : FollowerConfig)
    (symbol : string) : M W Q :=
  match LotCalculationType_of_string (lot_calculation cfg) with
  | None => ret master_volume
  | Some calc_type =>
      let* lot := policy_lot calc_type master_volume cfg symbol in
      match lot with
      | None => ret master_volume
      | Some calculated_lot =>
          let calculated_lot := clamp_lot cfg calculated_lot in
          let* symbol_info := call (get_symbol_info T symbol (login cfg)) in
          match symbol_info with
          | Some info =>
              let lot_step := volume_step info in
              if Qeq_bool lot_step 0 then ret master_volume
              else ret (inject_Z (py_round (calculated_lot / lot_step)) * lot_step)%Q
          | None => ret calculated_lot
          end
      end
  end.

Definition map_symbol (master_symbol : string) (cfg : FollowerConfig) : string :=
  default master_symbol (default ∅ (symbol_mapping cfg) !! master_symbol).

(** ** Change detection *)

(** The body of [_has_master_order_changed]; [None] stands for an
    exception: the [TypeError] of the unguarded [price] subtraction when a
    price is [None]. *)
Definition has_master_order_changed_body (last : gmap Z OrderInfo)
    (master_order : OrderInfo) : option bool :=
  match last !! ticket master_order with
  | None => Some true
  | Some last_order =>
      match price master_order, price last_order with
      | Some master_price, Some last_price =>
          let price_changed := differs master_price last_price in
          let sl_changed := differs (or_zero (sl master_order)) (or_zero (sl last_order)) in
          let tp_changed := differs (or_zero (tp master_order)) (or_zero (tp last_order)) in
          let volume_changed := differs (volume master_order) (volume last_order) in
          Some (price_changed || sl_changed || tp_changed || volume_changed)
      | _, _ => None
      end
  end.

(** [except Exception: return True]. *)
Definition has_master_order_changed (last : gmap Z OrderInfo)
    (master_order : OrderInfo) : bool :=
  default true (has_master_order_changed_body last master_order).

Record Changes := {
  has_changes : bool;
  summary : list string
}.

(** [{order.ticket: order for order in master_orders}]: a later order
    with the same ticket replaces an earlier one. *)
Definition master_state_of (master_orders : list OrderInfo) : gmap Z OrderInfo :=
  fold_left (fun m o => <[ticket o := o]> m) master_orders ∅.

Definition new_orders (last current : gmap Z OrderInfo) : gset Z :=
  dom current ∖ dom last.

Definition removed_orders (last current : gmap Z OrderInfo) : gset Z :=
  dom last ∖ dom current.

(** The body of [_detect_master_changes], over the method it calls on
    the order of each ticket common to both snapshots; [None] stands for an
    exception that escapes the call ([_has_master_order_changed] itself
    catches its own, so none escapes it). *)
Definition detect_master_changes_body (changed : OrderInfo -> option bool)
    (last current : gmap Z OrderInfo) : option Changes :=
  let new := new_orders last current in
  let removed := removed_orders last current in
  flags ← mapM (fun t => current !! t ≫= changed) (elements (dom current ∩ dom last));
  let modified := length (List.filter id flags) in
  let summary :=
    (if bool_decide (new = ∅) then [] else [pretty (size new) +:+ " new orders"]) ++
    (if bool_decide (removed = ∅) then [] else [pretty (size removed) +:+ " removed orders"]) ++
    (if (0 <? modified)%nat then [pretty modified +:+ " modified orders"] else []) in
  Some {| has_changes :=
            negb (bool_decide (new = ∅)) || negb (bool_decide (removed = ∅)) ||
            (0 <? modified)%nat;
          summary := match summary with [] => ["no changes"] | _ => summary end |}.

(** [except Exception: return {'has_changes': True, ...}]. *)
Definition detect_master_changes_with (changed : OrderInfo -> option bool)
    (last current : gmap Z OrderInfo) (master_orders : list OrderInfo) : Changes :=
  default {| has_changes := true; summary := ["error - assuming changes"] |}
    (detect_master_changes_body changed last current).

Definition detect_master_changes (last current : gmap Z OrderInfo)
    (master_orders : list OrderInfo) : Changes :=
  detect_master_changes_with (fun o => Some (has_master_order_changed last o))
    last current master_orders.

(** ** The per-follower synchronisation pass *)

Definition check_order_modifications (master_order : OrderInfo) (follower_order : MtOrder)
    (cfg : FollowerConfig) : M W unit :=
  let master_sl := or_zero (sl master_order) in
  let master_tp := or_zero (tp master_order) in
  let follower_sl := or_zero (mt_sl follower_order) in
  let follower_tp := or_zero (mt_tp follower_order) in
  let sl_changed := differs master_sl follower_sl in
  let tp_changed := differs master_tp follower_tp in
  let price_changed :=
    match mt_price_open follower_order with
    | Some price_open => differs (or_zero (price master_order)) (or_zero price_open)
    | None => false
    end in
  if sl_changed || tp_changed || price_changed then
    emit (AModify (login cfg) (mt_ticket follower_order)
            (if price_changed then price master_order else None)
            (if sl_changed then Some master_sl else None)
            (if tp_changed then Some master_tp else None)) ;;
    let* success := call (modify_order T (mt_ticket follower_order)
            (if price_changed then price master_order else None)
            (if sl_changed then Some master_sl else None)
            (if tp_changed then Some master_tp else None)) in
    ret tt
  else ret tt.

Definition copy_new_order (master_order : OrderInfo) (cfg : FollowerConfig) : M W unit :=
  let symbol := map_symbol (symbol master_order) cfg in
  let* symbol_info := call (get_symbol_info T symbol (login cfg)) in
  match symbol_info with
  | None => ret tt
  | Some _ =>
      let* volume := calculate_lot_size (volume master_order) cfg symbol in
      let req := {| req_symbol := symbol; req_order_type := order_type master_order;
                    req_volume := volume; req_price := price master_order;
                    req_sl := sl master_order; req_tp := tp master_order;
                    req_comment := copy_comment (ticket master_order);
                    req_magic := magic_number cfg |} in
      emit (ACreate (login cfg) (ticket master_order) req) ;;
      let* follower_ticket := call (send_order T req) in
      match follower_ticket with
      | Some ft =>
          if ft =? 0 then ret tt
          else
            let* s := get_state in
            let followers := default ∅ (PyDict.get (ticket master_order) (follower_orders s)) in
            set_follower_orders
              (PyDict.set (ticket master_order) (<[login cfg := ft]> followers) (follower_orders s))
      | None => ret tt
      end
  end.

(** The branch of [_process_master_order] taken when the linked follower
    ticket is gone from the follower's account. *)
Definition mark_manually_closed (master_ticket : Z) (cfg : FollowerConfig)
    (followers : gmap Z Z) : M W unit :=
  let* s := get_state in
  set_manually_closed
    (<[master_ticket := default ∅ (manually_closed s !! master_ticket) ∪ {[login cfg]}]>
       (manually_closed s)) ;;
  let followers' := delete (login cfg) followers in
  let status :=
    match order_sync_status s !! master_ticket with
    | Some st => <[master_ticket := delete (login cfg) st]> (order_sync_status s)
    | None => order_sync_status s
    end in
  if bool_decide (followers' = ∅) then
    set_follower_orders (PyDict.del master_ticket (follower_orders s)) ;;
    set_order_sync_status (delete master_ticket status)
  else
    set_follower_orders (PyDict.set master_ticket followers' (follower_orders s)) ;;
    set_order_sync_status status.

Definition mark_synced (master_ticket : Z) (cfg : FollowerConfig) : M W unit :=
  let* s := get_state in
  set_order_sync_status
    (<[master_ticket := <[login cfg := "synced"%string]>
                          (default ∅ (order_sync_status s !! master_ticket))]>
       (order_sync_status s)).

(** The tail of [_process_master_order]: the manual-close guard, then the
    copy. *)
Definition copy_unless_manually_closed (master_order : OrderInfo) (cfg : FollowerConfig)
    : M W unit :=
  let* s := get_state in
  if bool_decide (login cfg ∈ default ∅ (manually_closed s !! ticket master_order))
  then ret tt
  else copy_new_order master_order cfg.

Definition process_master_order (master_order : OrderInfo) (cfg : FollowerConfig)
    (live : list (Z * MtOrder)) : M W unit :=
  let master_ticket := ticket master_order in
  let* s := get_state in
  match PyDict.get master_ticket (follower_orders s) with
  | Some followers =>
      match followers !! login cfg with
      | Some follower_ticket =>
          match PyDict.get follower_ticket live with
          | Some follower_order =>
              (if has_master_order_changed (last_master_state s) master_order
               then check_order_modifications master_order follower_order cfg
               else ret tt) ;;
              mark_synced master_ticket cfg
          | None => mark_manually_closed master_ticket cfg followers
          end
      | None => copy_unless_manually_closed master_order cfg
      end
  | None => copy_unless_manually_closed master_order cfg
  end.

(** ** Orphan cleanup *)

(** Method 1: the follower's own orders whose comment names a master ticket
    that is gone. *)
Definition orphans_by_comment (master_tickets : gset Z) (magic : Z)
    (live : list (Z * MtOrder)) : list (Z * MtOrder * Z) :=
  flat_map
    (fun '(ticket, order) =>
       if negb (mt_magic order =? magic) then []
       else match mt_comment order with
            | Some c =>
                match copy_ticket c with
                | Some master_ticket =>
                    if bool_decide (master_ticket ∈ master_tickets) then []
                    else [(ticket, order, master_ticket)]
                | None => []
                end
            | None => []
            end)
    live.

(** Method 2: the tracked links whose master ticket is gone. *)
Definition orphans_by_link (master_tickets : gset Z) (login : Z)
    (links : list (Z * gmap Z Z)) (live : list (Z * MtOrder)) : list (Z * MtOrder * Z) :=
  flat_map
    (fun '(master_ticket, followers) =>
       if bool_decide (master_ticket ∈ master_tickets) then []
       else match followers !! login with
            | Some follower_ticket =>
                match PyDict.get follower_ticket live with
                | Some order => [(follower_ticket, order, master_ticket)]
                | None => []
                end
            | None => []
            end)
    links.

Definition orders_to_close (master_orders : list OrderInfo) (live : list (Z * MtOrder))
    (cfg : FollowerConfig) (links : list (Z * gmap Z Z)) : list (Z * MtOrder * Z) :=
  let master_tickets : gset Z := list_to_set (map ticket master_orders) in
  orphans_by_comment master_tickets (magic_number cfg) live ++
  orphans_by_link master_tickets (login cfg) links live.

Definition issue_close (cfg : FollowerConfig) (ticket : Z) : M W bool :=
  emit (AClose (login cfg) ticket) ;; call (close_position T ticket).

Definition issue_cancel (cfg : FollowerConfig) (ticket : Z) : M W bool :=
  emit (ACancel (login cfg) ticket) ;; call (cancel_order T ticket).

(** [Remove from tracking if successful]. *)
Definition untrack (cfg : FollowerConfig) (master_ticket : Z) : M W unit :=
  let* s := get_state in
  match PyDict.get master_ticket (follower_orders s) with
  | Some followers =>
      let followers' := delete (login cfg) followers in
      if bool_decide (followers' = ∅)
      then set_follower_orders (PyDict.del master_ticket (follower_orders s))
      else set_follower_orders (PyDict.set master_ticket followers' (follower_orders s))
  | None => ret tt
  end.

(** The close or the cancel of one orphan: a position is closed, a pending
    order cancelled; an object without [type] is looked up among the
    positions. *)
Definition close_or_cancel (cfg : FollowerConfig) (ticket : Z) (order : MtOrder) : M W bool :=
  match mt_type order with
  | Some type =>
      if (type =? ORDER_TYPE_BUY) || (type =? ORDER_TYPE_SELL)
      then issue_close cfg ticket
      else issue_cancel cfg ticket
  | None =>
      let* position := call (position_exists T ticket) in
      if position then issue_close cfg ticket else issue_cancel cfg ticket
  end.

(** One round of the closing loop of [_cleanup_orphaned_orders]. *)
Definition close_orphan (cfg : FollowerConfig) (entry : Z * MtOrder * Z) : M W unit :=
  let '(ticket, order, master_ticket) := entry in
  let* success := close_or_cancel cfg ticket order in
  if success then untrack cfg master_ticket else ret tt.

Definition cleanup_orphaned_orders (master_orders : list OrderInfo)
    (live : list (Z * MtOrder)) (cfg : FollowerConfig) : M W unit :=
  let* s := get_state in
  for_each (orders_to_close master_orders live cfg (follower_orders s)) (close_orphan cfg).

(** The follower's orders and positions that carry its magic number, keyed
    by ticket. *)
Definition track_own (magic : Z) (orders : list MtOrder) (live : list (Z * MtOrder))
    : list (Z * MtOrder) :=
  fold_left
    (fun d order => if mt_magic order =? magic then PyDict.set (mt_ticket order) order d else d)
    orders live.

(** The start of [sync_orders_to_follower]: the follower's pending orders,
    then its positions, filtered by magic number. *)
Definition fetch_live (cfg : FollowerConfig) : M W (list (Z * MtOrder)) :=
  let* pending := call (orders_get T) in
  let* positions := call (positions_get T) in
  ret (track_own (magic_number cfg) positions (track_own (magic_number cfg) pending [])).

Definition sync_orders_to_follower (cfg : FollowerConfig) (master_orders : list OrderInfo)
    : M W unit :=
  let* connected := call (connect_account T (login cfg)) in
  if negb connected then ret tt
  else
    let* live := fetch_live cfg in
    for_each master_orders (fun master_order => process_master_order master_order cfg live) ;;
    cleanup_orphaned_orders master_orders live cfg.

(** ** The master snapshot and the cycle *)

(** [OrderInfo(...)] from a pending order; [None] stands for the
    [AttributeError] of a missing attribute. *)
Definition order_info_of_pending (order : MtOrder) : option OrderInfo :=
  type ← mt_type order;
  price_open ← mt_price_open order;
  comment ← mt_comment order;
  Some {| ticket := mt_ticket order; symbol := mt_symbol order; order_type := type;
          volume := mt_volume order; price := price_open; sl := mt_sl order;
          tp := mt_tp order; comment := comment; magic := mt_magic order;
          time_setup := mt_time order; state := mt_state order |}.

Definition order_info_of_position (pos : MtOrder) : option OrderInfo :=
  type ← mt_type pos;
  price_open ← mt_price_open pos;
  comment ← mt_comment pos;
  Some {| ticket := mt_ticket pos; symbol := mt_symbol pos; order_type := type;
          volume := mt_volume pos; price := price_open; sl := mt_sl pos;
          tp := mt_tp pos; comment := comment; magic := mt_magic pos;
          time_setup := mt_time pos; state := FILLED |}.

Definition get_master_orders (config : Config) : M W (list OrderInfo) :=
  let* connected := call (connect_account T (master_account config)) in
  if negb connected then ret []
  else
    let* pending_orders := call (orders_get T) in
    match mapM order_info_of_pending pending_orders with
    | None => ret []
    | Some orders =>
        let* positions := call (positions_get T) in
        match mapM order_info_of_position positions with
        | None => ret []
        | Some more => ret (orders ++ more)
        end
    end.

Definition is_enabled (cfg : FollowerConfig) : bool := default true (enabled cfg).

(** The follower loop of [run_copy_cycle], in its two branches. *)
Definition sync_followers (config : Config) (master_orders : list OrderInfo) : M W unit :=
  match master_orders with
  | [] =>
      for_each (follower_accounts config)
        (fun cfg => if is_enabled cfg then sync_orders_to_follower cfg [] else ret tt)
  | _ =>
      for_each (follower_accounts config)
        (fun cfg => if negb (is_enabled cfg) then ret tt
                    else sync_orders_to_follower cfg master_orders)
  end.

(** [run_copy_cycle] from the change detection on, given the master
    snapshot. *)
Definition reconcile (config : Config) (master_orders : list OrderInfo) : M W unit :=
  let current_master_state := master_state_of master_orders in
  let* s := get_state in
  let changes_detected :=
    detect_master_changes (last_master_state s) current_master_state master_orders in
  if negb (has_changes changes_detected)
  then set_last_master_state current_master_state
  else
    sync_followers config master_orders ;;
    set_last_master_state current_master_state.

Definition run_copy_cycle (config : Config) : M W unit :=
  let* s := get_state in
  set_cycle_count (cycle_count s + 1) ;;
  let* master_orders := get_master_orders config in
  reconcile config master_orders.

(** [n] consecutive cycles of the main loop. *)
Fixpoint run_cycles (config : Config) (n : nat) : M W unit :=
  match n with
  | O => ret tt
  | S k => run_copy_cycle config ;; run_cycles config k
  end.

End Engine.

(** ** The order wrappers of [MT5Copier]

    [get_symbol_info], [get_filling_mode], [send_order], [modify_order],
    [close_position] and [cancel_order], over the functions and constants of
    the [mt5] module they use.  The functions report a failure by their
    result ([None], [False], an empty tuple); the requests handed to
    [mt5.order_send] are returned with the answer, in the order sent. *)

(** [mt5.symbol_info_tick]. *)
Record Tick := {
  tick_ask : Q;
  tick_bid : Q
}.

(** [mt5.symbol_info]: the attributes the wrappers read. *)
Record SymbolRecord := {
  sym_visible : bool;
  sym_filling_mode : Z
}.

(** The request dictionary of [mt5.order_send]; a key that a wrapper
    does not set is [None]. *)
Record TradeRequest := {
  tr_action : Z;
  tr_symbol : option string;
  tr_volume : option Q;
  tr_type : option Z;
  tr_position : option Z;
  tr_order : option Z;
  tr_price : option pyfloat;
  tr_sl : option pyfloat;
  tr_tp : option pyfloat;
  tr_deviation : option Z;
  tr_magic : option Z;
  tr_comment : option string;
  tr_type_filling : option Z
}.

(** The result of [mt5.order_send]. *)
Record TradeResult := {
  res_retcode : Z;
  res_order : Z
}.

(** The [mt5] module: its constants and its functions, over the
    terminal's state [W]. *)
Record Mt5 (W : Type) := {
  TRADE_ACTION_DEAL : Z;
  TRADE_ACTION_PENDING : Z;
  TRADE_ACTION_SLTP : Z;
  TRADE_ACTION_MODIFY : Z;
  TRADE_ACTION_REMOVE : Z;
  TRADE_RETCODE_DONE : Z;
  ORDER_FILLING_FOK : Z;
  ORDER_FILLING_IOC : Z;
  ORDER_FILLING_RETURN : Z;
  SYMBOL_FILLING_FOK : Z;
  SYMBOL_FILLING_IOC : Z;
  symbol_info : string -> W -> option SymbolRecord * W;
  symbol_select : string -> W -> bool * W;
  symbol_info_tick : string -> W -> option Tick * W;
  (** [mt5.positions_get(ticket=t)] and [mt5.orders_get(ticket=t)] *)
  positions_get_ticket : Z -> W -> list MtOrder * W;
  orders_get_ticket : Z -> W -> list MtOrder * W;
  order_send : TradeRequest -> W -> option TradeResult * W
}.
Arguments TRADE_ACTION_DEAL {W}.
Arguments TRADE_ACTION_PENDING {W}.
Arguments TRADE_ACTION_SLTP {W}.
Arguments TRADE_ACTION_MODIFY {W}.
Arguments TRADE_ACTION_REMOVE {W}.
Arguments TRADE_RETCODE_DONE {W}.
Arguments ORDER_FILLING_FOK {W}.
Arguments ORDER_FILLING_IOC {W}.
Arguments ORDER_FILLING_RETURN {W}.
Arguments SYMBOL_FILLING_FOK {W}.
Arguments SYMBOL_FILLING_IOC {W}.
Arguments symbol_info {W}.
Arguments symbol_select {W}.
Arguments symbol_info_tick {W}.
Arguments positions_get_ticket {W}.
Arguments orders_get_ticket {W}.
Arguments order_send {W}.

(** [x if x is not None else y]. *)
Definition if_given (x y : pyfloat) : pyfloat :=
  match x with
  | Some _ => x
  | None => y
  end.

(** [order_type in [mt5.ORDER_TYPE_BUY, mt5.ORDER_TYPE_SELL]]; the two
    constants of the package are 0 and 1, as [OrderType.BUY] and
    [OrderType.SELL] are. *)
Definition is_market (order_type : Z) : bool :=
  (order_type =? ORDER_TYPE_BUY) || (order_type =? ORDER_TYPE_SELL).

(** [OrderType(order_type)] is defined for the eight values of the
    enumeration and raises [ValueError] otherwise. *)
Definition is_order_type (order_type : Z) : bool :=
  (0 <=? order_type) && (order_type <=? 7).

Module Wrappers.
Section wrappers.
Context {W : Type} (mt : Mt5 W).

Definition get_symbol_info (symbol : string) (login : Z) (w : W)
    : option SymbolRecord * W :=
  let '(symbol_info, w) := symbol_info mt symbol w in
  match symbol_info with
  | None => (None, w)
  | Some info =>
      if negb (sym_visible info) then
        let '(selected, w) := symbol_select mt symbol w in
        if negb selected then (None, w) else (Some info, w)
      else (Some info, w)
  end.

Definition get_filling_mode (symbol : string) (w : W) : Z * W :=
  let '(symbol_info, w) := symbol_info mt symbol w in
  match symbol_info with
  | None => (ORDER_FILLING_FOK mt, w)
  | Some info =>
      let filling := sym_filling_mode info in
      if negb (Z.land filling (SYMBOL_FILLING_FOK mt) =? 0) then (ORDER_FILLING_FOK mt, w)
      else if negb (Z.land filling (SYMBOL_FILLING_IOC mt) =? 0) then (ORDER_FILLING_IOC mt, w)
      else (ORDER_FILLING_RETURN mt, w)
  end.

(** [mt5.order_send(request)] and the checks of its result that the four
    sending wrappers share; the answer is the result when its [retcode] is
    [TRADE_RETCODE_DONE]. *)
Definition send_request (request : TradeRequest) (w : W)
    : option TradeResult * list TradeRequest * W :=
  let '(result, w) := order_send mt request w in
  match result with
  | None => (None, [request], w)
  | Some result =>
      if negb (res_retcode result =? TRADE_RETCODE_DONE mt) then (None, [request], w)
      else (Some result, [request], w)
  end.

(** [send_order] from the spread check on, with the price settled. *)
Definition send_priced (req : OrderRequest) (price : pyfloat) (w : W)
    : option Z * list TradeRequest * W :=
  let order_type := req_order_type req in
  let '(_, w) := get_symbol_info (req_symbol req) 0 w in
  let '(filling, w) := get_filling_mode (req_symbol req) w in
  let request :=
    {| tr_action := if is_market order_type then TRADE_ACTION_DEAL mt
                    else TRADE_ACTION_PENDING mt;
       tr_symbol := Some (req_symbol req); tr_volume := Some (req_volume req);
       tr_type := Some order_type; tr_position := None; tr_order := None;
       tr_price := Some price; tr_sl := Some (req_sl req); tr_tp := Some (req_tp req);
       tr_deviation := if is_market order_type then Some 20 else None;
       tr_magic := Some (req_magic req); tr_comment := Some (req_comment req);
       tr_type_filling := Some filling |} in
  let '(result, sent, w) := send_request request w in
  (res_order <$> result, sent, w).

Definition send_order (req : OrderRequest) (w : W) : option Z * list TradeRequest * W :=
  let order_type := req_order_type req in
  if negb (is_order_type order_type) then (None, [], w)
  else if is_market order_type then
    let '(tick, w) := symbol_info_tick mt (req_symbol req) w in
    match tick with
    | None => (None, [], w)
    | Some tick =>
        send_priced req
          (Some (if order_type =? ORDER_TYPE_BUY then tick_ask tick else tick_bid tick)) w
    end
  else send_priced req (req_price req) w.

Definition modify_order (ticket : Z) (price sl tp : pyfloat) (w : W)
    : bool * list TradeRequest * W :=
  let '(position, w) := positions_get_ticket mt ticket w in
  match position with
  | position :: _ =>
      let request :=
        {| tr_action := TRADE_ACTION_SLTP mt; tr_symbol := Some (mt_symbol position);
           tr_volume := None; tr_type := None; tr_position := Some ticket; tr_order := None;
           tr_price := None; tr_sl := Some (if_given sl (mt_sl position));
           tr_tp := Some (if_given tp (mt_tp position)); tr_deviation := None;
           tr_magic := None; tr_comment := None; tr_type_filling := None |} in
      let '(result, sent, w) := send_request request w in
      (bool_decide (is_Some result), sent, w)
  | [] =>
      let '(order, w) := orders_get_ticket mt ticket w in
      match order with
      | [] => (false, [], w)
      | order :: _ =>
          match price, mt_price_open order with
          | None, None => (false, [], w)
          | _, _ =>
              let request :=
                {| tr_action := TRADE_ACTION_MODIFY mt; tr_symbol := None; tr_volume := None;
                   tr_type := None; tr_position := None; tr_order := Some ticket;
                   tr_price := Some (if_given price (default None (mt_price_open order)));
                   tr_sl := Some (if_given sl (mt_sl order));
                   tr_tp := Some (if_given tp (mt_tp order)); tr_deviation := None;
                   tr_magic := None; tr_comment := None; tr_type_filling := None |} in
              let '(result, sent, w) := send_request request w in
              (bool_decide (is_Some result), sent, w)
          end
      end
  end.

Definition close_position (ticket : Z) (w : W) : bool * list TradeRequest * W :=
  let '(position, w) := positions_get_ticket mt ticket w in
  match position with
  | [] => (false, [], w)
  | position :: _ =>
      match mt_type position with
      | None => (false, [], w)
      | Some type =>
          let close_type := if type =? ORDER_TYPE_BUY then ORDER_TYPE_SELL else ORDER_TYPE_BUY in
          let '(tick, w) := symbol_info_tick mt (mt_symbol position) w in
          match tick with
          | None => (false, [], w)
          | Some tick =>
              let close_price := if type =? ORDER_TYPE_BUY then tick_bid tick else tick_ask tick in
              let '(filling, w) := get_filling_mode (mt_symbol position) w in
              let request :=
                {| tr_action := TRADE_ACTION_DEAL mt; tr_symbol := Some (mt_symbol position);
                   tr_volume := Some (mt_volume position); tr_type := Some close_type;
                   tr_position := Some ticket; tr_order := None;
                   tr_price := Some (Some close_price); tr_sl := None; tr_tp := None;
                   tr_deviation := Some 20; tr_magic := Some (mt_magic position);
                   tr_comment := Some "Close by copier"%string;
                   tr_type_filling := Some filling |} in
              let '(result, sent, w) := send_request request w in
              (bool_decide (is_Some result), sent, w)
          end
      end
  end.

Definition cancel_order (ticket : Z) (w : W) : bool * list TradeRequest * W :=
  let request :=
    {| tr_action := TRADE_ACTION_REMOVE mt; tr_symbol := None; tr_volume := None;
       tr_type := None; tr_position := None; tr_order := Some ticket; tr_price := None;
       tr_sl := None; tr_tp := None; tr_deviation := None; tr_magic := None;
       tr_comment := None; tr_type_filling := None |} in
  let '(result, sent, w) := send_request request w in
  (bool_decide (is_Some result), sent, w).

End wrappers.
End Wrappers.

(** ** Connecting and disconnecting

    [connect_account], [disconnect_account] and [stop], over the calls they
    make to the operating system and to the [mt5] module. *)

(** The keys of an account's configuration that [connect_account]
    reads. *)
Record Account := {
  acc_login : Z;
  acc_password : string;
  acc_server : string;
  acc_mt5_path : string
}.

Record Platform (W : Type) := {
  (** [os.path.exists] *)
  path_exists : string -> W -> bool * W;
  mt5_initialize : string -> W -> bool * W;
  mt5_login : Z -> string -> string -> W -> bool * W;
  mt5_shutdown : W -> W;
  (** whether [mt5.account_info()] is not [None] *)
  mt5_account_info : W -> bool * W
}.
Arguments path_exists {W}.
Arguments mt5_initialize {W}.
Arguments mt5_login {W}.
Arguments mt5_shutdown {W}.
Arguments mt5_account_info {W}.

(** [self.connections], [self.running] and the platform. *)
Record Session (W : Type) := {
  connections : list (Z * bool);
  running : bool;
  platform : W
}.
Arguments connections {W}.
Arguments running {W}.
Arguments platform {W}.

Module Connection.
Section connection.
Context {W : Type} (P : Platform W).

Definition on_platform (w : W) (s : Session W) : Session W :=
  {| connections := connections s; running := running s; platform := w |}.

Definition connect_account (account : Account) (s : Session W) : bool * Session W :=
  let '(found, w) := path_exists P (acc_mt5_path account) (platform s) in
  if negb found then (false, on_platform w s)
  else
    let '(initialized, w) := mt5_initialize P (acc_mt5_path account) w in
    if negb initialized then (false, on_platform w s)
    else
      let '(logged_in, w) :=
        mt5_login P (acc_login account) (acc_password account) (acc_server account) w in
      if negb logged_in then (false, on_platform (mt5_shutdown P w) s)
      else
        let '(account_info, w) := mt5_account_info P w in
        if negb account_info then (false, on_platform w s)
        else (true, {| connections := PyDict.set (acc_login account) true (connections s);
                       running := running s; platform := w |}).

Definition disconnect_account (login : Z) (s : Session W) : Session W :=
  {| connections := PyDict.set login false (connections s); running := running s;
     platform := mt5_shutdown P (platform s) |}.

(** [for login in self.connections: if self.connections[login]: ...];
    the loop changes values only, so it visits the keys the dictionary had
    when it started. *)
Definition stop (s : Session W) : Session W :=
  fold_left
    (fun s login =>
       if default false (PyDict.get login (connections s)) then disconnect_account login s
       else s)
    (PyDict.keys (connections s))
    {| connections := connections s; running := false; platform := platform s |}.

End connection.
End Connection.

(** ** A scripted terminal for concrete runs

    The terminal's state is the account currently connected and the
    tickets closed or cancelled so far; the accounts' orders and the other
    answers are fixed by a script.  A close or a cancel succeeds when the
    script lets requests through and the ticket is still there. *)

Record Script := {
  sc_connect : Z -> bool;
  sc_pending : Z -> list MtOrder;
  sc_positions : Z -> list MtOrder;
  sc_symbol : string -> option SymbolInfo;
  sc_balance : option Q;
  sc_new_ticket : option Z;
  sc_ok : bool
}.

Record Desk := {
  account : Z;
  gone : list Z
}.

Definition desk (account : Z) : Desk := {| account := account; gone := [] |}.

Definition remaining (w : Desk) (orders : list MtOrder) : list MtOrder :=
  List.filter (fun o => negb (bool_decide (mt_ticket o ∈ gone w))) orders.

Definition remove_ticket (sc : Script) (orders : list MtOrder) (t : Z) (w : Desk)
    : bool * Desk :=
  if sc_ok sc && bool_decide (t ∈ map mt_ticket (remaining w orders))
  then (true, {| account := account w; gone := t :: gone w |})
  else (false, w).

Definition scripted (sc : Script) : Terminal Desk := {|
  connect_account := fun a w =>
    if sc_connect sc a then (true, {| account := a; gone := gone w |}) else (false, w);
  orders_get := fun w => (remaining w (sc_pending sc (account w)), w);
  positions_get := fun w => (remaining w (sc_positions sc (account w)), w);
  position_exists := fun t w =>
    (bool_decide (t ∈ map mt_ticket (remaining w (sc_positions sc (account w)))), w);
  get_symbol_info := fun name _ w => (sc_symbol sc name, w);
  account_balance := fun w => (sc_balance sc, w);
  send_order := fun _ w => (sc_new_ticket sc, w);
  modify_order := fun _ _ _ _ w => (sc_ok sc, w);
  close_position := fun t w => remove_ticket sc (sc_positions sc (account w)) t w;
  cancel_order := fun t w => remove_ticket sc (sc_pending sc (account w)) t w
|}.

Definition initial_state {W} (w : W) : Sys W :=
  {| follower_orders := []; last_master_state := ∅; order_sync_status := ∅;
     manually_closed := ∅; cycle_count := 0; world := w; log := [] |}.

(** * The vocabulary of the properties *)

(** [wp m P Q s]: run from [s], [m] appends to the log only actions that
    satisfy [P], and its result and final state satisfy [Q]. *)
Definition wp {W A} (m : M W A) (P : Action -> Prop) (Q : A -> Sys W -> Prop)
    (s : Sys W) : Prop :=
  ∃ issued, log (m s).2 = log s ++ issued ∧ Forall P issued ∧ Q (m s).1 (m s).2.

(** The pair (master ticket [t], follower [l]) is in the manual-close
    record. *)
Definition recorded_pair {W} (t l : Z) (s : Sys W) : Prop :=
  l ∈ default ∅ (manually_closed s !! t).

(** An action other than a create for the pair [(t, l)]. *)
Definition no_recreate_pair (t l : Z) (a : Action) : Prop := ∀ req, a ≠ ACreate l t req.

(** The number of common tickets whose order counts as changed. *)
Definition modified_count (last current : gmap Z OrderInfo) : nat :=
  length (List.filter
            (fun t => match current !! t with
                      | Some current_order => has_master_order_changed last current_order
                      | None => false
                      end)
            (elements (dom current ∩ dom last))).

(** The change detector's notion of an unchanged order, as the
    specification words it: no compared field moved by more than the
    tolerance. *)
Definition within_tolerance (a b : OrderInfo) : Prop :=
  (∃ p q, price a = Some p ∧ price b = Some q ∧ (Qabs (p - q) <= tolerance)%Q) ∧
  (Qabs (or_zero (sl a) - or_zero (sl b)) <= tolerance)%Q ∧
  (Qabs (or_zero (tp a) - or_zero (tp b)) <= tolerance)%Q ∧
  (Qabs (volume a - volume b) <= tolerance)%Q.

(** Two master snapshots with the same tickets and no field moved. *)
Definition snapshot_unchanged (last current : gmap Z OrderInfo) : Prop :=
  dom current = dom last ∧
  ∀ t a b, last !! t = Some a → current !! t = Some b → within_tolerance b a.

(** The follower ticket linked to a master ticket for one follower. *)
Definition link {W} (s : Sys W) (master_ticket follower : Z) : option Z :=
  PyDict.get master_ticket (follower_orders s) ≫= (fun followers => followers !! follower).

(** What the closing loop leaves in place, whatever the terminal answers:
    the manual-close record and the links of the other followers. *)
Definition round_frame {W} (cfg : FollowerConfig) (s s' : Sys W) : Prop :=
  manually_closed s' = manually_closed s ∧
  ∀ m f, f ≠ login cfg → link s' m f = link s m f.

(** All three tables hold nothing for a master ticket. *)
Definition purged {W} (s : Sys W) (master_ticket : Z) : Prop :=
  PyDict.get master_ticket (follower_orders s) = None ∧
  order_sync_status s !! master_ticket = None ∧
  manually_closed s !! master_ticket = None.

(** The delta of a compared field, as the float subtraction gives it. *)
Definition delta (a b : Q) : Q := Qabs (round64 (a - b)).

(** The delta of a compared field is above the tolerance. *)
Definition delta_exceeds (a b : Q) : Prop := (tolerance < delta a b)%Q.

(** The deltas between a master order and the follower's live copy, field
    by field; the price is compared when the copy has a [price_open]. *)
Definition sl_exceeds (master_order : OrderInfo) (follower_order : MtOrder) : Prop :=
  delta_exceeds (or_zero (sl master_order)) (or_zero (mt_sl follower_order)).

Definition tp_exceeds (master_order : OrderInfo) (follower_order : MtOrder) : Prop :=
  delta_exceeds (or_zero (tp master_order)) (or_zero (mt_tp follower_order)).

Definition price_exceeds (master_order : OrderInfo) (follower_order : MtOrder) : Prop :=
  ∃ price_open, mt_price_open follower_order = Some price_open ∧
                delta_exceeds (or_zero (price master_order)) (or_zero price_open).

(** A follower order that is still pending: its type is neither BUY nor
    SELL, the two types of a position. *)
Definition is_pending (follower_order : MtOrder) : Prop :=
  ∃ type, mt_type follower_order = Some type ∧
          type ≠ ORDER_TYPE_BUY ∧ type ≠ ORDER_TYPE_SELL.

(** The price delta of a pending follower order is above the tolerance. *)
Definition pending_price_exceeds (master_order : OrderInfo) (follower_order : MtOrder)
    : Prop :=
  is_pending follower_order ∧ price_exceeds master_order follower_order.

(** The pair of a master order and a follower is linked, the linked
    follower order is live, and the master order counts as changed since
    the last snapshot. *)
Definition linked_and_modified {W} (s : Sys W) (live : list (Z * MtOrder))
    (master_order : OrderInfo) (cfg : FollowerConfig) (follower_order : MtOrder) : Prop :=
  ∃ followers follower_ticket,
    PyDict.get (ticket master_order) (follower_orders s) = Some followers ∧
    followers !! login cfg = Some follower_ticket ∧
    PyDict.get follower_ticket live = Some follower_order ∧
    has_master_order_changed (last_master_state s) master_order = true.

(** The volume that a policy other than percent-balance gives before the
    bounds are applied. *)
Definition plain_policy_volume (calc_type : LotCalculationType) (master_volume : Q)
    (cfg : FollowerConfig) : Q :=
  match calc_type with
  | FIXED => lot_value cfg
  | _ => (master_volume * lot_value cfg)%Q
  end.


(** The follower ticket that an action is aimed at. *)
Definition target (a : Action) : option Z :=
  match a with
  | ACreate _ _ _ => None
  | AModify _ t _ _ _ => Some t
  | AClose _ t => Some t
  | ACancel _ t => Some t
  end.

(** An action on the follower's own orders: a create carries the
    follower's magic number, any other action is aimed at the ticket of an
    order of the account that carries it. *)
Definition own_action (cfg : FollowerConfig) (orders : list MtOrder) (a : Action) : Prop :=
  match a with
  | ACreate _ _ req => req_magic req = magic_number cfg
  | _ => ∃ o, In o orders ∧ Some (mt_ticket o) = target a ∧ mt_magic o = magic_number cfg
  end.

(** An entry of the follower's order set: an order of the account, under
    its own ticket, carrying the magic number. *)
Definition own_entry (cfg : FollowerConfig) (orders : list MtOrder) (e : Z * MtOrder) : Prop :=
  In e.2 orders ∧ mt_ticket e.2 = e.1 ∧ mt_magic e.2 = magic_number cfg.

(** The master account cannot be connected, or an order or position read
    from it lacks an attribute and the conversion raises. *)
Definition master_fetch_fails {W} (T : Terminal W) (config : Config) (w : W) : Prop :=
  let connected := connect_account T (master_account config) w in
  let pending := orders_get T connected.2 in
  connected.1 = false ∨
  mapM order_info_of_pending pending.1 = None ∨
  mapM order_info_of_position (positions_get T pending.2).1 = None.

(** The pass that a cycle without master orders runs for a follower. *)
Definition cleanup_pass {W} (T : Terminal W) (cfg : FollowerConfig) : M W unit :=
  if is_enabled cfg then sync_orders_to_follower T cfg [] else ret tt.

(** The action of one round of the closing loop. *)
Definition closes (cfg : FollowerConfig) (entry : Z * MtOrder * Z) (a : Action) : Prop :=
  a = AClose (login cfg) entry.1.1 ∨ a = ACancel (login cfg) entry.1.1.

(** ** Digit strings *)

(** A string of decimal digits. *)
Fixpoint all_digits (s : string) : bool :=
  match s with
  | EmptyString => true
  | String c r => bool_decide (is_Some (digit_val c)) && all_digits r
  end.

(** The number a digit string reads as, after the digits already read. *)
Fixpoint digits_value (acc : Z) (s : string) : Z :=
  match s with
  | EmptyString => acc
  | String c r => digits_value (10 * acc + default 0 (digit_val c)) r
  end.

(** A string without blanks and colons. *)
Fixpoint plain (s : string) : bool :=
  match s with
  | EmptyString => true
  | String c r => negb (is_space c) && negb (Ascii.eqb c ":") && plain r
  end.


(** The link table is well formed: one row for each master ticket, and no
    row without a follower. *)
Definition rows_well_formed (links : list (Z * gmap Z Z)) : Prop :=
  NoDup (PyDict.keys links) ∧ Forall (fun row => row.2 ≠ ∅) links.

(** A follower ticket that the cleanup may close: a ticket of the pass's
    order set for which a master ticket that is not in the snapshot is named
    by the order's comment, under the follower's magic number, or by a link
    of the follower in the link table. *)
Definition orphan_ticket (master_orders : list OrderInfo) (live : list (Z * MtOrder))
    (cfg : FollowerConfig) (links : list (Z * gmap Z Z)) (follower_ticket : Z) : Prop :=
  ∃ order master_ticket,
    (master_ticket ∉ map ticket master_orders) ∧
    In (follower_ticket, order) live ∧
    ((mt_magic order = magic_number cfg ∧
      mt_comment order ≫= copy_ticket = Some master_ticket) ∨
     (∃ followers, In (master_ticket, followers) links ∧
                   followers !! login cfg = Some follower_ticket)).

(** An order or a position that carries every attribute the master
    snapshot reads. *)
Definition complete (order : MtOrder) : Prop :=
  is_Some (mt_type order) ∧ is_Some (mt_price_open order) ∧ is_Some (mt_comment order).

(** The follower an action is issued for. *)
Definition follower_of (a : Action) : Z :=
  match a with
  | ACreate follower _ _ => follower
  | AModify follower _ _ _ _ => follower
  | AClose follower _ => follower
  | ACancel follower _ => follower
  end.

(** * Concrete accounts and terminals *)

(** A master account holding ticket 100 as an open position; follower 1
    copies with multiplier 0.5, bounds 0.01 and 5, on a symbol whose volume
    step is 0.01. *)
Module Steady.

Definition master_position : MtOrder :=
  {| mt_ticket := 100; mt_symbol := "EURUSD"; mt_type := Some ORDER_TYPE_BUY;
     mt_volume := 1%Q; mt_price_open := Some (Some (11 # 10)%Q); mt_sl := Some 0%Q;
     mt_tp := Some 0%Q; mt_comment := Some ""%string; mt_magic := 0; mt_time := 0;
     mt_state := 0 |}.

Definition info : SymbolInfo :=
  {| trade_contract_size := 100000%Q; trade_tick_value := 1%Q; volume_step := (1 # 100)%Q |}.

Definition follower : FollowerConfig :=
  {| login := 1; lot_calculation := "multiplier"; lot_value := (1 # 2)%Q;
     max_lot := Some 5%Q; min_lot := Some (1 # 100)%Q; symbol_mapping := None;
     magic_number := 777; enabled := None |}.

Definition config : Config := {| master_account := 9; follower_accounts := [follower] |}.

Definition script : Script :=
  {| sc_connect := fun _ => true;
     sc_pending := fun _ => [];
     sc_positions := fun account => if account =? 9 then [master_position] else [];
     sc_symbol := fun _ => Some info;
     sc_balance := Some 1000%Q; sc_new_ticket := Some 500; sc_ok := true |}.

(** Follower 1 closed its copy of ticket 100 by hand earlier. *)
Definition closed_by_hand : Sys Desk :=
  {| follower_orders := []; last_master_state := ∅; order_sync_status := ∅;
     manually_closed := {[100 := {[1]}]}; cycle_count := 0; world := desk 9; log := [] |}.

Definition master_order : OrderInfo :=
  {| ticket := 100; symbol := "EURUSD"; order_type := ORDER_TYPE_BUY; volume := 1%Q;
     price := Some (11 # 10)%Q; sl := Some 0%Q; tp := Some 0%Q; comment := "";
     magic := 0; time_setup := 0; state := FILLED |}.

End Steady.

(** A master ticket disappears while followers hold copies of it. *)

Module Orphan.

Definition follower1 : FollowerConfig :=
  {| login := 1; lot_calculation := "multiplier"; lot_value := 1%Q; max_lot := None;
     min_lot := None; symbol_mapping := None; magic_number := 777; enabled := None |}.

Definition follower2 : FollowerConfig :=
  {| login := 2; lot_calculation := "multiplier"; lot_value := 1%Q; max_lot := None;
     min_lot := None; symbol_mapping := None; magic_number := 777; enabled := Some false |}.

Definition config : Config :=
  {| master_account := 9; follower_accounts := [follower1; follower2] |}.

(** The follower's copy of master ticket 100, of the given order type. *)
Definition copy_of_100 (type : Z) : MtOrder :=
  {| mt_ticket := 500; mt_symbol := "EURUSD"; mt_type := Some type; mt_volume := 1%Q;
     mt_price_open := Some (Some (11 # 10)%Q); mt_sl := Some 0%Q; mt_tp := Some 0%Q;
     mt_comment := Some "Copy:100"%string; mt_magic := 777; mt_time := 0; mt_state := 1 |}.

Definition master_100 : OrderInfo :=
  {| ticket := 100; symbol := "EURUSD"; order_type := 0; volume := 1%Q;
     price := Some (11 # 10)%Q; sl := Some 0%Q; tp := Some 0%Q; comment := "";
     magic := 0; time_setup := 0; state := FILLED |}.

(** The master account is now empty; follower 1 holds its copy as a
    position; every request succeeds. *)
Definition position_script : Script :=
  {| sc_connect := fun _ => true;
     sc_pending := fun _ => [];
     sc_positions := fun account => if account =? 1 then [copy_of_100 ORDER_TYPE_BUY] else [];
     sc_symbol := fun _ => None; sc_balance := None; sc_new_ticket := None; sc_ok := true |}.

(** The same with the copy still pending (a buy limit). *)
Definition pending_script : Script :=
  {| sc_connect := fun _ => true;
     sc_pending := fun account => if account =? 1 then [copy_of_100 2] else [];
     sc_positions := fun _ => [];
     sc_symbol := fun _ => None; sc_balance := None; sc_new_ticket := None; sc_ok := true |}.

(** Ticket 100 was in the last snapshot, is linked for followers 1 and 2,
    and follower 3 once closed its copy by hand. *)
Definition before : Sys Desk :=
  {| follower_orders := [(100, {[1 := 500; 2 := 600]})];
     last_master_state := {[100 := master_100]};
     order_sync_status := {[100 := {[1 := "synced"%string; 2 := "synced"%string]}]};
     manually_closed := {[100 := {[3]}]};
     cycle_count := 7; world := desk 9; log := [] |}.

(** The same tables once follower 1 is connected. *)
Definition at_follower1 : Sys Desk := with_world (desk 1) before.

End Orphan.

(** The master account cannot be connected; follower 1 holds its copy of
    ticket 100 as a pending order. *)
Module MasterDown.

Definition script : Script :=
  {| sc_connect := fun account => negb (account =? 9);
     sc_pending := fun account => if account =? 1 then [Orphan.copy_of_100 2] else [];
     sc_positions := fun _ => [];
     sc_symbol := fun _ => None; sc_balance := None; sc_new_ticket := None; sc_ok := true |}.

End MasterDown.

(** Fixed sizing at 0.25 lots, [min_lot] 0.25, on a symbol whose volume
    step is 1. *)
Module StepOne.

Definition follower : FollowerConfig :=
  {| login := 1; lot_calculation := "fixed"; lot_value := (1 # 4)%Q; max_lot := Some 100%Q;
     min_lot := Some (1 # 4)%Q; symbol_mapping := None; magic_number := 777;
     enabled := None |}.

Definition script : Script :=
  {| sc_connect := fun _ => true; sc_pending := fun _ => []; sc_positions := fun _ => [];
     sc_symbol := fun _ =>
       Some {| trade_contract_size := 1%Q; trade_tick_value := 1%Q; volume_step := 1%Q |};
     sc_balance := Some 1000%Q; sc_new_ticket := Some 500; sc_ok := true |}.

End StepOne.

(** Follower 1 holds a pending copy (ticket 500) of master ticket 100,
    linked; the master order had its stop-loss at 0.5 in the last
    snapshot. *)
Module Boundary.

Definition master_with_sl (stop_loss : Q) : OrderInfo :=
  {| ticket := 100; symbol := "EURUSD"; order_type := 2; volume := 1%Q;
     price := Some (11 # 10)%Q; sl := Some stop_loss; tp := Some 0%Q; comment := "";
     magic := 0; time_setup := 0; state := 1 |}.

Definition copy : MtOrder :=
  {| mt_ticket := 500; mt_symbol := "EURUSD"; mt_type := Some 2; mt_volume := 1%Q;
     mt_price_open := Some (Some (11 # 10)%Q); mt_sl := Some 0%Q; mt_tp := Some 0%Q;
     mt_comment := Some "Copy:100"%string; mt_magic := 777; mt_time := 0; mt_state := 1 |}.

Definition follower : FollowerConfig :=
  {| login := 1; lot_calculation := "multiplier"; lot_value := 1%Q; max_lot := None;
     min_lot := None; symbol_mapping := None; magic_number := 777; enabled := None |}.

Definition script : Script :=
  {| sc_connect := fun _ => true; sc_pending := fun _ => [copy]; sc_positions := fun _ => [];
     sc_symbol := fun _ => None; sc_balance := None; sc_new_ticket := None; sc_ok := true |}.

Definition linked : Sys Desk :=
  {| follower_orders := [(100, {[1 := 500]})];
     last_master_state := {[100 := master_with_sl (1 # 2)]};
     order_sync_status := ∅; manually_closed := ∅; cycle_count := 1; world := desk 1;
     log := [] |}.

End Boundary.

(** A terminal that has no metadata for any symbol. *)
Module NoMetadata.

Definition master : OrderInfo :=
  {| ticket := 100; symbol := "EURUSD"; order_type := 0; volume := 1%Q;
     price := Some (11 # 10)%Q; sl := Some 0%Q; tp := Some 0%Q; comment := "";
     magic := 0; time_setup := 0; state := FILLED |}.

Definition fixed_follower : FollowerConfig :=
  {| login := 1; lot_calculation := "fixed"; lot_value := (1 # 2)%Q; max_lot := Some 5%Q;
     min_lot := Some (1 # 100)%Q; symbol_mapping := None; magic_number := 777;
     enabled := None |}.

Definition percent_follower : FollowerConfig :=
  {| login := 1; lot_calculation := "percent_balance"; lot_value := 2%Q; max_lot := Some 5%Q;
     min_lot := Some (1 # 100)%Q; symbol_mapping := None; magic_number := 777;
     enabled := None |}.

Definition script : Script :=
  {| sc_connect := fun _ => true; sc_pending := fun _ => []; sc_positions := fun _ => [];
     sc_symbol := fun _ => None; sc_balance := Some 1000%Q; sc_new_ticket := Some 500;
     sc_ok := true |}.

End NoMetadata.

(** A master order whose price is [None], already in the last snapshot. *)
Module Unpriced.

Definition master : OrderInfo :=
  {| ticket := 100; symbol := "EURUSD"; order_type := 2; volume := 1%Q;
     price := None; sl := Some 0%Q; tp := Some 0%Q; comment := "";
     magic := 0; time_setup := 0; state := 1 |}.

Definition config : Config := {| master_account := 9; follower_accounts := [] |}.

Definition script : Script :=
  {| sc_connect := fun _ => true; sc_pending := fun _ => []; sc_positions := fun _ => [];
     sc_symbol := fun _ => None; sc_balance := None; sc_new_ticket := None; sc_ok := true |}.

End Unpriced.

(** An outage.  Follower 1 holds the copy that the first cycle of
    [Steady] made of ticket 100 (ticket 500); then every connection is down
    for a while, and after that the master account alone stays down. *)
Module Outage.

Definition copy : MtOrder :=
  {| mt_ticket := 500; mt_symbol := "EURUSD"; mt_type := Some ORDER_TYPE_BUY;
     mt_volume := (1 # 2)%Q; mt_price_open := Some (Some (11 # 10)%Q); mt_sl := Some 0%Q;
     mt_tp := Some 0%Q; mt_comment := Some "Copy:100"%string; mt_magic := 777; mt_time := 0;
     mt_state := 0 |}.

Definition all_down : Script :=
  {| sc_connect := fun _ => false;
     sc_pending := fun _ => [];
     sc_positions := fun account => if account =? 1 then [copy] else [];
     sc_symbol := fun _ => Some Steady.info;
     sc_balance := Some 1000%Q; sc_new_ticket := None; sc_ok := true |}.

Definition master_down : Script :=
  {| sc_connect := fun account => negb (account =? 9);
     sc_pending := fun _ => [];
     sc_positions := fun account => if account =? 1 then [copy] else [];
     sc_symbol := fun _ => Some Steady.info;
     sc_balance := Some 1000%Q; sc_new_ticket := None; sc_ok := true |}.

(** The copier after its first cycle, and after a cycle during which
    nothing could be connected. *)
Definition copied : Sys Desk :=
  (run_copy_cycle (scripted Steady.script) Steady.config (initial_state (desk 9))).2.

Definition after_outage : Sys Desk :=
  (run_copy_cycle (scripted all_down) Steady.config copied).2.

End Outage.

(** A scripted [mt5] module for concrete runs, with the values that the
    MetaTrader5 package gives its constants: the terminal holds the given
    positions and pending orders, quotes one tick for every symbol, and
    answers every request alike. *)
Module Bench.

Record Script := {
  positions : list MtOrder;
  pending : list MtOrder;
  tick : option Tick;
  info : option SymbolRecord;
  selectable : bool;
  answer : option TradeResult
}.

Definition mt5 (sc : Script) : Mt5 unit := {|
  TRADE_ACTION_DEAL := 1;
  TRADE_ACTION_PENDING := 5;
  TRADE_ACTION_SLTP := 6;
  TRADE_ACTION_MODIFY := 7;
  TRADE_ACTION_REMOVE := 8;
  TRADE_RETCODE_DONE := 10009;
  ORDER_FILLING_FOK := 0;
  ORDER_FILLING_IOC := 1;
  ORDER_FILLING_RETURN := 2;
  SYMBOL_FILLING_FOK := 1;
  SYMBOL_FILLING_IOC := 2;
  symbol_info := fun _ w => (info sc, w);
  symbol_select := fun _ w => (selectable sc, w);
  symbol_info_tick := fun _ w => (tick sc, w);
  positions_get_ticket := fun t w => (List.filter (fun o => mt_ticket o =? t) (positions sc), w);
  orders_get_ticket := fun t w => (List.filter (fun o => mt_ticket o =? t) (pending sc), w);
  order_send := fun _ w => (answer sc, w)
|}.

Definition quote : Tick := {| tick_ask := 11 # 10; tick_bid := 109 # 100 |}.

(** A follower holding the position 500 (a buy) and the pending order
    501 (a buy limit); every request is accepted under ticket 900. *)
Definition open : Script :=
  {| positions := [Orphan.copy_of_100 ORDER_TYPE_BUY];
     pending := [{| mt_ticket := 501; mt_symbol := "EURUSD"; mt_type := Some 2;
                    mt_volume := 1%Q; mt_price_open := Some (Some (105 # 100)%Q);
                    mt_sl := Some 1%Q; mt_tp := Some (12 # 10)%Q;
                    mt_comment := Some "Copy:101"%string; mt_magic := 777; mt_time := 0;
                    mt_state := 1 |}];
     tick := Some quote;
     info := Some {| sym_visible := true; sym_filling_mode := 2 |};
     selectable := true;
     answer := Some {| res_retcode := 10009; res_order := 900 |} |}.

(** The same terminal outside trading hours: no tick. *)
Definition closed : Script :=
  {| positions := positions open; pending := pending open; tick := None;
     info := info open; selectable := true; answer := answer open |}.

(** A buy at market and a buy limit, both asking for the price 1. *)
Definition buy (order_type : Z) : OrderRequest :=
  {| req_symbol := "EURUSD"; req_order_type := order_type; req_volume := 1 # 2;
     req_price := Some 1%Q; req_sl := Some 0%Q; req_tp := Some 0%Q;
     req_comment := "Copy:100"; req_magic := 777 |}.

End Bench.

(** * Properties *)

(** ** Dictionaries *)

Section dict_facts.
Context {V : Type}.
Implicit Types (d : list (Z * V)) (k : Z) (v : V).

Lemma get_set_eq d k v : PyDict.get k (PyDict.set k v d) = Some v.
Proof.
  induction d as [|[k' v'] d IH]; simpl.
  - now rewrite Z.eqb_refl.
  - destruct (k =? k') eqn:E; simpl; rewrite ?Z.eqb_refl, ?E; auto.
Qed.

Lemma get_set_ne d k k' v : k' ≠ k → PyDict.get k' (PyDict.set k v d) = PyDict.get k' d.
Proof.
  intros Hne. induction d as [|[k0 v0] d IH]; simpl.
  - destruct (k' =? k) eqn:E; [apply Z.eqb_eq in E; contradiction | reflexivity].
  - destruct (k =? k0) eqn:E; simpl.
    + apply Z.eqb_eq in E; subst k0.
      destruct (k' =? k) eqn:E'; [apply Z.eqb_eq in E'; contradiction | reflexivity].
    + now rewrite IH.
Qed.

Lemma get_del_eq d k : PyDict.get k (PyDict.del k d) = None.
Proof.
  induction d as [|[k' v'] d IH]; simpl; auto.
  destruct (k =? k') eqn:E; simpl; rewrite ?E; auto.
Qed.

Lemma get_del_ne d k k' : k' ≠ k → PyDict.get k' (PyDict.del k d) = PyDict.get k' d.
Proof.
  intros Hne. induction d as [|[k0 v0] d IH]; simpl; auto.
  destruct (k =? k0) eqn:E; simpl.
  - apply Z.eqb_eq in E; subst k0.
    destruct (k' =? k) eqn:E'; [apply Z.eqb_eq in E'; contradiction | exact IH].
  - now rewrite IH.
Qed.

Lemma get_Some_In d k v : PyDict.get k d = Some v → In (k, v) d.
Proof.
  induction d as [|[k' v'] d IH]; simpl; [discriminate|].
  destruct (k =? k') eqn:E.
  - apply Z.eqb_eq in E; subst. intros [= ->]. now left.
  - intros H. right. auto.
Qed.

End dict_facts.

(** ** A weakest-precondition calculus for the engine's monad *)

Section Wp.
Context {W : Type}.

Lemma wp_ret {A} (a : A) P (Q : A -> Sys W -> Prop) s : Q a s → wp (ret a) P Q s.
Proof. intros H. exists []. simpl. rewrite app_nil_r. auto. Qed.

Lemma wp_bind {A B} (m : M W A) (k : A -> M W B) P Q s :
  wp m P (fun a s' => wp (k a) P Q s') s → wp (bind m k) P Q s.
Proof.
  intros (l1 & E1 & F1 & l2 & E2 & F2 & H). exists (l1 ++ l2). unfold bind.
  rewrite E2, E1, app_assoc. split; [reflexivity|]. split; [|exact H].
  apply Forall_app; auto.
Qed.

Lemma wp_weaken {A} (m : M W A) (P P' : Action -> Prop) (Q Q' : A -> Sys W -> Prop) s :
  wp m P Q s → (∀ a, P a → P' a) → (∀ a s', Q a s' → Q' a s') → wp m P' Q' s.
Proof.
  intros (l & E & F & H) HP HQ. exists l. repeat split; auto.
  eapply Forall_impl; eauto.
Qed.

Lemma wp_get_state P (Q : Sys W -> Sys W -> Prop) s : Q s s → wp get_state P Q s.
Proof. intros H. exists []. simpl. rewrite app_nil_r. auto. Qed.

Lemma wp_call {A} (f : W -> A * W) P (Q : A -> Sys W -> Prop) s :
  Q (f (world s)).1 (with_world (f (world s)).2 s) → wp (call f) P Q s.
Proof. intros H. exists []. simpl. rewrite app_nil_r. auto. Qed.

Lemma wp_emit (a : Action) (P : Action -> Prop) (Q : unit -> Sys W -> Prop) s :
  P a → Q tt (with_log (log s ++ [a]) s) → wp (emit a) P Q s.
Proof. intros Ha H. exists [a]. simpl. auto. Qed.

Lemma wp_set_follower_orders v P (Q : unit -> Sys W -> Prop) s :
  Q tt (with_follower_orders v s) → wp (set_follower_orders v) P Q s.
Proof. intros H. exists []. simpl. rewrite app_nil_r. auto. Qed.

Lemma wp_set_last_master_state v P (Q : unit -> Sys W -> Prop) s :
  Q tt (with_last_master_state v s) → wp (set_last_master_state v) P Q s.
Proof. intros H. exists []. simpl. rewrite app_nil_r. auto. Qed.

Lemma wp_set_order_sync_status v P (Q : unit -> Sys W -> Prop) s :
  Q tt (with_order_sync_status v s) → wp (set_order_sync_status v) P Q s.
Proof. intros H. exists []. simpl. rewrite app_nil_r. auto. Qed.

Lemma wp_set_manually_closed v P (Q : unit -> Sys W -> Prop) s :
  Q tt (with_manually_closed v s) → wp (set_manually_closed v) P Q s.
Proof. intros H. exists []. simpl. rewrite app_nil_r. auto. Qed.

Lemma wp_set_cycle_count v P (Q : unit -> Sys W -> Prop) s :
  Q tt (with_cycle_count v s) → wp (set_cycle_count v) P Q s.
Proof. intros H. exists []. simpl. rewrite app_nil_r. auto. Qed.

(** A loop keeps an invariant that each round keeps. *)
Lemma wp_for_each {A} (l : list A) (body : A -> M W unit) P (I : Sys W -> Prop) s :
  (∀ x s', In x l → I s' → wp (body x) P (fun _ => I) s') →
  I s → wp (for_each l body) P (fun _ => I) s.
Proof.
  revert s. induction l as [|x l IH]; intros s Hbody Hs; simpl.
  - now apply wp_ret.
  - apply wp_bind. eapply wp_weaken; [apply Hbody; simpl; auto | auto |].
    intros ? s' Hs'. apply IH; auto. intros y s'' Hy. apply Hbody. now right.
Qed.

End Wp.

Ltac wp_prim :=
  lazymatch goal with
  | |- wp (bind _ _) _ _ _ => apply wp_bind
  | |- wp (ret _) _ _ _ => apply wp_ret
  | |- wp get_state _ _ _ => apply wp_get_state
  | |- wp (call _) _ _ _ => apply wp_call
  | |- wp (set_follower_orders _) _ _ _ => apply wp_set_follower_orders
  | |- wp (set_last_master_state _) _ _ _ => apply wp_set_last_master_state
  | |- wp (set_order_sync_status _) _ _ _ => apply wp_set_order_sync_status
  | |- wp (set_manually_closed _) _ _ _ => apply wp_set_manually_closed
  | |- wp (set_cycle_count _) _ _ _ => apply wp_set_cycle_count
  | |- wp (if ?b then _ else _) _ _ _ => destruct b eqn:?
  | |- wp (match ?x with _ => _ end) _ _ _ => destruct x eqn:?
  end; cbv beta.

Ltac wp_steps := repeat wp_prim.

(** ** Sticky manual close (C1) *)

Section StickyManualClose.
Context {W : Type} (T : Terminal W).
Variables (t l : Z).

Local Abbreviation recorded := (@recorded_pair W t l).
Local Abbreviation no_recreate := (no_recreate_pair t l).

Lemma calculate_lot_size_recorded v cfg sym s :
  recorded s → wp (calculate_lot_size T v cfg sym) no_recreate (fun _ => recorded) s.
Proof.
  intros H. unfold calculate_lot_size, policy_lot. wp_steps; exact H.
Qed.

Lemma copy_new_order_recorded master_order cfg s :
  ¬ (login cfg = l ∧ ticket master_order = t) →
  recorded s → wp (copy_new_order T master_order cfg) no_recreate (fun _ => recorded) s.
Proof.
  intros Hne H. unfold copy_new_order. wp_prim. wp_prim. wp_prim; [|wp_steps; exact H].
  wp_prim. eapply wp_weaken; [apply calculate_lot_size_recorded; exact H | auto |].
  cbv beta. intros v s' H'. wp_prim. apply wp_emit.
  { intros req [= E1 E2 _]. apply Hne. auto. }
  wp_steps; exact H'.
Qed.

Lemma copy_unless_manually_closed_recorded master_order cfg s :
  recorded s →
  wp (copy_unless_manually_closed T master_order cfg) no_recreate (fun _ => recorded) s.
Proof.
  intros H. unfold copy_unless_manually_closed. wp_prim. wp_prim. wp_prim; [wp_steps; exact H|].
  apply copy_new_order_recorded; [|exact H].
  intros [E1 E2].
  match goal with Hguard : bool_decide _ = false |- _ =>
    apply bool_decide_eq_false in Hguard; apply Hguard end.
  rewrite E1, E2. exact H.
Qed.

Lemma check_order_modifications_recorded master_order follower_order cfg s :
  recorded s →
  wp (check_order_modifications T master_order follower_order cfg) no_recreate
     (fun _ => recorded) s.
Proof.
  intros H. unfold check_order_modifications. cbv zeta. wp_prim; [|wp_steps; exact H].
  wp_prim. apply wp_emit; [intros req; discriminate|]. wp_steps; exact H.
Qed.

Lemma mark_manually_closed_recorded master_ticket cfg followers s :
  recorded s →
  wp (mark_manually_closed master_ticket cfg followers) no_recreate (fun _ => recorded) s.
Proof.
  intros H. unfold mark_manually_closed.
  assert (H' : l ∈ default ∅
            (<[master_ticket := default ∅ (manually_closed s !! master_ticket) ∪ {[login cfg]}]>
               (manually_closed s) !! t)).
  { destruct (decide (master_ticket = t)) as [->|Hne].
    - rewrite lookup_insert_eq. simpl. apply elem_of_union_l. exact H.
    - rewrite lookup_insert_ne by exact Hne. exact H. }
  wp_steps; exact H'.
Qed.

Lemma process_master_order_recorded master_order cfg live s :
  recorded s →
  wp (process_master_order T master_order cfg live) no_recreate (fun _ => recorded) s.
Proof.
  intros H. unfold process_master_order. cbv zeta. wp_prim. wp_prim.
  wp_prim; [|now apply copy_unless_manually_closed_recorded].
  wp_prim; [|now apply copy_unless_manually_closed_recorded].
  wp_prim; [|now apply mark_manually_closed_recorded].
  wp_prim. wp_prim.
  - eapply wp_weaken; [now apply check_order_modifications_recorded | auto |].
    cbv beta. intros ? s' H'. unfold mark_synced. wp_steps; exact H'.
  - wp_prim. unfold mark_synced. wp_steps; exact H.
Qed.

Lemma close_orphan_recorded cfg entry s :
  recorded s → wp (close_orphan T cfg entry) no_recreate (fun _ => recorded) s.
Proof.
  intros H. destruct entry as [[ticket order] master_ticket].
  unfold close_orphan, close_or_cancel, issue_close, issue_cancel, untrack.
  repeat first [ wp_prim | apply wp_emit; [intros req; discriminate|] ]; exact H.
Qed.

Lemma sync_orders_to_follower_recorded cfg master_orders s :
  recorded s →
  wp (sync_orders_to_follower T cfg master_orders) no_recreate (fun _ => recorded) s.
Proof.
  intros H. unfold sync_orders_to_follower. wp_prim. wp_prim. wp_prim; [wp_steps; exact H|].
  wp_prim. unfold fetch_live. do 6 wp_prim.
  eapply wp_weaken with (P := no_recreate) (Q := fun _ => recorded); [| auto |].
  - apply wp_for_each; [|exact H].
    intros x s' _ H'. now apply process_master_order_recorded.
  - cbv beta. intros ? s' H'. unfold cleanup_orphaned_orders. wp_prim. wp_prim.
    apply wp_for_each; [|exact H']. intros x s'' _ H''. now apply close_orphan_recorded.
Qed.

Lemma run_copy_cycle_recorded config s :
  recorded s → wp (run_copy_cycle T config) no_recreate (fun _ => recorded) s.
Proof.
  intros H. unfold run_copy_cycle. wp_prim. wp_prim. wp_prim. wp_prim. wp_prim.
  eapply wp_weaken with (P := no_recreate) (Q := fun _ => recorded); [| auto |].
  { unfold get_master_orders. wp_steps; exact H. }
  cbv beta. intros master_orders s' H'. unfold reconcile. cbv zeta. wp_prim. wp_prim.
  wp_prim; [wp_steps; exact H'|].
  wp_prim. eapply wp_weaken with (P := no_recreate) (Q := fun _ => recorded); [| auto |].
  { unfold sync_followers. destruct master_orders.
    - apply wp_for_each; [|exact H']. intros cfg s'' _ H''.
      wp_prim; [now apply sync_orders_to_follower_recorded | wp_steps; exact H''].
    - apply wp_for_each; [|exact H']. intros cfg s'' _ H''.
      wp_prim; [wp_steps; exact H'' | now apply sync_orders_to_follower_recorded]. }
  cbv beta. intros ? s'' H''. wp_steps; exact H''.
Qed.

(** C1. Once the pair (master ticket [t], follower [l]) is in the
    manual-close record, no number of further cycles issues a create action
    for that pair, and the pair stays in the record. *)
Theorem sticky_manual_close (config : Config) (n : nat) (s : Sys W) :
  l ∈ default ∅ (manually_closed s !! t) →
  ∃ issued,
    log (run_cycles T config n s).2 = log s ++ issued ∧
    Forall (fun a => ∀ req, a ≠ ACreate l t req) issued ∧
    l ∈ default ∅ (manually_closed (run_cycles T config n s).2 !! t).
Proof.
  intros H. change (wp (run_cycles T config n) no_recreate (fun _ => recorded) s).
  revert s H. induction n as [|n IH]; intros s H; simpl.
  - now apply wp_ret.
  - apply wp_bind. eapply wp_weaken; [now apply run_copy_cycle_recorded | auto |].
    cbv beta. intros ? s' H'. now apply IH.
Qed.

End StickyManualClose.

Lemma sticky_manual_close_witness :
  1 ∈ default ∅ (manually_closed Steady.closed_by_hand !! 100) ∧
  ∃ issued,
    log (run_cycles (scripted Steady.script) Steady.config 3 Steady.closed_by_hand).2 =
      log Steady.closed_by_hand ++ issued ∧
    Forall (fun a => ∀ req, a ≠ ACreate 1 100 req) issued ∧
    1 ∈ default ∅ (manually_closed
                     (run_cycles (scripted Steady.script) Steady.config 3
                        Steady.closed_by_hand).2 !! 100).
Proof.
  assert (H : 1 ∈ default ∅ (manually_closed Steady.closed_by_hand !! 100))
    by (vm_compute; reflexivity).
  split; [exact H|].
  exact (sticky_manual_close (scripted Steady.script) 100 1 Steady.config 3
           Steady.closed_by_hand H).
Defined.

(** ** Rounding *)

Section Rounding.


Lemma py_round_cases x :
  (py_round x = Qfloor x ∧ (x - inject_Z (Qfloor x) <= 1 # 2)%Q) ∨
  (py_round x = Qfloor x + 1 ∧ (1 # 2 <= x - inject_Z (Qfloor x))%Q).
Proof.
  unfold py_round. cbv zeta.
  destruct (x - inject_Z (Qfloor x) ?= 1 # 2)%Q eqn:E.
  - apply Qeq_alt in E. destruct (Z.even (Qfloor x)); [left | right]; split; auto; lra.
  - apply Qlt_alt in E. left. split; auto. lra.
  - apply Qgt_alt in E. right. split; auto. lra.
Qed.


(** Rounding does not cross an integer. *)
Lemma py_round_ge (k : Z) x : (inject_Z k <= x)%Q → k ≤ py_round x.
Proof.
  intros H. apply Qfloor_resp_le in H. rewrite Qfloor_Z in H.
  destruct (py_round_cases x) as [[-> _]|[-> _]]; lia.
Qed.

Lemma py_round_le (k : Z) x : (x <= inject_Z k)%Q → py_round x ≤ k.
Proof.
  intros H. pose proof (Qfloor_resp_le _ _ H) as Hf. rewrite Qfloor_Z in Hf.
  destruct (py_round_cases x) as [[-> _]|[-> Hr]]; [exact Hf|].
  destruct (Z.eq_dec (Qfloor x) k) as [E|Hne]; [|lia].
  exfalso. rewrite E in Hr. lra.
Qed.




End Rounding.

(** ** Rounding to binary64 *)

Lemma pow2_pos k : (0 < pow2 k)%Q.
Proof. apply Qpower_0_lt. reflexivity. Qed.

Lemma pow2_le a b : a <= b → (pow2 a <= pow2 b)%Q.
Proof. intros H. apply Qpower_le_compat_l; [exact H | discriminate]. Qed.

Lemma pow2_plus a b : (pow2 (a + b) == pow2 a * pow2 b)%Q.
Proof. apply Qpower_plus. discriminate. Qed.

Lemma pow2_Z n : 0 <= n → (inject_Z (2 ^ n) == pow2 n)%Q.
Proof. intros H. now apply Zpower_Qpower. Qed.

Lemma pow2_minus a b : (pow2 (a - b) == pow2 a / pow2 b)%Q.
Proof. apply Qpower_minus. discriminate. Qed.

Lemma fraction_le (A N : Z) (B D : positive) :
  0 <= A <= N → Z.pos D <= Z.pos B → (A # B <= N # D)%Q.
Proof. intros H1 H2. unfold Qle. cbn [Qnum Qden]. nia. Qed.

(** The binade of a positive rational is not above it. *)
Lemma binade_le y : (0 < y)%Q → (pow2 (binade y) <= y)%Q.
Proof.
  intros Hy. unfold binade. cbv zeta.
  destruct (Qle_bool _ y) eqn:E; [now apply Qle_bool_iff in E|]. clear E.
  destruct y as [n d]. cbn [Qnum Qden].
  assert (Hn : 0 < n) by (unfold Qlt in Hy; cbn in Hy; lia).
  pose proof (Z.log2_spec n Hn) as [Ha _].
  pose proof (Z.log2_spec (Z.pos d) (Pos2Z.is_pos d)) as [_ Hb].
  pose proof (Z.log2_nonneg n) as Ha0. pose proof (Z.log2_nonneg (Z.pos d)) as Hb0.
  set (a := Z.log2 n) in *. set (b := Z.log2 (Z.pos d)) in *.
  replace (a - b - 1) with (a - Z.succ b) by lia.
  assert (H2a : 0 < 2 ^ a) by (apply Z.pow_pos_nonneg; lia).
  assert (H2b : 0 < 2 ^ Z.succ b) by (apply Z.pow_pos_nonneg; lia).
  rewrite pow2_minus, <- (pow2_Z a), <- (pow2_Z (Z.succ b)) by lia.
  rewrite <- (Z2Pos.id (2 ^ Z.succ b)) at 1 by exact H2b.
  rewrite <- Qmake_Qdiv.
  apply fraction_le; [lia|]. rewrite Z2Pos.id by exact H2b. lia.
Qed.

Lemma fraction_lt (A N : Z) (B D : positive) :
  0 <= A < N → Z.pos D <= Z.pos B → (A # B < N # D)%Q.
Proof. intros H1 H2. unfold Qlt. cbn [Qnum Qden]. nia. Qed.

(** ... and the next power of two is above it. *)
Lemma binade_lt y : (0 < y)%Q → (y < pow2 (binade y + 1))%Q.
Proof.
  intros Hy. unfold binade. cbv zeta.
  destruct (Qle_bool _ y) eqn:E.
  - clear E. destruct y as [n d]. cbn [Qnum Qden].
    assert (Hn : 0 < n) by (unfold Qlt in Hy; cbn in Hy; lia).
    pose proof (Z.log2_spec n Hn) as [_ Ha].
    pose proof (Z.log2_spec (Z.pos d) (Pos2Z.is_pos d)) as [Hb _].
    pose proof (Z.log2_nonneg n) as Ha0. pose proof (Z.log2_nonneg (Z.pos d)) as Hb0.
    set (a := Z.log2 n) in *. set (b := Z.log2 (Z.pos d)) in *.
    replace (a - b + 1) with (Z.succ a - b) by lia.
    assert (H2a : 0 < 2 ^ Z.succ a) by (apply Z.pow_pos_nonneg; lia).
    assert (H2b : 0 < 2 ^ b) by (apply Z.pow_pos_nonneg; lia).
    rewrite pow2_minus, <- (pow2_Z (Z.succ a)), <- (pow2_Z b) by lia.
    rewrite <- (Z2Pos.id (2 ^ b)) at 1 by exact H2b.
    rewrite <- Qmake_Qdiv.
    apply fraction_lt; [lia|]. rewrite Z2Pos.id by exact H2b. lia.
  - replace (Z.log2 (Qnum y) - Z.log2 (Z.pos (Qden y)) - 1 + 1)
      with (Z.log2 (Qnum y) - Z.log2 (Z.pos (Qden y))) by lia.
    apply Qnot_le_lt. intros Hle. apply Qle_bool_iff in Hle. congruence.
Qed.

Lemma py_round_0 x : (x == 0)%Q → py_round x = 0.
Proof.
  intros H. apply Z.le_antisymm.
  - apply py_round_le. rewrite H. apply Qle_refl.
  - apply py_round_ge. rewrite H. apply Qle_refl.
Qed.

(** The tolerance is a binary64 number: a multiple of the spacing of its
    binade, and of every finer one. *)
Lemma tolerance_multiple e :
  e <= -17 →
  (tolerance == inject_Z (5902958103587057 * 2 ^ (-17 - e)) * pow2 (e - 52))%Q.
Proof.
  intros He. rewrite inject_Z_mult, pow2_Z by lia.
  rewrite <- Qmult_assoc, <- pow2_plus.
  replace (-17 - e + (e - 52)) with (-69) by lia. reflexivity.
Qed.

(** Rounding to binary64 does not cross the tolerance. *)
Lemma round64_within x :
  (Qabs x <= tolerance)%Q → (Qabs (round64 x) <= tolerance)%Q.
Proof.
  intros H. unfold round64. cbv zeta.
  set (e := Z.max (binade (Qabs x)) (-1022)).
  pose proof (pow2_pos (e - 52)) as Hq.
  destruct (Z_le_gt_dec e (-17)) as [He|He].
  - pose proof (tolerance_multiple e He) as HT.
    set (K := 5902958103587057 * 2 ^ (-17 - e)) in *.
    apply Qabs_Qle_condition in H as [Hlo Hhi].
    assert (Hr : - K <= py_round (x / pow2 (e - 52)) <= K).
    { split.
      - apply py_round_ge. apply Qle_shift_div_l; [exact Hq|].
        rewrite inject_Z_opp. rewrite HT in Hlo. lra.
      - apply py_round_le. apply Qle_shift_div_r; [exact Hq|]. now rewrite <- HT. }
    destruct Hr as [Hr1 Hr2].
    rewrite Zle_Qle, inject_Z_opp in Hr1. rewrite Zle_Qle in Hr2.
    apply Qabs_Qle_condition. rewrite HT.
    set (r := inject_Z (py_round (x / pow2 (e - 52)))) in *.
    set (k := inject_Z K) in *. split.
    + setoid_replace (- (k * pow2 (e - 52)))%Q with ((- k) * pow2 (e - 52))%Q
        using relation Qeq by ring.
      apply Qmult_le_compat_r; [exact Hr1 | lra].
    + apply Qmult_le_compat_r; [exact Hr2 | lra].
  - assert (Hx : (x == 0)%Q).
    { destruct (Qlt_le_dec 0 (Qabs x)) as [Hpos|Hzero].
      - exfalso. pose proof (binade_le _ Hpos) as Hb.
        assert (Hbin : -16 <= binade (Qabs x)) by lia.
        apply pow2_le in Hbin.
        assert (Hgap : (tolerance < pow2 (-16))%Q) by reflexivity. lra.
      - apply Qabs_Qle_condition in Hzero as [Hlo Hhi]. lra. }
    rewrite py_round_0 by (rewrite Hx; reflexivity).
    setoid_replace (inject_Z 0 * pow2 (e - 52))%Q with 0%Q using relation Qeq by ring.
    discriminate.
Qed.

(** ** Idempotence (C2) *)

Lemma differs_false a b : (Qabs (a - b) <= tolerance)%Q → differs a b = false.
Proof.
  intros H. unfold differs, Qlt_bool. apply negb_false_iff, Qle_bool_iff.
  now apply round64_within.
Qed.

Lemma differs_true a b : (tolerance < Qabs (round64 (a - b)))%Q → differs a b = true.
Proof.
  intros H. unfold differs, Qlt_bool. apply negb_true_iff.
  destruct (Qle_bool (Qabs (round64 (a - b))) tolerance) eqn:E; [|reflexivity].
  apply Qle_bool_iff in E. exfalso. eapply Qlt_not_le; eauto.
Qed.

Lemma differs_iff a b : differs a b = true ↔ (tolerance < Qabs (round64 (a - b)))%Q.
Proof.
  split; [|apply differs_true]. unfold differs, Qlt_bool. intros H.
  apply negb_true_iff in H. apply Qnot_le_lt. intros Hle.
  apply Qle_bool_iff in Hle. congruence.
Qed.

Lemma within_tolerance_unchanged last o a :
  last !! ticket o = Some a → within_tolerance o a → has_master_order_changed last o = false.
Proof.
  intros Hl ((p & q & Hp & Hq & Hpq) & Hsl & Htp & Hv).
  unfold has_master_order_changed, has_master_order_changed_body.
  rewrite Hl, Hp, Hq. cbv zeta.
  rewrite !differs_false by assumption. reflexivity.
Qed.

Lemma master_state_of_ticket_gen (l : list OrderInfo) (m : gmap Z OrderInfo) t o :
  (∀ t' o', m !! t' = Some o' → ticket o' = t') →
  fold_left (fun m o => <[ticket o := o]> m) l m !! t = Some o → ticket o = t.
Proof.
  revert m. induction l as [|x l IH]; intros m Hm; simpl.
  - apply Hm.
  - apply IH. intros t' o'. destruct (decide (ticket x = t')) as [<-|Hne].
    + rewrite lookup_insert_eq. now intros [= <-].
    + rewrite lookup_insert_ne by exact Hne. apply Hm.
Qed.

Lemma master_state_of_ticket l t o : master_state_of l !! t = Some o → ticket o = t.
Proof.
  apply master_state_of_ticket_gen. intros t' o'. now rewrite lookup_empty.
Qed.

Lemma filter_none {A} (f : A -> bool) (l : list A) :
  (∀ x, In x l → f x = false) → List.filter f l = [].
Proof.
  induction l as [|x l IH]; intros H; simpl; [reflexivity|].
  rewrite (H x) by (now left). apply IH. intros y Hy. apply H. now right.
Qed.

Lemma mapM_total {A B} (f : A -> option B) (g : A -> B) (l : list A) :
  (∀ x, In x l → f x = Some (g x)) → mapM f l = Some (map g l).
Proof.
  induction l as [|x l IH]; intros H; [reflexivity|].
  cbn. rewrite (H x) by (now left). cbn.
  rewrite IH by (intros y Hy; apply H; now right). reflexivity.
Qed.

Lemma filter_id_map {A} (g : A -> bool) (l : list A) :
  length (List.filter id (map g l)) = length (List.filter g l).
Proof.
  induction l as [|x l IH]; [reflexivity|]. cbn [map List.filter].
  change (id (g x)) with (g x). destruct (g x); cbn [length]; now rewrite IH.
Qed.

(** The detector's answer when no exception escapes, which is always. *)
Lemma detect_has_changes last current master_orders :
  has_changes (detect_master_changes last current master_orders) =
  negb (bool_decide (new_orders last current = ∅)) ||
  negb (bool_decide (removed_orders last current = ∅)) ||
  (0 <? modified_count last current)%nat.
Proof.
  unfold detect_master_changes, detect_master_changes_with, detect_master_changes_body.
  rewrite mapM_total with
    (g := fun t => match current !! t with
                   | Some o => has_master_order_changed last o
                   | None => false
                   end).
  - cbn [mbind option_bind default has_changes]. rewrite filter_id_map. reflexivity.
  - intros t Ht. apply list_elem_of_In, elem_of_elements, elem_of_intersection in Ht.
    destruct Ht as [Ht _]. apply elem_of_dom in Ht as [o ->]. reflexivity.
Qed.

Lemma unchanged_no_changes last l :
  snapshot_unchanged last (master_state_of l) →
  has_changes (detect_master_changes last (master_state_of l) l) = false.
Proof.
  intros [Hdom Hall]. rewrite detect_has_changes.
  unfold new_orders, removed_orders, modified_count. rewrite Hdom.
  rewrite difference_diag_L. rewrite bool_decide_eq_true_2 by reflexivity.
  cbn [negb orb]. rewrite filter_none; [reflexivity|].
  intros t Ht. apply list_elem_of_In, elem_of_elements, elem_of_intersection in Ht.
  destruct Ht as [_ Ht]. apply elem_of_dom in Ht as [a Ha].
  destruct (master_state_of l !! t) as [o|] eqn:Ho; [|reflexivity].
  pose proof (master_state_of_ticket _ _ _ Ho) as Et.
  apply within_tolerance_unchanged with (a := a); [now rewrite Et | eauto].
Qed.

Section Idempotence.
Context {W : Type} (T : Terminal W).

(** The master snapshot read by a cycle depends on the terminal only. *)
Lemma get_master_orders_world config (s s' : Sys W) :
  world s = world s' → (get_master_orders T config s).1 = (get_master_orders T config s').1.
Proof.
  intros E. unfold get_master_orders, bind, call, ret. cbn [fst snd world with_world].
  rewrite E.
  repeat first [ progress cbn beta iota delta [fst snd world with_world] | case_match ];
    reflexivity.
Qed.

Lemma get_master_orders_silent config (s : Sys W) :
  log (get_master_orders T config s).2 = log s.
Proof.
  unfold get_master_orders, bind, call, ret.
  repeat first [ progress cbn beta iota delta [fst snd log with_world] | case_match ];
    reflexivity.
Qed.

Lemma get_master_orders_last config (s : Sys W) :
  last_master_state (get_master_orders T config s).2 = last_master_state s.
Proof.
  unfold get_master_orders, bind, call, ret.
  repeat first [ progress cbn beta iota delta [fst snd last_master_state with_world]
               | case_match ]; reflexivity.
Qed.

Lemma run_copy_cycle_last_master_state config (s : Sys W) :
  last_master_state (run_copy_cycle T config s).2 =
  master_state_of (get_master_orders T config s).1.
Proof.
  rewrite (get_master_orders_world config s (with_cycle_count (cycle_count s + 1) s))
    by reflexivity.
  unfold run_copy_cycle, reconcile, bind, get_state, set_cycle_count, set_last_master_state.
  cbn [fst snd]. case_match; reflexivity.
Qed.

(** C2. When the master snapshot read by a cycle is unchanged from the
    one read by the cycle before it (same tickets, and for every ticket the
    price, stop-loss, take-profit and volume moved by at most the
    tolerance), the later cycle issues no action at all. *)
Theorem idempotent_second_cycle (config : Config) (s : Sys W) :
  let first := master_state_of (get_master_orders T config s).1 in
  let s1 := (run_copy_cycle T config s).2 in
  let second := master_state_of (get_master_orders T config s1).1 in
  snapshot_unchanged first second →
  log (run_copy_cycle T config s1).2 = log s1.
Proof.
  intros first s1 second H.
  assert (Hlast : last_master_state s1 = first) by apply run_copy_cycle_last_master_state.
  unfold run_copy_cycle, bind, get_state, set_cycle_count.
  cbn [fst snd].
  set (s2 := with_cycle_count (cycle_count s1 + 1) s1).
  assert (Hfetch : (get_master_orders T config s2).1 = (get_master_orders T config s1).1)
    by (apply get_master_orders_world; reflexivity).
  assert (Hlast2 : last_master_state (get_master_orders T config s2).2 = first)
    by (rewrite get_master_orders_last; exact Hlast).
  unfold reconcile, bind, get_state, set_last_master_state. cbn [fst snd].
  rewrite Hlast2, Hfetch. fold second.
  unfold second at 1 2. rewrite unchanged_no_changes by exact H. cbn [negb].
  cbn [snd log with_last_master_state]. now rewrite get_master_orders_silent.
Qed.

End Idempotence.

Lemma within_tolerance_refl o p : price o = Some p → within_tolerance o o.
Proof.
  intros Hp. unfold within_tolerance, tolerance.
  split; [exists p, p; repeat split; auto|repeat split];
    apply Qabs_case; intros; lra.
Qed.

Lemma idempotent_second_cycle_witness :
  let first :=
    master_state_of (get_master_orders (scripted Steady.script) Steady.config
                       (initial_state (desk 9))).1 in
  let s1 := (run_copy_cycle (scripted Steady.script) Steady.config (initial_state (desk 9))).2 in
  let second :=
    master_state_of (get_master_orders (scripted Steady.script) Steady.config s1).1 in
  snapshot_unchanged first second ∧
  log (run_copy_cycle (scripted Steady.script) Steady.config s1).2 = log s1.
Proof.
  cbv zeta.
  assert (H : snapshot_unchanged
    (master_state_of (get_master_orders (scripted Steady.script) Steady.config
                        (initial_state (desk 9))).1)
    (master_state_of (get_master_orders (scripted Steady.script) Steady.config
       (run_copy_cycle (scripted Steady.script) Steady.config (initial_state (desk 9))).2).1)).
  { change (snapshot_unchanged {[100 := Steady.master_order]} {[100 := Steady.master_order]}).
    split; [reflexivity|]. intros t a b Ha Hb.
    apply lookup_singleton_Some in Ha as [_ <-]. apply lookup_singleton_Some in Hb as [_ <-].
    now apply within_tolerance_refl with (p := (11 # 10)%Q). }
  split; [exact H|].
  exact (idempotent_second_cycle (scripted Steady.script) Steady.config (initial_state (desk 9)) H).
Defined.

(** ** Orphan cleanup and the tracking tables (C3, C4) *)

Section Cleanup.
Context {W : Type} (T : Terminal W).

Lemma untrack_links cfg master_ticket (s : Sys W) :
  let s' := (untrack cfg master_ticket s).2 in
  link s' master_ticket (login cfg) = None ∧
  (∀ m f, (m, f) ≠ (master_ticket, login cfg) → link s' m f = link s m f) ∧
  manually_closed s' = manually_closed s.
Proof.
  unfold untrack, bind, get_state, link. cbn [fst snd].
  destruct (PyDict.get master_ticket (follower_orders s)) as [followers|] eqn:E.
  - destruct (bool_decide (delete (login cfg) followers = ∅)) eqn:D;
      cbn [set_follower_orders fst snd follower_orders manually_closed with_follower_orders].
    + apply bool_decide_eq_true in D. rewrite get_del_eq. repeat split.
      intros m f Hne. destruct (decide (m = master_ticket)) as [->|Hm].
      * rewrite get_del_eq, E. cbn [mbind option_bind].
        assert (f ≠ login cfg) by congruence.
        rewrite <- (lookup_delete_ne followers (login cfg) f) by auto.
        now rewrite D, lookup_empty.
      * now rewrite get_del_ne.
    + rewrite get_set_eq. cbn [mbind option_bind]. rewrite lookup_delete_eq.
      repeat split. intros m f Hne. destruct (decide (m = master_ticket)) as [->|Hm].
      * rewrite get_set_eq, E. cbn [mbind option_bind].
        assert (f ≠ login cfg) by congruence. now rewrite lookup_delete_ne.
      * now rewrite get_set_ne.
  - cbn [ret fst snd]. rewrite E. repeat split.
Qed.

Lemma close_or_cancel_tables cfg ticket order (s : Sys W) :
  follower_orders (close_or_cancel T cfg ticket order s).2 = follower_orders s ∧
  manually_closed (close_or_cancel T cfg ticket order s).2 = manually_closed s.
Proof.
  unfold close_or_cancel, issue_close, issue_cancel, bind, call, emit.
  repeat first [ progress cbn beta iota delta
                   [fst snd follower_orders manually_closed with_world with_log]
               | case_match ]; auto.
Qed.

Lemma close_orphan_frame cfg entry (s : Sys W) :
  round_frame cfg s (close_orphan T cfg entry s).2.
Proof.
  destruct entry as [[ticket order] master_ticket].
  unfold close_orphan, bind. cbn [fst snd].
  destruct (close_or_cancel_tables cfg ticket order s) as [Hf Hm].
  destruct (close_or_cancel T cfg ticket order s).1.
  - destruct (untrack_links cfg master_ticket (close_or_cancel T cfg ticket order s).2)
      as (_ & H2 & H3).
    split; [now rewrite H3|]. intros m f Hne.
    rewrite H2 by congruence. unfold link. now rewrite Hf.
  - cbn [ret fst snd]. split; [exact Hm|]. intros m f _. unfold link. now rewrite Hf.
Qed.

Lemma closing_loop_frame cfg (entries : list (Z * MtOrder * Z)) (s : Sys W) :
  round_frame cfg s (for_each entries (close_orphan T cfg) s).2.
Proof.
  revert s. induction entries as [|e entries IH]; intros s.
  - split; [reflexivity | intros; reflexivity].
  - cbn [for_each]. unfold bind at 1.
    destruct (close_orphan_frame cfg e s) as [H1 H2].
    destruct (IH (close_orphan T cfg e s).2) as [H3 H4].
    split; [now rewrite H3|]. intros m f Hne. now rewrite H4, H2.
Qed.

(** C3, as the code has it. When the close or cancel of an orphan
    succeeds, that round of the cleanup removes the link of the master
    ticket for the follower being synchronised, and only that: the links of
    the other followers and of other master tickets stay, and so does the
    manual-close record.  The whole cleanup of a pass leaves the
    manual-close record and the links of the other followers as they
    were. *)
Theorem orphan_close_untracks_own_link (cfg : FollowerConfig) (ticket : Z)
    (order : MtOrder) (master_ticket : Z) (master_orders : list OrderInfo)
    (live : list (Z * MtOrder)) (s : Sys W) :
  (close_or_cancel T cfg ticket order s).1 = true →
  let s' := (close_orphan T cfg (ticket, order, master_ticket) s).2 in
  let cleaned := (cleanup_orphaned_orders T master_orders live cfg s).2 in
  link s' master_ticket (login cfg) = None ∧
  (∀ m f, (m, f) ≠ (master_ticket, login cfg) → link s' m f = link s m f) ∧
  manually_closed s' = manually_closed s ∧
  (∀ m f, f ≠ login cfg → link cleaned m f = link s m f) ∧
  manually_closed cleaned = manually_closed s.
Proof.
  intros Hok. cbv zeta.
  assert (Hround :
    link (close_orphan T cfg (ticket, order, master_ticket) s).2 master_ticket (login cfg)
      = None ∧
    (∀ m f, (m, f) ≠ (master_ticket, login cfg) →
            link (close_orphan T cfg (ticket, order, master_ticket) s).2 m f = link s m f) ∧
    manually_closed (close_orphan T cfg (ticket, order, master_ticket) s).2
      = manually_closed s).
  { unfold close_orphan, bind. cbn [fst snd]. rewrite Hok.
    destruct (close_or_cancel_tables cfg ticket order s) as [Hf Hm].
    destruct (untrack_links cfg master_ticket (close_or_cancel T cfg ticket order s).2)
      as (H1 & H2 & H3).
    split; [exact H1|]. split.
    - intros m f Hne. rewrite (H2 m f Hne). unfold link. now rewrite Hf.
    - now rewrite H3. }
  destruct Hround as (H1 & H2 & H3).
  split; [exact H1|]. split; [exact H2|]. split; [exact H3|].
  unfold cleanup_orphaned_orders, bind, get_state. cbn [fst snd].
  destruct (closing_loop_frame cfg (orders_to_close master_orders live cfg (follower_orders s)) s)
    as [H4 H5].
  split; [exact H5 | exact H4].
Qed.

End Cleanup.

Lemma orphan_close_untracks_own_link_witness :
  (close_or_cancel (scripted Orphan.position_script) Orphan.follower1 500
     (Orphan.copy_of_100 ORDER_TYPE_BUY) Orphan.at_follower1).1 = true ∧
  let s' := (close_orphan (scripted Orphan.position_script) Orphan.follower1
               (500, Orphan.copy_of_100 ORDER_TYPE_BUY, 100) Orphan.at_follower1).2 in
  let cleaned := (cleanup_orphaned_orders (scripted Orphan.position_script) []
                    [(500, Orphan.copy_of_100 ORDER_TYPE_BUY)] Orphan.follower1
                    Orphan.at_follower1).2 in
  link s' 100 (login Orphan.follower1) = None ∧
  (∀ m f, (m, f) ≠ (100, login Orphan.follower1) → link s' m f = link Orphan.at_follower1 m f) ∧
  manually_closed s' = manually_closed Orphan.at_follower1 ∧
  (∀ m f, f ≠ login Orphan.follower1 → link cleaned m f = link Orphan.at_follower1 m f) ∧
  manually_closed cleaned = manually_closed Orphan.at_follower1.
Proof.
  split; [reflexivity|].
  apply (orphan_close_untracks_own_link (scripted Orphan.position_script)). reflexivity.
Defined.

(** C3, counterexample. Master ticket 100 is gone and the close of
    follower 1's copy succeeds, yet after the cycle the link of follower 2,
    the status entries and the manual-close entry of ticket 100 are all
    still there. *)
Lemma orphan_cleanup_leaves_entries :
  let s' := (run_copy_cycle (scripted Orphan.position_script) Orphan.config Orphan.before).2 in
  In (AClose 1 500) (log s') ∧
  link s' 100 1 = None ∧
  link s' 100 2 = Some 600 ∧
  order_sync_status s' !! 100 = Some {[1 := "synced"%string; 2 := "synced"%string]} ∧
  manually_closed s' !! 100 = Some {[3]} ∧
  ¬ purged s' 100.
Proof.
  assert (E : link (run_copy_cycle (scripted Orphan.position_script) Orphan.config
                      Orphan.before).2 100 2 = Some 600) by (vm_compute; reflexivity).
  cbv zeta. split; [vm_compute; auto|]. split; [vm_compute; reflexivity|].
  split; [exact E|]. split; [vm_compute; reflexivity|]. split; [vm_compute; reflexivity|].
  intros (Hf & _). unfold link in E. rewrite Hf in E. discriminate.
Qed.

(** C4, the failing run. A pending copy whose comment names the vanished
    master ticket and which is also tracked in the link table is listed by
    both detection methods, and the pass cancels it twice: the second cancel
    is issued for a ticket that the first one already removed. *)
Theorem orphan_cancelled_twice :
  let s' := (sync_orders_to_follower (scripted Orphan.pending_script) Orphan.follower1 []
               Orphan.before).2 in
  orders_to_close [] [(500, Orphan.copy_of_100 2)] Orphan.follower1
    (follower_orders Orphan.before) =
    [(500, Orphan.copy_of_100 2, 100); (500, Orphan.copy_of_100 2, 100)] ∧
  log s' = [ACancel 1 500; ACancel 1 500] ∧
  gone (world s') = [500].
Proof. vm_compute. repeat split. Qed.

(** ** Lot sizing (C5) *)

Section Sizing.
Context {W : Type} (T : Terminal W).


End Sizing.



(** ** The tolerance of the modification check (C6) *)

Section Modifications.
Context {W : Type} (T : Terminal W).

Lemma differs_reflect a b : reflect (delta_exceeds a b) (differs a b).
Proof.
  destruct (differs a b) eqn:E; constructor.
  - now apply differs_iff.
  - intros H. apply differs_iff in H. congruence.
Qed.

(** What [_check_order_modifications] issues. *)
Lemma check_order_modifications_log (master_order : OrderInfo) (follower_order : MtOrder)
    (cfg : FollowerConfig) (s : Sys W) :
  let s' := (check_order_modifications T master_order follower_order cfg s).2 in
  (¬ sl_exceeds master_order follower_order ∧ ¬ tp_exceeds master_order follower_order ∧
   ¬ price_exceeds master_order follower_order → log s' = log s) ∧
  (sl_exceeds master_order follower_order ∨ tp_exceeds master_order follower_order ∨
   price_exceeds master_order follower_order →
   ∃ new_price new_sl new_tp,
     log s' = log s ++ [AModify (login cfg) (mt_ticket follower_order) new_price new_sl new_tp] ∧
     (sl_exceeds master_order follower_order → new_sl = Some (or_zero (sl master_order))) ∧
     (¬ sl_exceeds master_order follower_order → new_sl = None) ∧
     (tp_exceeds master_order follower_order → new_tp = Some (or_zero (tp master_order))) ∧
     (¬ tp_exceeds master_order follower_order → new_tp = None) ∧
     (price_exceeds master_order follower_order → new_price = price master_order) ∧
     (¬ price_exceeds master_order follower_order → new_price = None)).
Proof.
  cbv zeta. unfold check_order_modifications, sl_exceeds, tp_exceeds. cbv zeta.
  set (price_changed := match mt_price_open follower_order with
                        | Some price_open =>
                            differs (or_zero (price master_order)) (or_zero price_open)
                        | None => false
                        end).
  assert (Hprice : reflect (price_exceeds master_order follower_order) price_changed).
  { unfold price_changed, price_exceeds. destruct (mt_price_open follower_order) as [p|].
    - destruct (differs_reflect (or_zero (price master_order)) (or_zero p)); constructor.
      + eauto.
      + intros (p' & [= <-] & H). contradiction.
    - constructor. intros (p' & [=] & _). }
  destruct (differs_reflect (or_zero (sl master_order)) (or_zero (mt_sl follower_order)))
    as [Hsl|Hsl];
  destruct (differs_reflect (or_zero (tp master_order)) (or_zero (mt_tp follower_order)))
    as [Htp|Htp];
  destruct Hprice as [Hp|Hp];
  cbn [orb bind emit call ret fst snd log with_log with_world];
  (split; [intros (? & ? & ?); try contradiction; reflexivity|]);
  intros Hany;
  try (exfalso; destruct Hany as [?|[?|?]]; contradiction);
  do 3 eexists; (split; [reflexivity|]);
  repeat split; intros; try reflexivity; contradiction.
Qed.

(** For a linked pair with a changed master order, [_process_master_order]
    issues what [_check_order_modifications] issues. *)
Lemma process_linked_modified_log (master_order : OrderInfo) (cfg : FollowerConfig)
    (live : list (Z * MtOrder)) (follower_order : MtOrder) (s : Sys W) :
  linked_and_modified s live master_order cfg follower_order →
  log (process_master_order T master_order cfg live s).2 =
  log (check_order_modifications T master_order follower_order cfg s).2.
Proof.
  intros (followers & follower_ticket & Hrow & Hlink & Hlive & Hchanged).
  unfold process_master_order. cbv zeta. unfold bind at 1. unfold get_state.
  cbn [fst snd]. rewrite Hrow, Hlink, Hlive, Hchanged. reflexivity.
Qed.

(** C6, as the code has it. For a linked pair whose master order was
    marked modified, the fields compared are the stop-loss, the take-profit
    and, for a pending follower order, the price; a delta is [abs(a - b)] as
    the float subtraction gives it.  If no delta exceeds the tolerance (a
    delta equal to it included), no modify action is issued; if one does,
    exactly one modify action is issued, for the follower's ticket, and it
    carries exactly the fields whose delta exceeds the tolerance.  A
    follower order that is not pending and whose opening price is away from
    the master's price is outside the statement. *)
Theorem modify_iff_delta_exceeds (master_order : OrderInfo) (cfg : FollowerConfig)
    (live : list (Z * MtOrder)) (follower_order : MtOrder) (s : Sys W) :
  linked_and_modified s live master_order cfg follower_order →
  (price_exceeds master_order follower_order → is_pending follower_order) →
  let s' := (process_master_order T master_order cfg live s).2 in
  (¬ sl_exceeds master_order follower_order ∧ ¬ tp_exceeds master_order follower_order ∧
   ¬ pending_price_exceeds master_order follower_order → log s' = log s) ∧
  (sl_exceeds master_order follower_order ∨ tp_exceeds master_order follower_order ∨
   pending_price_exceeds master_order follower_order →
   ∃ new_price new_sl new_tp,
     log s' = log s ++ [AModify (login cfg) (mt_ticket follower_order) new_price new_sl new_tp] ∧
     (sl_exceeds master_order follower_order → new_sl = Some (or_zero (sl master_order))) ∧
     (¬ sl_exceeds master_order follower_order → new_sl = None) ∧
     (tp_exceeds master_order follower_order → new_tp = Some (or_zero (tp master_order))) ∧
     (¬ tp_exceeds master_order follower_order → new_tp = None) ∧
     (pending_price_exceeds master_order follower_order → new_price = price master_order) ∧
     (¬ pending_price_exceeds master_order follower_order → new_price = None)).
Proof.
  intros Hlinked Hscope. cbv zeta. rewrite (process_linked_modified_log _ _ _ _ _ Hlinked).
  assert (Hprice : pending_price_exceeds master_order follower_order ↔
                   price_exceeds master_order follower_order).
  { unfold pending_price_exceeds. split; [tauto | auto]. }
  destruct (check_order_modifications_log master_order follower_order cfg s) as [Hnone Hsome].
  cbv zeta in Hnone, Hsome. split.
  - intros (Hsl & Htp & Hp). apply Hnone. rewrite <- Hprice. auto.
  - intros Hany. destruct Hsome as (np & nsl & ntp & Hlog & H1 & H2 & H3 & H4 & H5 & H6).
    { rewrite <- Hprice. exact Hany. }
    exists np, nsl, ntp. rewrite Hprice. auto 10.
Qed.

End Modifications.

(** The master's stop-loss moves from 0.5 to 1.09 while the follower's
    pending copy has it at 0: one modify action for the copy, carrying the
    stop-loss only. *)
Lemma modify_iff_delta_exceeds_witness :
  linked_and_modified Boundary.linked [(500, Boundary.copy)]
    (Boundary.master_with_sl (109 # 100)) Boundary.follower Boundary.copy ∧
  is_pending Boundary.copy ∧
  ∃ new_price new_sl new_tp,
    log (process_master_order (scripted Boundary.script)
           (Boundary.master_with_sl (109 # 100)) Boundary.follower [(500, Boundary.copy)]
           Boundary.linked).2 =
      log Boundary.linked ++ [AModify 1 500 new_price new_sl new_tp] ∧
    new_sl = Some (109 # 100)%Q ∧ new_tp = None ∧ new_price = None.
Proof.
  assert (H : linked_and_modified Boundary.linked [(500, Boundary.copy)]
                (Boundary.master_with_sl (109 # 100)) Boundary.follower Boundary.copy).
  { exists {[1 := 500]}, 500. repeat split; reflexivity. }
  assert (Hpending : is_pending Boundary.copy).
  { exists 2. repeat split; discriminate. }
  split; [exact H|]. split; [exact Hpending|].
  destruct (modify_iff_delta_exceeds (scripted Boundary.script)
              (Boundary.master_with_sl (109 # 100)) Boundary.follower [(500, Boundary.copy)]
              Boundary.copy Boundary.linked H (fun _ => Hpending)) as [_ Hmod].
  destruct Hmod as (np & nsl & ntp & Hlog & Hsl & _ & _ & Htp & _ & Hp).
  - left. vm_compute. reflexivity.
  - exists np, nsl, ntp. split; [exact Hlog|]. split; [|split].
    + apply Hsl. vm_compute. reflexivity.
    + apply Htp. vm_compute. discriminate.
    + apply Hp. intros (_ & p & [= <-] & Hd). vm_compute in Hd. discriminate.
Defined.

(** C6, counterexample. The master's stop-loss moved from 0.5 to
    0.00001, so the order is marked modified, and the follower's pending
    copy has its stop-loss at 0: the delta is the float 0.00001 itself, "at
    or above" the tolerance, yet no modify action is issued. *)
Lemma delta_at_tolerance_not_modified :
  linked_and_modified Boundary.linked [(500, Boundary.copy)]
    (Boundary.master_with_sl tolerance) Boundary.follower Boundary.copy ∧
  is_pending Boundary.copy ∧
  (delta (or_zero (sl (Boundary.master_with_sl tolerance))) (or_zero (mt_sl Boundary.copy))
   == tolerance)%Q ∧
  (1 # 100000 <= delta (or_zero (sl (Boundary.master_with_sl tolerance)))
                       (or_zero (mt_sl Boundary.copy)))%Q ∧
  log (process_master_order (scripted Boundary.script)
         (Boundary.master_with_sl tolerance) Boundary.follower [(500, Boundary.copy)]
         Boundary.linked).2 = [].
Proof.
  split; [|split; [|split; [|split]]].
  - exists {[1 := 500]}, 500. repeat split; reflexivity.
  - exists 2. repeat split; discriminate.
  - vm_compute. reflexivity.
  - vm_compute. discriminate.
  - vm_compute. reflexivity.
Qed.

(** ** Missing symbol metadata (C7) *)

Section MissingMetadata.
Context {W : Type} (T : Terminal W).

(** C7, as the code has it. While the terminal has no metadata for the
    follower's symbol: percent-balance sizing returns the master volume
    unmodified; fixed, multiplier and risk-based sizing return their volume
    clamped to the bounds and not rounded; and [_copy_new_order], which
    checks the symbol before sizing, skips the copy: no action is issued
    and the link table is left as it was. *)
Theorem missing_metadata_skips_copy (master_order : OrderInfo) (cfg : FollowerConfig)
    (s : Sys W) :
  let symbol := map_symbol (symbol master_order) cfg in
  let lot := (calculate_lot_size T (volume master_order) cfg symbol s).1 in
  (∀ w, (get_symbol_info T symbol (login cfg) w).1 = None) →
  (LotCalculationType_of_string (lot_calculation cfg) = Some PERCENT_BALANCE →
   lot = volume master_order) ∧
  (∀ calc_type, LotCalculationType_of_string (lot_calculation cfg) = Some calc_type →
                calc_type ≠ PERCENT_BALANCE →
                lot = clamp_lot cfg (plain_policy_volume calc_type (volume master_order) cfg)) ∧
  log (copy_new_order T master_order cfg s).2 = log s ∧
  follower_orders (copy_new_order T master_order cfg s).2 = follower_orders s.
Proof.
  cbv zeta. intros Hmissing. split; [|split].
  - intros Hpolicy. unfold calculate_lot_size. rewrite Hpolicy.
    unfold policy_lot, bind, call, ret. cbn [fst snd world with_world].
    destruct (account_balance T (world s)).1; [|reflexivity].
    cbn [fst snd world with_world]. now rewrite Hmissing.
  - intros calc_type Hpolicy Hne. unfold calculate_lot_size. rewrite Hpolicy.
    destruct calc_type; [| |contradiction|];
      unfold policy_lot, bind, call, ret; cbn [fst snd world with_world];
      now rewrite Hmissing.
  - unfold copy_new_order, bind, call. cbn [fst snd world with_world].
    rewrite Hmissing. split; reflexivity.
Qed.

End MissingMetadata.

Lemma missing_metadata_skips_copy_witness :
  (∀ w, (get_symbol_info (scripted NoMetadata.script)
           (map_symbol (symbol NoMetadata.master) NoMetadata.percent_follower)
           (login NoMetadata.percent_follower) w).1 = None) ∧
  (calculate_lot_size (scripted NoMetadata.script) (volume NoMetadata.master)
     NoMetadata.percent_follower "EURUSD" (initial_state (desk 1))).1 = volume NoMetadata.master ∧
  log (copy_new_order (scripted NoMetadata.script) NoMetadata.master
         NoMetadata.percent_follower (initial_state (desk 1))).2 = [].
Proof.
  assert (H : ∀ w, (get_symbol_info (scripted NoMetadata.script)
           (map_symbol (symbol NoMetadata.master) NoMetadata.percent_follower)
           (login NoMetadata.percent_follower) w).1 = None) by (intros w; reflexivity).
  split; [exact H|].
  pose proof (missing_metadata_skips_copy (scripted NoMetadata.script) NoMetadata.master
                NoMetadata.percent_follower (initial_state (desk 1)) H) as (H1 & _ & H2 & _).
  split; [apply H1; reflexivity | exact H2].
Defined.

(** C7, counterexample. The terminal has no metadata for the symbol.
    Fixed sizing at 0.5 lots returns 0.5, not the master volume 1; and the
    copy of the master order is skipped: no create action is issued. *)
Lemma missing_metadata_aborts_copy :
  ¬ ((calculate_lot_size (scripted NoMetadata.script) (volume NoMetadata.master)
        NoMetadata.fixed_follower "EURUSD" (initial_state (desk 1))).1 == volume NoMetadata.master)%Q ∧
  log (copy_new_order (scripted NoMetadata.script) NoMetadata.master
         NoMetadata.percent_follower (initial_state (desk 1))).2 = [].
Proof.
  split.
  - vm_compute. discriminate.
  - vm_compute. reflexivity.
Qed.

(** ** Errors during change detection (C8) *)

Lemma filter_some {A} (f : A -> bool) (l : list A) x :
  In x l → f x = true → (0 <? length (List.filter f l))%nat = true.
Proof.
  intros Hin Hx. apply Nat.ltb_lt.
  assert (H : In x (List.filter f l)) by (apply List.filter_In; auto).
  destruct (List.filter f l); [contradiction | simpl; lia].
Qed.

Section DetectionErrors.
Context {W : Type} (T : Terminal W).

Lemma mapM_raises {A B} (f : A -> option B) (l : list A) x :
  In x l → f x = None → mapM f l = None.
Proof.
  induction l as [|y l IH]; intros Hin Hx; [contradiction|].
  cbn. destruct Hin as [->|Hin].
  - now rewrite Hx.
  - destruct (f y); [|reflexivity]. cbn. now rewrite IH.
Qed.

(** C8. When the comparison of a master order with its previous
    snapshot raises, the order counts as changed, the detector answers
    [has_changes = true], and the cycle goes on to the follower
    synchronisation instead of skipping it.  The detector answers
    [has_changes = true] as well when an exception escapes the method it
    calls on that order. *)
Theorem detection_error_assumes_changes (config : Config) (last : gmap Z OrderInfo)
    (master_orders : list OrderInfo) (o : OrderInfo) (s : Sys W) :
  master_state_of master_orders !! ticket o = Some o →
  has_master_order_changed_body last o = None →
  has_master_order_changed last o = true ∧
  has_changes (detect_master_changes last (master_state_of master_orders) master_orders)
    = true ∧
  (last_master_state s = last →
   reconcile T config master_orders s =
   (sync_followers T config master_orders ;;
    set_last_master_state (master_state_of master_orders)) s) ∧
  (∀ changed : OrderInfo -> option bool,
     changed o = None →
     has_changes (detect_master_changes_with changed last (master_state_of master_orders)
                    master_orders) = true).
Proof.
  intros Hcur Herr.
  assert (Hcommon : In (ticket o)
            (elements (dom (master_state_of master_orders) ∩ dom last))).
  { apply list_elem_of_In, elem_of_elements, elem_of_intersection. split.
    - apply elem_of_dom. eauto.
    - apply elem_of_dom. unfold has_master_order_changed_body in Herr.
      destruct (last !! ticket o); [eauto | discriminate]. }
  assert (Hchanged : has_master_order_changed last o = true).
  { unfold has_master_order_changed. now rewrite Herr. }
  assert (Hdetect : has_changes (detect_master_changes last (master_state_of master_orders)
                                   master_orders) = true).
  { rewrite detect_has_changes.
    assert (Hmod : (0 <? modified_count last (master_state_of master_orders))%nat = true).
    { unfold modified_count. apply filter_some with (x := ticket o); [exact Hcommon|].
      now rewrite Hcur. }
    rewrite Hmod. now rewrite !orb_true_r. }
  split; [exact Hchanged|]. split; [exact Hdetect|]. split.
  - intros <-. unfold reconcile at 1. unfold bind at 1. unfold get_state. cbn [fst snd].
    now rewrite Hdetect.
  - intros changed Hraise.
    unfold detect_master_changes_with, detect_master_changes_body.
    rewrite (mapM_raises _ _ (ticket o) Hcommon); [reflexivity|].
    rewrite Hcur. exact Hraise.
Qed.

End DetectionErrors.

Lemma detection_error_assumes_changes_witness :
  master_state_of [Unpriced.master] !! ticket Unpriced.master = Some Unpriced.master ∧
  has_master_order_changed_body {[100 := Unpriced.master]} Unpriced.master = None ∧
  has_changes (detect_master_changes {[100 := Unpriced.master]}
                 (master_state_of [Unpriced.master]) [Unpriced.master]) = true.
Proof.
  assert (H1 : master_state_of [Unpriced.master] !! ticket Unpriced.master
               = Some Unpriced.master) by reflexivity.
  assert (H2 : has_master_order_changed_body {[100 := Unpriced.master]} Unpriced.master
               = None) by reflexivity.
  split; [exact H1|]. split; [exact H2|].
  exact (proj1 (proj2 (detection_error_assumes_changes (scripted Unpriced.script)
           Unpriced.config _ _ _ (initial_state (desk 9)) H1 H2))).
Defined.

(** ** The magic number (C9) *)

Lemma set_Forall {V} (P : Z * V -> Prop) k v (d : list (Z * V)) :
  P (k, v) → Forall P d → Forall P (PyDict.set k v d).
Proof.
  intros Hkv. induction 1 as [|[k' v'] d Hx Hd IH]; simpl.
  - constructor; auto.
  - destruct (k =? k'); constructor; auto.
Qed.

Lemma track_own_Forall cfg all orders live :
  (∀ o, In o orders → In o all) →
  Forall (own_entry cfg all) live →
  Forall (own_entry cfg all) (track_own (magic_number cfg) orders live).
Proof.
  revert live. unfold track_own.
  induction orders as [|o orders IH]; intros live Hsub Hlive; simpl; [exact Hlive|].
  apply IH; [intros o' Ho'; apply Hsub; now right|].
  destruct (mt_magic o =? magic_number cfg) eqn:E; [|exact Hlive].
  apply set_Forall; [|exact Hlive]. apply Z.eqb_eq in E.
  repeat split; simpl; auto. apply Hsub. now left.
Qed.

Section Magic.
Context {W : Type} (T : Terminal W).
Variables (cfg : FollowerConfig) (orders : list MtOrder).

Local Abbreviation own := (own_action cfg orders).

Lemma calculate_lot_size_own v sym (s : Sys W) :
  wp (calculate_lot_size T v cfg sym) own (fun _ _ => True) s.
Proof. unfold calculate_lot_size, policy_lot. wp_steps; exact I. Qed.

Lemma check_order_modifications_own master_order ticket follower_order (s : Sys W) :
  own_entry cfg orders (ticket, follower_order) →
  wp (check_order_modifications T master_order follower_order cfg) own (fun _ _ => True) s.
Proof.
  intros (Ho & Ht & Hm). cbn [fst snd] in Ho, Ht, Hm.
  unfold check_order_modifications. cbv zeta. wp_prim; [|wp_steps; exact I].
  wp_prim. apply wp_emit; [exists follower_order; cbn [target]; auto|]. wp_steps; exact I.
Qed.

Lemma copy_unless_manually_closed_own master_order (s : Sys W) :
  wp (copy_unless_manually_closed T master_order cfg) own (fun _ _ => True) s.
Proof.
  unfold copy_unless_manually_closed, copy_new_order.
  wp_prim. wp_prim. wp_prim; [wp_steps; exact I|].
  wp_prim. wp_prim. wp_prim; [|wp_steps; exact I]. wp_prim.
  eapply wp_weaken; [apply calculate_lot_size_own | auto |].
  cbv beta. intros v s' _. wp_prim. apply wp_emit; [reflexivity|]. wp_steps; exact I.
Qed.

Lemma process_master_order_own master_order live (s : Sys W) :
  Forall (own_entry cfg orders) live →
  wp (process_master_order T master_order cfg live) own (fun _ _ => True) s.
Proof.
  intros Hlive. rewrite List.Forall_forall in Hlive.
  unfold process_master_order. cbv zeta. wp_prim. wp_prim.
  wp_prim; [|apply copy_unless_manually_closed_own].
  wp_prim; [|apply copy_unless_manually_closed_own].
  wp_prim; [|unfold mark_manually_closed; wp_steps; exact I].
  wp_prim.
  eapply wp_weaken with (P := own) (Q := fun _ _ => True); [| auto |].
  - wp_prim; [|wp_steps; exact I].
    match goal with H : PyDict.get ?k live = Some _ |- _ =>
      apply check_order_modifications_own with (ticket := k);
      apply Hlive; now apply get_Some_In end.
  - cbv beta. intros ? s' _. unfold mark_synced. wp_steps; exact I.
Qed.

Lemma close_orphan_own ticket order master_ticket (s : Sys W) :
  own_entry cfg orders (ticket, order) →
  wp (close_orphan T cfg (ticket, order, master_ticket)) own (fun _ _ => True) s.
Proof.
  intros (Ho & Ht & Hm). cbn [fst snd] in Ho, Ht, Hm.
  assert (Hclose : own (AClose (login cfg) ticket)) by (exists order; cbn [target]; subst; auto).
  assert (Hcancel : own (ACancel (login cfg) ticket)) by (exists order; cbn [target]; subst; auto).
  unfold close_orphan, close_or_cancel, issue_close, issue_cancel, untrack.
  repeat first [ wp_prim | apply wp_emit; [assumption|] ]; exact I.
Qed.

Lemma orders_to_close_own master_orders live links e :
  Forall (own_entry cfg orders) live →
  In e (orders_to_close master_orders live cfg links) →
  own_entry cfg orders (e.1.1, e.1.2).
Proof.
  intros Hlive Hin. rewrite List.Forall_forall in Hlive.
  unfold orders_to_close in Hin. apply in_app_or in Hin as [Hin|Hin].
  - unfold orphans_by_comment in Hin. apply in_flat_map in Hin as ([k o] & Hko & Hin).
    repeat case_match; try contradiction.
    destruct Hin as [<-|[]]. cbn [fst snd]. now apply Hlive.
  - unfold orphans_by_link in Hin. apply in_flat_map in Hin as ([mt followers] & _ & Hin).
    repeat case_match; try contradiction.
    destruct Hin as [<-|[]]. cbn [fst snd]. apply Hlive. now apply get_Some_In.
Qed.

Lemma sync_body_own master_orders live (s : Sys W) :
  Forall (own_entry cfg orders) live →
  wp (for_each master_orders (fun master_order => process_master_order T master_order cfg live) ;;
      cleanup_orphaned_orders T master_orders live cfg) own (fun _ _ => True) s.
Proof.
  intros Hlive. wp_prim.
  eapply wp_weaken with (P := own) (Q := fun _ _ => True); [| auto |].
  - apply wp_for_each with (I := fun _ => True); [|exact I].
    intros x s' _ _. now apply process_master_order_own.
  - cbv beta. intros ? s' _. unfold cleanup_orphaned_orders. wp_prim. wp_prim.
    apply wp_for_each with (I := fun _ => True); [|exact I].
    intros [[ticket order] mt] s'' Hin _. apply close_orphan_own.
    apply (orders_to_close_own _ _ _ _ Hlive Hin).
Qed.

End Magic.

Section MagicTheorem.
Context {W : Type} (T : Terminal W).

(** C9. In a synchronisation pass the follower's order set holds only
    orders of the account that carry the follower's magic number, each
    under its own ticket.  Every action of the pass is a create carrying
    that magic number or is aimed at the ticket of such an order; so no
    action is aimed at an order without the magic number, unless an order
    with it has the same ticket. *)
Theorem engine_acts_on_own_orders (cfg : FollowerConfig) (master_orders : list OrderInfo)
    (s : Sys W) :
  let s1 := (call (connect_account T (login cfg)) s).2 in
  let pending := (orders_get T (world s1)).1 in
  let positions := (positions_get T (orders_get T (world s1)).2).1 in
  let orders := pending ++ positions in
  let live := (fetch_live T cfg s1).1 in
  Forall (fun e => In e.2 orders ∧ mt_ticket e.2 = e.1 ∧ mt_magic e.2 = magic_number cfg) live ∧
  ∃ issued,
    log (sync_orders_to_follower T cfg master_orders s).2 = log s ++ issued ∧
    Forall (own_action cfg orders) issued ∧
    ∀ o, In o orders → mt_magic o ≠ magic_number cfg →
         (∀ o', In o' orders → mt_ticket o' = mt_ticket o → mt_magic o' = mt_magic o) →
         Forall (fun a => target a ≠ Some (mt_ticket o)) issued.
Proof.
  cbv zeta.
  set (s1 := (call (connect_account T (login cfg)) s).2).
  set (pending := (orders_get T (world s1)).1).
  set (positions := (positions_get T (orders_get T (world s1)).2).1).
  set (orders := pending ++ positions).
  assert (Hlive : Forall (own_entry cfg orders) (fetch_live T cfg s1).1).
  { unfold fetch_live, bind, call, ret. cbn [fst snd world with_world].
    fold pending. fold positions.
    apply track_own_Forall; [intros o Ho; apply in_or_app; now right|].
    apply track_own_Forall; [intros o Ho; apply in_or_app; now left|]. constructor. }
  split; [exact Hlive|].
  assert (Hwp : wp (sync_orders_to_follower T cfg master_orders) (own_action cfg orders)
                  (fun _ _ => True) s).
  { unfold sync_orders_to_follower. wp_prim. wp_prim. wp_prim; [wp_steps; exact I|].
    apply wp_bind. exists []. rewrite app_nil_r. split; [|split; [constructor|]].
    - unfold fetch_live, bind, call, ret. reflexivity.
    - apply sync_body_own. exact Hlive. }
  destruct Hwp as (issued & Hlog & Hown & _). exists issued.
  split; [exact Hlog|]. split; [exact Hown|].
  intros o Ho Hmagic Huniq. rewrite List.Forall_forall in Hown. apply List.Forall_forall.
  intros a Ha Htarget. specialize (Hown a Ha). destruct a; cbn [target] in Htarget;
    try discriminate; destruct Hown as (o' & Ho' & Ht' & Hm'); cbn [target] in Ht';
    apply Hmagic; rewrite <- (Huniq o' Ho') by congruence; exact Hm'.
Qed.

End MagicTheorem.

Lemma engine_acts_on_own_orders_witness :
  ∃ issued,
    log (sync_orders_to_follower (scripted MasterDown.script) Orphan.follower1 []
           Orphan.before).2 = log Orphan.before ++ issued ∧
    Forall (own_action Orphan.follower1 [Orphan.copy_of_100 2]) issued.
Proof.
  destruct (engine_acts_on_own_orders (scripted MasterDown.script) Orphan.follower1 []
              Orphan.before) as (_ & issued & Hlog & Hown & _).
  exists issued. split; [exact Hlog | exact Hown].
Defined.

(** ** A failed master fetch (C10) *)

Section FetchFailure.
Context {W : Type} (T : Terminal W).

Lemma untrack_log cfg master_ticket (s : Sys W) :
  log (untrack cfg master_ticket s).2 = log s.
Proof.
  unfold untrack, bind, get_state. cbn [fst snd]. repeat case_match; reflexivity.
Qed.

Lemma close_orphan_issues cfg entry (s : Sys W) :
  ∃ a, closes cfg entry a ∧ log (close_orphan T cfg entry s).2 = log s ++ [a].
Proof.
  destruct entry as [[ticket order] master_ticket]. unfold closes. cbn [fst snd].
  unfold close_orphan, bind. cbn [fst snd].
  assert (H : ∃ a, (a = AClose (login cfg) ticket ∨ a = ACancel (login cfg) ticket) ∧
                   log (close_or_cancel T cfg ticket order s).2 = log s ++ [a]).
  { unfold close_or_cancel, issue_close, issue_cancel, bind, call, emit.
    repeat first [ progress cbn beta iota delta [fst snd log with_world with_log]
                 | case_match ]; eauto. }
  destruct H as (a & Ha & Hlog). exists a. split; [exact Ha|].
  destruct (close_or_cancel T cfg ticket order s).1; [|exact Hlog].
  now rewrite untrack_log.
Qed.

(** The closing loop issues one action for each entry of its list, in
    order. *)
Lemma closing_loop_issues cfg (entries : list (Z * MtOrder * Z)) (s : Sys W) :
  ∃ issued, log (for_each entries (close_orphan T cfg) s).2 = log s ++ issued ∧
            Forall2 (closes cfg) entries issued.
Proof.
  revert s. induction entries as [|e entries IH]; intros s.
  - exists []. cbn. rewrite app_nil_r. split; [reflexivity | constructor].
  - destruct (close_orphan_issues cfg e s) as (a & Ha & Hlog).
    destruct (IH (close_orphan T cfg e s).2) as (issued & Hrest & Hall).
    exists (a :: issued). cbn [for_each]. unfold bind at 1. split.
    + rewrite Hrest, Hlog, <- app_assoc. reflexivity.
    + now constructor.
Qed.

Lemma fetch_live_tables cfg (s : Sys W) :
  follower_orders (fetch_live T cfg s).2 = follower_orders s ∧
  log (fetch_live T cfg s).2 = log s.
Proof. unfold fetch_live, bind, call, ret. split; reflexivity. Qed.

Lemma linked_is_listed cfg live (links : list (Z * gmap Z Z)) master_ticket followers
    follower_ticket order :
  PyDict.get master_ticket links = Some followers →
  followers !! login cfg = Some follower_ticket →
  PyDict.get follower_ticket live = Some order →
  In (follower_ticket, order, master_ticket) (orders_to_close [] live cfg links).
Proof.
  intros Hl Hf Ho. unfold orders_to_close. apply in_or_app. right.
  unfold orphans_by_link. apply in_flat_map. exists (master_ticket, followers).
  split; [now apply get_Some_In|].
  cbn [map list_to_set]. rewrite bool_decide_eq_false_2 by apply not_elem_of_empty.
  rewrite Hf, Ho. now left.
Qed.

Lemma sync_orders_to_follower_tagged cfg master_orders (s : Sys W) :
  wp (sync_orders_to_follower T cfg master_orders) (fun a => follower_of a = login cfg)
     (fun _ _ => True) s.
Proof.
  unfold sync_orders_to_follower. wp_prim. wp_prim. wp_prim; [wp_steps; exact I|].
  wp_prim. unfold fetch_live. do 6 wp_prim.
  eapply wp_weaken with (P := fun a => follower_of a = login cfg) (Q := fun _ _ => True);
    [| auto |].
  - apply wp_for_each with (I := fun _ => True); [|exact I].
    intros master_order s' _ _.
    unfold process_master_order, copy_unless_manually_closed, copy_new_order,
      calculate_lot_size, policy_lot, check_order_modifications, mark_manually_closed,
      mark_synced. cbv zeta.
    repeat first [ wp_prim | apply wp_emit; [reflexivity|] ]; exact I.
  - cbv beta. intros ? s' _. unfold cleanup_orphaned_orders. wp_prim. wp_prim.
    apply wp_for_each with (I := fun _ => True); [|exact I].
    intros [[ticket order] master_ticket] s'' _ _.
    unfold close_orphan, close_or_cancel, issue_close, issue_cancel, untrack.
    repeat first [ wp_prim | apply wp_emit; [reflexivity|] ]; exact I.
Qed.

(** What a loop issues is appended to the log. *)
Lemma for_each_appends {A} (l : list A) (body : A -> M W unit) (s : Sys W) :
  (∀ x s', wp (body x) (fun _ => True) (fun _ _ => True) s') →
  ∃ issued, log (for_each l body s).2 = log s ++ issued.
Proof.
  intros Hbody.
  destruct (wp_for_each l body (fun _ => True) (fun _ => True) s) as (issued & Hlog & _);
    [|exact I|eauto].
  intros x s' _ _. eapply wp_weaken; [apply Hbody | auto | auto].
Qed.

Lemma cleanup_pass_appends cfg (s : Sys W) :
  wp (cleanup_pass T cfg) (fun _ => True) (fun _ _ => True) s.
Proof.
  unfold cleanup_pass. destruct (is_enabled cfg); [|now apply wp_ret].
  eapply wp_weaken; [apply sync_orders_to_follower_tagged | auto | auto].
Qed.

Lemma for_each_app {A} (l1 l2 : list A) (body : A -> M W unit) (s : Sys W) :
  for_each (l1 ++ l2) body s = for_each l2 body (for_each l1 body s).2.
Proof.
  revert s. induction l1 as [|x l1 IH]; intros s; [reflexivity|].
  cbn [app for_each]. unfold bind. apply IH.
Qed.

(** In a pass against the empty snapshot, once the follower is connected,
    every linked follower ticket that is still among the follower's own
    live orders gets a close or a cancel. *)
Lemma empty_snapshot_pass_closes_copy cfg (s : Sys W) master_ticket follower_ticket :
  (connect_account T (login cfg) (world s)).1 = true →
  link s master_ticket (login cfg) = Some follower_ticket →
  is_Some (PyDict.get follower_ticket
             (fetch_live T cfg (call (connect_account T (login cfg)) s).2).1) →
  ∃ issued a,
    log (sync_orders_to_follower T cfg [] s).2 = log s ++ issued ∧
    In a issued ∧
    (a = AClose (login cfg) follower_ticket ∨ a = ACancel (login cfg) follower_ticket).
Proof.
  intros Hconn Hlink [order Hlive].
  unfold link in Hlink.
  destruct (PyDict.get master_ticket (follower_orders s)) as [followers|] eqn:Hrow;
    [|discriminate].
  cbn [mbind option_bind] in Hlink.
  set (s1 := (call (connect_account T (login cfg)) s).2) in *.
  set (live := (fetch_live T cfg s1).1) in *.
  destruct (fetch_live_tables cfg s1) as [Hfo Hlog].
  destruct (closing_loop_issues cfg
              (orders_to_close [] live cfg (follower_orders s)) (fetch_live T cfg s1).2)
    as (issued & Hissued & Hall).
  assert (Hin : In (follower_ticket, order, master_ticket)
                  (orders_to_close [] live cfg (follower_orders s)))
    by (eapply linked_is_listed; eauto).
  assert (Ha : ∃ a, In a issued ∧ closes cfg (follower_ticket, order, master_ticket) a).
  { clear Hissued. induction Hall as [|e a es as_ Hea Hall IH]; [contradiction|].
    destruct Hin as [->|Hin].
    - exists a. split; [now left | exact Hea].
    - destruct (IH Hin) as (a' & Ha' & Hc). exists a'. split; [now right | exact Hc]. }
  destruct Ha as (a & Hain & Hca). exists issued, a.
  split; [|split; [exact Hain | exact Hca]].
  unfold sync_orders_to_follower. unfold bind at 1. unfold call at 1. cbn [fst snd].
  rewrite Hconn. cbn [negb]. fold s1. unfold bind at 1. fold live.
  cbn [for_each]. unfold bind at 1. cbn [ret fst snd].
  unfold cleanup_orphaned_orders, bind, get_state. cbn [fst snd].
  rewrite Hfo. change (follower_orders s1) with (follower_orders s).
  rewrite Hissued, Hlog. reflexivity.
Qed.

(** C10, as the code has it. When the master fetch fails,
    [get_master_orders] returns the empty list and the cycle goes on as for
    a master account without orders: the detector counts every ticket of
    the last stored snapshot as removed.  If that snapshot is empty, nothing
    is detected and the cycle issues nothing.  If it is not, the cycle runs
    the pass of every enabled follower against the empty snapshot, one
    follower after the other; when the pass of an enabled follower starts
    and the follower connects, every follower ticket linked for it that is
    still among its own live orders gets a close or a cancel in that
    cycle. *)
Theorem master_fetch_failure_closes_copies (config : Config) (s : Sys W) :
  master_fetch_fails T config (world s) →
  let failed := (get_master_orders T config (with_cycle_count (cycle_count s + 1) s)).2 in
  (get_master_orders T config s).1 = [] ∧
  run_copy_cycle T config s = reconcile T config [] failed ∧
  removed_orders (last_master_state s) (master_state_of []) = dom (last_master_state s) ∧
  (last_master_state s = ∅ → log (run_copy_cycle T config s).2 = log s) ∧
  (last_master_state s ≠ ∅ →
   has_changes (detect_master_changes (last_master_state s) (master_state_of []) []) = true ∧
   run_copy_cycle T config s =
   (for_each (follower_accounts config) (cleanup_pass T) ;; set_last_master_state ∅) failed ∧
   ∀ earlier cfg later master_ticket follower_ticket,
     follower_accounts config = earlier ++ cfg :: later →
     is_enabled cfg = true →
     let s' := (for_each earlier (cleanup_pass T) failed).2 in
     (connect_account T (login cfg) (world s')).1 = true →
     link s' master_ticket (login cfg) = Some follower_ticket →
     is_Some (PyDict.get follower_ticket
                (fetch_live T cfg (call (connect_account T (login cfg)) s').2).1) →
     ∃ issued a,
       log (run_copy_cycle T config s).2 = log s ++ issued ∧
       In a issued ∧
       (a = AClose (login cfg) follower_ticket ∨ a = ACancel (login cfg) follower_ticket)).
Proof.
  intros Hfail failed.
  assert (Hempty : ∀ s0 : Sys W, world s0 = world s → (get_master_orders T config s0).1 = []).
  { intros s0 Hw. unfold get_master_orders, bind, call, ret.
    unfold master_fetch_fails in Hfail. cbv zeta in Hfail.
    cbn [fst snd world with_world]. rewrite Hw.
    destruct Hfail as [H|[H|H]].
    - now rewrite H.
    - destruct (negb _); [reflexivity|]. cbn [fst snd world with_world]. now rewrite H.
    - destruct (negb _); [reflexivity|]. cbn [fst snd world with_world].
      destruct (mapM order_info_of_pending _); [|reflexivity].
      cbn [fst snd world with_world]. now rewrite H. }
  assert (Hcycle : run_copy_cycle T config s = reconcile T config [] failed).
  { unfold run_copy_cycle, bind, get_state, set_cycle_count. cbn [fst snd].
    now rewrite Hempty by reflexivity. }
  assert (Hfailed_last : last_master_state failed = last_master_state s).
  { unfold failed. now rewrite get_master_orders_last. }
  assert (Hfailed_log : log failed = log s).
  { unfold failed. now rewrite get_master_orders_silent. }
  assert (Hdetect : last_master_state s ≠ ∅ →
            has_changes (detect_master_changes (last_master_state s)
                           (master_state_of []) []) = true).
  { intros Hne. rewrite detect_has_changes.
    unfold removed_orders, master_state_of. cbn [fold_left].
    rewrite dom_empty_L, difference_empty_L.
    rewrite (bool_decide_eq_false_2 (dom (last_master_state s) = ∅)).
    - cbn [negb]. now rewrite orb_true_r.
    - intros E. apply Hne. now apply dom_empty_iff_L. }
  assert (Hsync : last_master_state s ≠ ∅ →
            run_copy_cycle T config s =
            (for_each (follower_accounts config) (cleanup_pass T) ;;
             set_last_master_state ∅) failed).
  { intros Hne. rewrite Hcycle.
    unfold reconcile at 1. unfold bind at 1. unfold get_state. cbn [fst snd].
    rewrite Hfailed_last. now rewrite (Hdetect Hne). }
  split; [now apply Hempty|]. split; [exact Hcycle|]. split; [|split].
  - unfold removed_orders, master_state_of. cbn [fold_left].
    rewrite dom_empty_L. apply difference_empty_L.
  - intros Hnone. rewrite Hcycle.
    unfold reconcile, bind, get_state. cbn [fst snd]. rewrite Hfailed_last, Hnone.
    assert (Hsame : has_changes (detect_master_changes ∅ (master_state_of []) []) = false).
    { apply unchanged_no_changes. split; [reflexivity|].
      intros t a b Ha. now rewrite lookup_empty in Ha. }
    rewrite Hsame. cbn [negb]. exact Hfailed_log.
  - intros Hne. split; [now apply Hdetect|]. split; [now apply Hsync|].
    intros earlier cfg later master_ticket follower_ticket Hsplit Henabled s' Hconn Hlink Hlive.
    rewrite (Hsync Hne). unfold bind at 1. cbn [set_last_master_state snd log with_last_master_state].
    rewrite Hsplit, for_each_app. fold s'. cbn [for_each]. unfold bind at 1.
    unfold cleanup_pass at 2. rewrite Henabled.
    destruct (for_each_appends earlier (cleanup_pass T) failed cleanup_pass_appends)
      as (issued1 & Hlog1).
    destruct (empty_snapshot_pass_closes_copy cfg s' master_ticket follower_ticket
                Hconn Hlink Hlive) as (issued2 & a & Hlog2 & Hin & Ha).
    destruct (for_each_appends later (cleanup_pass T)
                (sync_orders_to_follower T cfg [] s').2 cleanup_pass_appends)
      as (issued3 & Hlog3).
    exists (issued1 ++ issued2 ++ issued3), a. split; [|split; [|exact Ha]].
    + rewrite Hlog3, Hlog2. fold s' in Hlog1. rewrite Hlog1, Hfailed_log.
      now rewrite <- !app_assoc.
    + apply in_or_app. right. apply in_or_app. now left.
Qed.

End FetchFailure.

(** After the first cycle of [Steady] the master account goes down
    while follower 1 holds its copy: the cycle closes the copy. *)
Lemma master_fetch_failure_closes_copies_witness :
  master_fetch_fails (scripted Outage.master_down) Steady.config (world Outage.copied) ∧
  last_master_state Outage.copied ≠ ∅ ∧
  (get_master_orders (scripted Outage.master_down) Steady.config Outage.copied).1 = [] ∧
  ∃ issued a,
    log (run_copy_cycle (scripted Outage.master_down) Steady.config Outage.copied).2
      = log Outage.copied ++ issued ∧
    In a issued ∧ (a = AClose 1 500 ∨ a = ACancel 1 500).
Proof.
  assert (H : master_fetch_fails (scripted Outage.master_down) Steady.config
                (world Outage.copied)) by (left; reflexivity).
  assert (Hlast : last_master_state Outage.copied ≠ ∅).
  { intros E. apply (f_equal (fun m => m !! 100)) in E. vm_compute in E. discriminate. }
  split; [exact H|]. split; [exact Hlast|].
  pose proof (master_fetch_failure_closes_copies (scripted Outage.master_down) Steady.config
                Outage.copied H) as (H1 & _ & _ & _ & H4).
  split; [exact H1|].
  destruct (H4 Hlast) as (_ & _ & H5).
  apply (H5 [] Steady.follower [] 100 500).
  - reflexivity.
  - reflexivity.
  - reflexivity.
  - reflexivity.
  - eexists. reflexivity.
Defined.

(** C10, counterexample. The first cycle copies ticket 100 to follower 1
    as ticket 500.  During the second nothing can be connected: the fetch
    fails, ticket 100 counts as removed, but the pass of follower 1 cannot
    start; nothing is issued and the empty snapshot is stored.  In the third
    the master account is still down and follower 1 is back, its copy linked
    and live: the fetch fails, nothing is detected against the stored empty
    snapshot, and again no close or cancel is issued. *)
Lemma failed_fetch_after_outage_closes_nothing :
  link Outage.copied 100 1 = Some 500 ∧
  master_fetch_fails (scripted Outage.all_down) Steady.config (world Outage.copied) ∧
  log Outage.after_outage = log Outage.copied ∧
  master_fetch_fails (scripted Outage.master_down) Steady.config (world Outage.after_outage) ∧
  is_enabled Steady.follower = true ∧
  (connect_account (scripted Outage.master_down) 1 (world Outage.after_outage)).1 = true ∧
  link Outage.after_outage 100 1 = Some 500 ∧
  PyDict.get 500
    (fetch_live (scripted Outage.master_down) Steady.follower
       (call (connect_account (scripted Outage.master_down) 1) Outage.after_outage).2).1
    = Some Outage.copy ∧
  log (run_copy_cycle (scripted Outage.master_down) Steady.config Outage.after_outage).2
    = log Outage.after_outage.
Proof.
  split; [reflexivity|]. split; [left; reflexivity|]. split; [vm_compute; reflexivity|].
  split; [left; reflexivity|]. split; [reflexivity|]. split; [reflexivity|].
  split; [reflexivity|]. split; [reflexivity|]. vm_compute. reflexivity.
Qed.

(** ** The scenarios of the specification, run on the model *)

(** [round] on ties and [int] on comments. *)
Example py_round_ties :
  (py_round (1 # 2), py_round (3 # 2), py_round (5 # 2), py_round (-1 # 2), py_round (7 # 4))
  = (0, 2, 2, 0, 2).
Proof. reflexivity. Qed.

Example copy_ticket_cases :
  (copy_ticket "Copy:100", copy_ticket "Copy: 12 ", copy_ticket "Copy:1_0:3",
   copy_ticket "Copy:", copy_ticket "Copy:x", copy_ticket "Other:100")
  = (Some 100, Some 12, Some 10, None, None, None).
Proof. reflexivity. Qed.

(** Scenario 1: the master opens ticket 100 with volume 1; the follower
    (multiplier 0.5, bounds 0.01 and 5, step 0.01) gets one new order of
    volume 0.5 with the comment [Copy:100], and the link is recorded. *)
Example first_cycle_copies :
  let s' := (run_copy_cycle (scripted Steady.script) Steady.config (initial_state (desk 9))).2 in
  ∃ req, log s' = [ACreate 1 100 req] ∧
         req_comment req = "Copy:100"%string ∧ (req_volume req == 1 # 2)%Q ∧
         req_magic req = 777 ∧ link s' 100 1 = Some 500.
Proof. eexists. vm_compute. repeat split. Qed.

(** Scenario 3: the follower's copy is gone from its account while the
    master order, just modified, is still open: the pair is recorded as
    manually closed, its link is dropped and nothing is issued. *)
Example manual_close_is_recorded :
  let s' := (process_master_order (scripted Steady.script)
               (Boundary.master_with_sl (109 # 100)) Boundary.follower [] Boundary.linked).2 in
  manually_closed s' = {[100 := {[1]}]} ∧ follower_orders s' = [] ∧ log s' = [].
Proof. vm_compute. repeat split. Qed.

(** Scenario 4: the master closes ticket 100; the next cycle closes the
    follower's position. *)
Example master_close_closes_copy :
  let s' := (run_copy_cycle (scripted Orphan.position_script) Orphan.config Orphan.before).2 in
  In (AClose 1 500) (log s') ∧ gone (world s') = [500] ∧ last_master_state s' = ∅.
Proof. vm_compute. repeat split. left. reflexivity. Qed.

(** A follower position whose opening price is away from the master's
    price, its stop-loss and take-profit in step with the master's: when the
    master order counts as changed, the modify call carries the price
    alone. *)
Example position_gets_price_only_modify :
  let filled := {| mt_ticket := 500; mt_symbol := "EURUSD"; mt_type := Some ORDER_TYPE_BUY;
                   mt_volume := 1%Q; mt_price_open := Some (Some (9 # 8)%Q);
                   mt_sl := Some (1 # 4)%Q; mt_tp := Some 0%Q;
                   mt_comment := Some "Copy:100"%string; mt_magic := 777; mt_time := 0;
                   mt_state := 0 |} in
  log (process_master_order (scripted Boundary.script) (Boundary.master_with_sl (1 # 4))
         Boundary.follower [(500, filled)] Boundary.linked).2
  = [AModify 1 500 (Some (11 # 10)%Q) None None].
Proof. vm_compute. reflexivity. Qed.

(** ** The comment of a copy: encoding and decoding *)




Lemma pretty_N_char_digit (x : N) :
  (x < 10)%N → digit_val (pretty_N_char x) = Some (Z.of_N x).
Proof.
  intros H.
  assert (x = 0 ∨ x = 1 ∨ x = 2 ∨ x = 3 ∨ x = 4 ∨ x = 5 ∨ x = 6 ∨ x = 7 ∨ x = 8 ∨ x = 9)%N
    as Hx by lia.
  repeat (destruct Hx as [->|Hx]; [reflexivity|]). now subst.
Qed.

Lemma digit_code_range c d :
  digit_val c = Some d →
  (48 <= nat_of_ascii c <= 57)%nat ∧ d = Z.of_nat (nat_of_ascii c) - 48.
Proof.
  unfold digit_val. intros H.
  destruct (48 <=? nat_of_ascii c)%nat eqn:E1; [|discriminate].
  destruct (nat_of_ascii c <=? 57)%nat eqn:E2; [|discriminate].
  cbn [andb] in H. injection H as <-.
  apply Nat.leb_le in E1, E2. auto.
Qed.

Lemma digit_code_facts (n : nat) :
  (48 <= n <= 57)%nat →
  ((n <=? 13) = false ∧ (n =? 32) = false ∧ (n =? 133) = false ∧ (n =? 160) = false)%nat ∧
  0 ≤ Z.of_nat n - 48 ≤ 9 ∧
  ∀ m, (m < 48 ∨ 57 < m)%nat → n ≠ m.
Proof.
  intros H. repeat split; try lia.
  - apply Nat.leb_gt. lia.
  - apply Nat.eqb_neq. lia.
  - apply Nat.eqb_neq. lia.
  - apply Nat.eqb_neq. lia.
Qed.

Lemma digit_not_special c d :
  digit_val c = Some d →
  is_space c = false ∧ Ascii.eqb c "_" = false ∧ Ascii.eqb c ":" = false ∧
  c ≠ "+"%char ∧ c ≠ "-"%char ∧ 0 ≤ d ≤ 9.
Proof.
  intros H. destruct (digit_code_range c d H) as [Hc ->]. clear H.
  destruct (digit_code_facts _ Hc) as ((H13 & H32 & H133 & H160) & Hd & Hne).
  assert (Hne' : ∀ c', (nat_of_ascii c' <? 48)%nat || (57 <? nat_of_ascii c')%nat = true →
                       c ≠ c').
  { intros c' Hc' ->. apply (Hne (nat_of_ascii c')); [|reflexivity].
    apply orb_true_iff in Hc' as [Hc'|Hc']; apply Nat.ltb_lt in Hc'; auto. }
  split; [|split; [|split; [|split; [|split]]]].
  - unfold is_space. cbv zeta. rewrite H13, H32, H133, H160. now rewrite andb_false_r.
  - apply Ascii.eqb_neq, Hne'. reflexivity.
  - apply Ascii.eqb_neq, Hne'. reflexivity.
  - apply Hne'. reflexivity.
  - apply Hne'. reflexivity.
  - exact Hd.
Qed.

(** [digits] reads a digit string as its value. *)
Lemma digits_all_digits s acc b :
  all_digits s = true → s ≠ EmptyString ∨ b = true →
  digits acc b s = Some (digits_value acc s).
Proof.
  revert acc b. induction s as [|c r IH]; intros acc b Hs Hne.
  - destruct Hne as [Hne | ->]; [contradiction | reflexivity].
  - cbn [all_digits] in Hs. apply andb_true_iff in Hs as [Hc Hr].
    apply bool_decide_eq_true in Hc as [d Hd].
    destruct (digit_not_special c d Hd) as (_ & Hu & _).
    cbn [digits digits_value]. rewrite Hu, Hd. cbn [default].
    apply IH; [exact Hr | now right].
Qed.

Lemma pretty_N_go_all_digits (x : N) s :
  all_digits s = true → all_digits (pretty_N_go x s) = true.
Proof.
  revert s. induction (N.lt_wf_0 x) as [x _ IH]; intros s Hs.
  destruct (N.eq_dec x 0%N) as [->|Hx]; [now rewrite pretty_N_go_0|].
  rewrite pretty_N_go_step by lia. apply IH; [apply N.div_lt; lia|].
  cbn [all_digits]. rewrite Hs, andb_true_r. apply bool_decide_eq_true.
  rewrite pretty_N_char_digit by (apply N.mod_lt; lia). eauto.
Qed.

Lemma pretty_N_go_value (x : N) s :
  digits_value 0 (pretty_N_go x s) = digits_value (Z.of_N x) s.
Proof.
  revert s. induction (N.lt_wf_0 x) as [x _ IH]; intros s.
  destruct (N.eq_dec x 0%N) as [->|Hx]; [now rewrite pretty_N_go_0|].
  rewrite pretty_N_go_step by lia. rewrite IH by (apply N.div_lt; lia).
  cbn [digits_value]. rewrite pretty_N_char_digit by (apply N.mod_lt; lia).
  cbn [default]. unfold id. f_equal.
  pose proof (N.div_mod x 10 ltac:(lia)) as E. apply (f_equal Z.of_N) in E.
  rewrite N2Z.inj_add, N2Z.inj_mul in E. change (Z.of_N 10) with 10 in E.
  symmetry. exact E.
Qed.

Lemma pretty_N_go_nonempty (x : N) s :
  (0 < x)%N → pretty_N_go x s ≠ EmptyString.
Proof.
  revert s. induction (N.lt_wf_0 x) as [x _ IH]; intros s Hx.
  rewrite pretty_N_go_step by exact Hx.
  destruct (N.eq_dec (x `div` 10)%N 0%N) as [E|E].
  - rewrite E, pretty_N_go_0. discriminate.
  - apply IH; [apply N.div_lt; lia | now apply N.neq_0_lt_0].
Qed.

(** The decimal text of a natural number is a non-empty digit string that
    reads back as the number. *)
Lemma pretty_N_digits (x : N) :
  all_digits (pretty x) = true ∧ pretty x ≠ EmptyString ∧
  digits_value 0 (pretty x) = Z.of_N x.
Proof.
  unfold pretty, pretty_N. destruct (decide (x = 0%N)) as [->|Hx].
  - repeat split. discriminate.
  - split; [now apply pretty_N_go_all_digits|]. split.
    + apply pretty_N_go_nonempty. lia.
    + apply pretty_N_go_value.
Qed.


Lemma all_digits_plain s : all_digits s = true → plain s = true.
Proof.
  induction s as [|c r IH]; [reflexivity|]. cbn [all_digits plain]. intros H.
  apply andb_true_iff in H as [Hc Hr]. apply bool_decide_eq_true in Hc as [d Hd].
  destruct (digit_not_special c d Hd) as (-> & _ & -> & _). now rewrite IH.
Qed.

Lemma lstrip_plain s : plain s = true → lstrip s = s.
Proof.
  destruct s as [|c r]; [reflexivity|]. cbn [plain lstrip]. intros H.
  apply andb_true_iff in H as [H _]. apply andb_true_iff in H as [H _].
  apply negb_true_iff in H. now rewrite H.
Qed.

Lemma rev_app_plain s t : plain s = true → plain t = true → plain (String.rev_app s t) = true.
Proof.
  revert t. induction s as [|c r IH]; intros t Hs Ht; [exact Ht|].
  cbn [plain] in Hs. apply andb_true_iff in Hs as [Hc Hr].
  cbn [String.rev_app]. apply IH; [exact Hr|]. cbn [plain]. now rewrite Hc, Ht.
Qed.

Lemma rev_app_rev_app s t u :
  String.rev_app (String.rev_app s t) u = String.rev_app t (s +:+ u).
Proof.
  revert t u. induction s as [|c r IH]; intros t u; [reflexivity|].
  cbn [String.rev_app]. rewrite IH. reflexivity.
Qed.

Lemma strip_plain s : plain s = true → strip s = s.
Proof.
  intros H. unfold strip. rewrite (lstrip_plain s H).
  rewrite lstrip_plain by (now apply rev_app_plain).
  unfold String.rev. rewrite rev_app_rev_app. cbn [String.rev_app].
  clear H. induction s as [|c r IH]; [reflexivity|].
  change (String c (r +:+ EmptyString) = String c r). now rewrite IH.
Qed.

Lemma until_colon_plain s : plain s = true → until_colon s = s.
Proof.
  induction s as [|c r IH]; [reflexivity|]. cbn [plain until_colon]. intros H.
  apply andb_true_iff in H as [H Hr]. apply andb_true_iff in H as [_ H].
  apply negb_true_iff in H. rewrite H. now rewrite IH.
Qed.

Lemma substring_all s : String.substring 0 (String.length s) s = s.
Proof. induction s as [|c r IH]; [reflexivity|]. cbn. now rewrite IH. Qed.

(** [int] of a digit string, and of a minus sign before one. *)
Lemma py_int_digits s :
  all_digits s = true → s ≠ EmptyString → py_int s = Some (digits_value 0 s).
Proof.
  intros Hs Hne. unfold py_int. rewrite strip_plain by (now apply all_digits_plain).
  destruct s as [|c r]; [contradiction|].
  pose proof Hs as Hc. cbn [all_digits] in Hc. apply andb_true_iff in Hc as [Hc _].
  apply bool_decide_eq_true in Hc as [d Hd].
  destruct (digit_not_special c d Hd) as (_ & _ & _ & Hplus & Hminus & _).
  transitivity (digits 0 false (String c r)).
  - destruct c as [[] [] [] [] [] [] [] []]; try reflexivity; exfalso;
      first [ apply Hplus; reflexivity | apply Hminus; reflexivity ].
  - apply digits_all_digits; [exact Hs | now left].
Qed.

Lemma py_int_minus_digits s :
  all_digits s = true → s ≠ EmptyString →
  py_int (String "-" s) = Some (- digits_value 0 s).
Proof.
  intros Hs Hne. unfold py_int.
  rewrite strip_plain by (cbn [plain]; now rewrite all_digits_plain).
  rewrite digits_all_digits by (auto). reflexivity.
Qed.

Lemma py_int_pretty (t : Z) : py_int (pretty t) = Some t ∧ plain (pretty t) = true.
Proof.
  unfold pretty, pretty_Z. destruct t as [|p|p].
  - split; reflexivity.
  - destruct (pretty_N_digits (N.pos p)) as (H1 & H2 & H3).
    change (pretty p) with (pretty (N.pos p)). split.
    + rewrite py_int_digits by assumption. now rewrite H3.
    + now apply all_digits_plain.
  - destruct (pretty_N_digits (N.pos p)) as (H1 & H2 & H3).
    change (pretty p) with (pretty (N.pos p)). split.
    + change ("-" +:+ pretty (N.pos p)) with (String "-" (pretty (N.pos p))).
      rewrite py_int_minus_digits by assumption. now rewrite H3.
    + change ("-" +:+ pretty (N.pos p)) with (String "-" (pretty (N.pos p))).
      cbn [plain]. now rewrite all_digits_plain.
Qed.

(** X1. The comment that [_copy_new_order] writes for a master ticket,
    [Copy:<ticket>], is decoded by [_cleanup_orphaned_orders] to that same
    ticket, for every integer ticket. *)
Theorem copy_comment_round_trip (t : Z) : copy_ticket (copy_comment t) = Some t.
Proof.
  destruct (py_int_pretty t) as [Hint Hplain].
  unfold copy_ticket, copy_comment.
  change ("Copy:" +:+ pretty t)
    with (String "C" (String "o" (String "p" (String "y" (String ":" (pretty t)))))).
  assert (Hprefix : String.prefix "Copy:"
            (String "C" (String "o" (String "p" (String "y" (String ":" (pretty t)))))) = true).
  { cbn. now destruct (pretty t). }
  rewrite Hprefix. unfold drop_prefix.
  cbn [String.length Nat.sub String.substring].
  rewrite Nat.sub_0_r, substring_all, until_colon_plain by assumption. exact Hint.
Qed.

(** ** What the change detector reports *)

Lemma filter_nil_iff {A} (f : A -> bool) (l : list A) :
  List.filter f l = [] ↔ ∀ x, In x l → f x = false.
Proof.
  split; [|apply filter_none].
  induction l as [|x l IH]; intros H y Hy; [contradiction|].
  cbn [List.filter] in H. destruct (f x) eqn:E; [discriminate|].
  destruct Hy as [<-|Hy]; [exact E | now apply IH].
Qed.

(** X2. The detector reports no change exactly when the two snapshots hold
    the same tickets and no order of the current one counts as changed
    against the last one. *)
Theorem no_changes_iff (last current : gmap Z OrderInfo) (master_orders : list OrderInfo) :
  has_changes (detect_master_changes last current master_orders) = false ↔
  dom current = dom last ∧
  ∀ t o, current !! t = Some o → has_master_order_changed last o = false.
Proof.
  rewrite detect_has_changes. unfold new_orders, removed_orders, modified_count.
  rewrite !orb_false_iff, !negb_false_iff, !bool_decide_eq_true, Nat.ltb_ge.
  split.
  - intros [[Hnew Hremoved] Hmod].
    assert (Hdom : dom current = dom last).
    { apply set_eq. intros x. split; intros Hx.
      - destruct (decide (x ∈ dom last)) as [|Hn]; [assumption|].
        assert (x ∈ dom current ∖ dom last) as Hd by (apply elem_of_difference; auto).
        rewrite Hnew in Hd. now apply elem_of_empty in Hd.
      - destruct (decide (x ∈ dom current)) as [|Hn]; [assumption|].
        assert (x ∈ dom last ∖ dom current) as Hd by (apply elem_of_difference; auto).
        rewrite Hremoved in Hd. now apply elem_of_empty in Hd. }
    split; [exact Hdom|]. intros t o Ho.
    assert (Hlen : List.filter
              (fun t => match current !! t with
                        | Some current_order => has_master_order_changed last current_order
                        | None => false
                        end) (elements (dom current ∩ dom last)) = []).
    { destruct (List.filter _ _); [reflexivity | cbn [length] in Hmod; lia]. }
    apply (proj1 (filter_nil_iff _ _)) with (x := t) in Hlen.
    + now rewrite Ho in Hlen.
    + apply list_elem_of_In, elem_of_elements. rewrite <- Hdom.
      apply elem_of_intersection. split; apply elem_of_dom; eauto.
  - intros [Hdom Hall]. rewrite Hdom. split; [split; apply difference_diag_L|].
    rewrite filter_none; [reflexivity|]. intros t _.
    destruct (current !! t) as [o|] eqn:Ho; [eauto | reflexivity].
Qed.

(** ** Copying a new order *)

Section Copying.
Context {W : Type} (T : Terminal W).

(** Sizing only talks to the terminal. *)
Lemma calculate_lot_size_state v cfg sym (s : Sys W) :
  ∃ w, (calculate_lot_size T v cfg sym s).2 = with_world w s.
Proof.
  destruct s. unfold calculate_lot_size, policy_lot, bind, call, ret.
  repeat first [ progress cbn beta iota delta [fst snd world with_world] | case_match ];
    eexists; reflexivity.
Qed.

Ltac copy_sized :=
  match goal with
  | |- context [calculate_lot_size T ?v ?c ?sym ?st] =>
      let w := fresh "w" in
      let Hw := fresh "Hw" in
      let sized := fresh "sized" in
      let s1 := fresh "s" in
      destruct (calculate_lot_size_state v c sym st) as [w Hw];
      destruct (calculate_lot_size T v c sym st) as [sized s1];
      cbn [snd] in Hw; subst s1
  end.

(** X3. The request of a copy: the master's type, price, stop-loss and
    take-profit, the mapped symbol, the volume that [calculate_lot_size]
    gives for it, the comment [Copy:<ticket>] and the follower's magic
    number.  [_copy_new_order] issues that one create, or nothing. *)
Theorem copy_new_order_request (master_order : OrderInfo) (cfg : FollowerConfig) (s : Sys W) :
  let symbol := map_symbol (symbol master_order) cfg in
  let looked_up := (call (get_symbol_info T symbol (login cfg)) s).2 in
  let s' := (copy_new_order T master_order cfg s).2 in
  log s' = log s ∨
  log s' = log s ++
    [ACreate (login cfg) (ticket master_order)
       {| req_symbol := symbol; req_order_type := order_type master_order;
          req_volume := (calculate_lot_size T (volume master_order) cfg symbol looked_up).1;
          req_price := price master_order; req_sl := sl master_order;
          req_tp := tp master_order; req_comment := copy_comment (ticket master_order);
          req_magic := magic_number cfg |}].
Proof.
  cbv zeta. unfold copy_new_order, bind, call, emit, get_state, set_follower_orders, ret.
  cbn [fst snd].
  destruct (get_symbol_info T _ _ (world s)).1; [|left; reflexivity]. right.
  copy_sized.
  repeat first [ progress cbn beta iota delta
                   [fst snd log world with_world with_log with_follower_orders]
               | case_match ]; reflexivity.
Qed.



End Copying.



(** ** Linked pairs *)

Section Linked.
Context {W : Type} (T : Terminal W).

(** X6. A linked follower ticket that is gone from the follower's own live
    orders, while the master order is still open, is taken for a manual
    close: the pair is recorded, its link and its status entry are dropped,
    the links of the other followers stay, and nothing is issued. *)
Theorem manual_close_is_detected (master_order : OrderInfo) (cfg : FollowerConfig)
    (live : list (Z * MtOrder)) (follower_ticket : Z) (s : Sys W) :
  link s (ticket master_order) (login cfg) = Some follower_ticket →
  PyDict.get follower_ticket live = None →
  let s' := (process_master_order T master_order cfg live s).2 in
  log s' = log s ∧ world s' = world s ∧
  recorded_pair (ticket master_order) (login cfg) s' ∧
  link s' (ticket master_order) (login cfg) = None ∧
  (∀ f, f ≠ login cfg → link s' (ticket master_order) f = link s (ticket master_order) f) ∧
  order_sync_status s' !! ticket master_order ≫= (fun st => st !! login cfg) = None.
Proof.
  unfold link. intros Hlink Hgone. cbv zeta.
  unfold process_master_order, bind, get_state. cbn [fst snd].
  destruct (PyDict.get (ticket master_order) (follower_orders s)) as [followers|] eqn:Hrow;
    [|discriminate].
  cbn [mbind option_bind] in Hlink. rewrite Hlink, Hgone.
  unfold mark_manually_closed, bind, get_state, set_manually_closed. cbn [fst snd].
  assert (Hrec : login cfg ∈ default ∅
            (<[ticket master_order :=
                 default ∅ (manually_closed s !! ticket master_order) ∪ {[login cfg]}]>
               (manually_closed s) !! ticket master_order)).
  { rewrite lookup_insert_eq. simpl. apply elem_of_union_r. now apply elem_of_singleton. }
  unfold recorded_pair.
  destruct (bool_decide (delete (login cfg) followers = ∅)) eqn:D;
    unfold set_follower_orders, set_order_sync_status;
    cbn [fst snd log world follower_orders order_sync_status manually_closed
         with_manually_closed with_follower_orders with_order_sync_status].
  - apply bool_decide_eq_true in D.
    split; [reflexivity|]. split; [reflexivity|]. split; [exact Hrec|].
    rewrite get_del_eq. split; [reflexivity|]. split.
    + intros f Hf. cbn [mbind option_bind].
      rewrite <- (lookup_delete_ne followers (login cfg) f) by auto.
      now rewrite D, lookup_empty.
    + now rewrite lookup_delete_eq.
  - split; [reflexivity|]. split; [reflexivity|]. split; [exact Hrec|].
    rewrite get_set_eq. cbn [mbind option_bind]. rewrite lookup_delete_eq.
    split; [reflexivity|]. split.
    + intros f Hf. cbn [mbind option_bind]. now rewrite lookup_delete_ne.
    + destruct (order_sync_status s !! ticket master_order) as [st|] eqn:Hst.
      * rewrite lookup_insert_eq. cbn [mbind option_bind]. apply lookup_delete_eq.
      * now rewrite Hst.
Qed.

(** X7. A linked pair whose follower order is live and whose master order is
    within the tolerance of the last snapshot gets no modify call, however
    far the follower's copy has drifted; the pair is marked as synced and
    the links stay. *)
Theorem unchanged_master_is_not_pushed (master_order last_order : OrderInfo)
    (cfg : FollowerConfig) (live : list (Z * MtOrder)) (follower_ticket : Z)
    (follower_order : MtOrder) (s : Sys W) :
  link s (ticket master_order) (login cfg) = Some follower_ticket →
  PyDict.get follower_ticket live = Some follower_order →
  last_master_state s !! ticket master_order = Some last_order →
  within_tolerance master_order last_order →
  let s' := (process_master_order T master_order cfg live s).2 in
  log s' = log s ∧ world s' = world s ∧ follower_orders s' = follower_orders s ∧
  order_sync_status s' !! ticket master_order ≫= (fun st => st !! login cfg)
    = Some "synced"%string.
Proof.
  unfold link. intros Hlink Hlive Hlast Hsame. cbv zeta.
  unfold process_master_order, bind, get_state. cbn [fst snd].
  destruct (PyDict.get (ticket master_order) (follower_orders s)) as [followers|] eqn:Hrow;
    [|discriminate].
  cbn [mbind option_bind] in Hlink. rewrite Hlink, Hlive.
  rewrite (within_tolerance_unchanged _ _ _ Hlast Hsame).
  unfold mark_synced, bind, get_state, set_order_sync_status, ret.
  cbn [fst snd log world follower_orders order_sync_status with_order_sync_status].
  repeat split. rewrite lookup_insert_eq. cbn [mbind option_bind]. apply lookup_insert_eq.
Qed.

End Linked.

Lemma manual_close_is_detected_witness :
  let s' := (process_master_order (scripted Boundary.script) (Boundary.master_with_sl (1 # 2))
               Boundary.follower [] Boundary.linked).2 in
  log s' = log Boundary.linked ∧ world s' = world Boundary.linked ∧
  recorded_pair 100 1 s' ∧ link s' 100 1 = None ∧
  (∀ f, f ≠ 1 → link s' 100 f = link Boundary.linked 100 f) ∧
  order_sync_status s' !! 100 ≫= (fun st => st !! 1) = None.
Proof.
  apply (manual_close_is_detected (scripted Boundary.script) (Boundary.master_with_sl (1 # 2))
           Boundary.follower [] 500 Boundary.linked); reflexivity.
Defined.

Lemma unchanged_master_is_not_pushed_witness :
  let s' := (process_master_order (scripted Boundary.script) (Boundary.master_with_sl (1 # 2))
               Boundary.follower [(500, Boundary.copy)] Boundary.linked).2 in
  delta_exceeds (or_zero (sl (Boundary.master_with_sl (1 # 2)))) (or_zero (mt_sl Boundary.copy)) ∧
  log s' = log Boundary.linked ∧ world s' = world Boundary.linked ∧
  follower_orders s' = follower_orders Boundary.linked ∧
  order_sync_status s' !! 100 ≫= (fun st => st !! 1) = Some "synced"%string.
Proof.
  split; [reflexivity|].
  apply (unchanged_master_is_not_pushed (scripted Boundary.script)
           (Boundary.master_with_sl (1 # 2)) (Boundary.master_with_sl (1 # 2))
           Boundary.follower [(500, Boundary.copy)] 500 Boundary.copy Boundary.linked).
  - reflexivity.
  - reflexivity.
  - reflexivity.
  - apply within_tolerance_refl with (p := (11 # 10)%Q). reflexivity.
Defined.

(** ** The shape of the link table *)

Lemma keys_set_In {V} k k' (v : V) d :
  In k' (PyDict.keys (PyDict.set k v d)) → k' = k ∨ In k' (PyDict.keys d).
Proof.
  unfold PyDict.keys. induction d as [|[k0 v0] d IH]; cbn [PyDict.set map fst In].
  - intros [<-|[]]. now left.
  - destruct (k =? k0) eqn:E; cbn [map fst In].
    + intros [<-|H]; auto.
    + intros [<-|H]; auto. destruct (IH H); auto.
Qed.

Lemma keys_del_In {V} k k' (d : list (Z * V)) :
  In k' (PyDict.keys (PyDict.del k d)) → In k' (PyDict.keys d).
Proof.
  unfold PyDict.keys. induction d as [|[k0 v0] d IH]; cbn [PyDict.del map fst In]; [auto|].
  destruct (k =? k0); cbn [map fst In]; intuition.
Qed.

Lemma set_well_formed k v links :
  v ≠ ∅ → rows_well_formed links → rows_well_formed (PyDict.set k v links).
Proof.
  intros Hv [Hkeys Hrows]. split; [|now apply set_Forall].
  clear Hrows. unfold PyDict.keys in *.
  induction links as [|[k0 v0] d IH]; cbn [PyDict.set map fst] in *.
  - apply NoDup_cons. split; [apply not_elem_of_nil | apply NoDup_nil_2].
  - apply NoDup_cons in Hkeys as [Hk0 Hd].
    destruct (k =? k0) eqn:E.
    + apply Z.eqb_eq in E as ->. apply NoDup_cons. auto.
    + apply Z.eqb_neq in E. cbn [map fst]. apply NoDup_cons. split; [|now apply IH].
      intros Hin. apply list_elem_of_In, (keys_set_In k k0 v d) in Hin as [->|Hin];
        [congruence|]. apply Hk0. now apply list_elem_of_In.
Qed.

Lemma del_well_formed k links :
  rows_well_formed links → rows_well_formed (PyDict.del k links).
Proof.
  intros [Hkeys Hrows]. unfold rows_well_formed, PyDict.keys in *.
  induction links as [|[k0 v0] d IH]; cbn [PyDict.del map fst] in *; [auto|].
  apply NoDup_cons in Hkeys as [Hk0 Hd]. apply Forall_cons in Hrows as [Hv0 Hrows].
  destruct (IH Hd Hrows) as [IH1 IH2].
  destruct (k =? k0); [auto|]. cbn [map fst]. split.
  - apply NoDup_cons. split; [|exact IH1]. intros Hin. apply Hk0.
    apply list_elem_of_In. apply list_elem_of_In in Hin. now apply (keys_del_In k k0 d).
  - now constructor.
Qed.

Section LinkTable.
Context {W : Type} (T : Terminal W).

Local Abbreviation shaped := (fun s : Sys W => rows_well_formed (follower_orders s)).
Local Abbreviation any := (fun _ : Action => True).

Lemma copy_unless_manually_closed_shaped master_order cfg (s : Sys W) :
  shaped s → wp (copy_unless_manually_closed T master_order cfg) any (fun _ => shaped) s.
Proof.
  intros H. unfold copy_unless_manually_closed, copy_new_order.
  wp_prim. wp_prim. wp_prim; [wp_steps; exact H|].
  wp_prim. wp_prim. wp_prim; [|wp_steps; exact H]. wp_prim.
  eapply wp_weaken with (P := any) (Q := fun _ => shaped); [| auto |].
  { unfold calculate_lot_size, policy_lot. wp_steps; exact H. }
  cbv beta. intros v s' H'. wp_prim. apply wp_emit; [exact I|].
  wp_prim. wp_prim. wp_prim; [|wp_steps; exact H']. wp_prim; [wp_steps; exact H'|].
  wp_prim. wp_prim. wp_prim.
  cbn [follower_orders with_follower_orders with_world with_log].
  apply set_well_formed; [apply insert_non_empty | exact H'].
Qed.

Lemma mark_manually_closed_shaped master_ticket cfg followers (s : Sys W) :
  shaped s → wp (mark_manually_closed master_ticket cfg followers) any (fun _ => shaped) s.
Proof.
  intros H. unfold mark_manually_closed. wp_prim. wp_prim. wp_prim. wp_prim. cbv zeta.
  wp_prim.
  - wp_prim. wp_prim. wp_prim. now apply del_well_formed.
  - wp_prim. wp_prim. wp_prim.
    match goal with E : bool_decide _ = false |- _ => apply bool_decide_eq_false in E end.
    now apply set_well_formed.
Qed.

Lemma process_master_order_shaped master_order cfg live (s : Sys W) :
  shaped s → wp (process_master_order T master_order cfg live) any (fun _ => shaped) s.
Proof.
  intros H. unfold process_master_order. cbv zeta. wp_prim. wp_prim.
  wp_prim; [|now apply copy_unless_manually_closed_shaped].
  wp_prim; [|now apply copy_unless_manually_closed_shaped].
  wp_prim; [|now apply mark_manually_closed_shaped].
  wp_prim.
  eapply wp_weaken with (P := any) (Q := fun _ => shaped); [| auto |].
  - unfold check_order_modifications. cbv zeta.
    repeat first [ wp_prim | apply wp_emit; [exact I|] ]; exact H.
  - cbv beta. intros ? s' H'. unfold mark_synced. wp_steps; exact H'.
Qed.

Lemma close_orphan_shaped cfg entry (s : Sys W) :
  shaped s → wp (close_orphan T cfg entry) any (fun _ => shaped) s.
Proof.
  intros H. destruct entry as [[ticket order] master_ticket]. unfold close_orphan.
  wp_prim.
  eapply wp_weaken with (P := any) (Q := fun _ => shaped); [| auto |].
  - unfold close_or_cancel, issue_close, issue_cancel.
    repeat first [ wp_prim | apply wp_emit; [exact I|] ]; exact H.
  - cbv beta. intros success s' H'. wp_prim; [|wp_steps; exact H'].
    unfold untrack. wp_prim. wp_prim. wp_prim; [|wp_steps; exact H'].
    wp_prim; wp_prim.
    + now apply del_well_formed.
    + match goal with E : bool_decide _ = false |- _ => apply bool_decide_eq_false in E end.
      now apply set_well_formed.
Qed.

Lemma sync_orders_to_follower_shaped cfg master_orders (s : Sys W) :
  shaped s → wp (sync_orders_to_follower T cfg master_orders) any (fun _ => shaped) s.
Proof.
  intros H. unfold sync_orders_to_follower. wp_prim. wp_prim. wp_prim; [wp_steps; exact H|].
  wp_prim. unfold fetch_live. do 6 wp_prim.
  eapply wp_weaken with (P := any) (Q := fun _ => shaped); [| auto |].
  - apply wp_for_each with (I := shaped); [|exact H].
    intros x s' _ H'. now apply process_master_order_shaped.
  - cbv beta. intros ? s' H'. unfold cleanup_orphaned_orders. wp_prim. wp_prim.
    apply wp_for_each with (I := shaped); [|exact H'].
    intros x s'' _ H''. now apply close_orphan_shaped.
Qed.

Lemma run_copy_cycle_shaped config (s : Sys W) :
  shaped s → wp (run_copy_cycle T config) any (fun _ => shaped) s.
Proof.
  intros H. unfold run_copy_cycle. wp_prim. wp_prim. wp_prim. wp_prim. wp_prim.
  eapply wp_weaken with (P := any) (Q := fun _ => shaped); [| auto |].
  { unfold get_master_orders. wp_steps; exact H. }
  cbv beta. intros master_orders s' H'. unfold reconcile. cbv zeta. wp_prim. wp_prim.
  wp_prim; [wp_steps; exact H'|].
  wp_prim. eapply wp_weaken with (P := any) (Q := fun _ => shaped); [| auto |].
  { unfold sync_followers. destruct master_orders.
    - apply wp_for_each with (I := shaped); [|exact H']. intros cfg s'' _ H''.
      wp_prim; [now apply sync_orders_to_follower_shaped | wp_steps; exact H''].
    - apply wp_for_each with (I := shaped); [|exact H']. intros cfg s'' _ H''.
      wp_prim; [wp_steps; exact H'' | now apply sync_orders_to_follower_shaped]. }
  cbv beta. intros ? s'' H''. wp_steps; exact H''.
Qed.

(** X8. The link table keeps its shape over any number of cycles: one row
    for each master ticket, and no row left without a follower (a row is
    deleted with its last link). *)
Theorem link_table_stays_well_formed (config : Config) (n : nat) (s : Sys W) :
  rows_well_formed (follower_orders s) →
  rows_well_formed (follower_orders (run_cycles T config n s).2).
Proof.
  intros H.
  assert (Hwp : wp (run_cycles T config n) any (fun _ => shaped) s).
  { revert s H. induction n as [|n IH]; intros s H; simpl.
    - now apply wp_ret.
    - apply wp_bind. eapply wp_weaken; [now apply run_copy_cycle_shaped | auto |].
      cbv beta. intros ? s' H'. now apply IH. }
  destruct Hwp as (_ & _ & _ & Hs). exact Hs.
Qed.

End LinkTable.

Lemma link_table_stays_well_formed_witness :
  rows_well_formed (follower_orders Orphan.before) ∧
  rows_well_formed
    (follower_orders (run_cycles (scripted Orphan.position_script) Orphan.config 2
                        Orphan.before).2).
Proof.
  assert (H : rows_well_formed (follower_orders Orphan.before)).
  { split.
    - apply NoDup_cons. split; [apply not_elem_of_nil | apply NoDup_nil_2].
    - constructor; [|constructor]. cbn [snd]. apply insert_non_empty. }
  split; [exact H|].
  exact (link_table_stays_well_formed (scripted Orphan.position_script) Orphan.config 2
           Orphan.before H).
Defined.

(** ** What the cleanup closes *)

Lemma orders_to_close_orphans master_orders live cfg links e :
  In e (orders_to_close master_orders live cfg links) →
  orphan_ticket master_orders live cfg links e.1.1.
Proof.
  intros Hin. unfold orders_to_close in Hin. apply in_app_or in Hin as [Hin|Hin].
  - unfold orphans_by_comment in Hin. apply in_flat_map in Hin as ([k o] & Hko & Hin).
    destruct (negb (mt_magic o =? magic_number cfg)) eqn:Hmagic; [contradiction|].
    destruct (mt_comment o) as [c|] eqn:Hc; [|contradiction].
    destruct (copy_ticket c) as [mt|] eqn:Hmt; [|contradiction].
    destruct (bool_decide _) eqn:Hgone; [contradiction|].
    destruct Hin as [<-|[]]. cbn [fst snd]. exists o, mt.
    apply bool_decide_eq_false in Hgone. rewrite elem_of_list_to_set in Hgone.
    split; [exact Hgone|]. split; [exact Hko|]. left.
    apply negb_false_iff, Z.eqb_eq in Hmagic. split; [exact Hmagic|].
    rewrite Hc. exact Hmt.
  - unfold orphans_by_link in Hin. apply in_flat_map in Hin as ([mt followers] & Hrow & Hin).
    destruct (bool_decide _) eqn:Hgone; [contradiction|].
    destruct (followers !! login cfg) as [ft|] eqn:Hft; [|contradiction].
    destruct (PyDict.get ft live) as [o|] eqn:Ho; [|contradiction].
    destruct Hin as [<-|[]]. cbn [fst snd]. exists o, mt.
    apply bool_decide_eq_false in Hgone. rewrite elem_of_list_to_set in Hgone.
    split; [exact Hgone|]. split; [now apply get_Some_In|]. right. eauto.
Qed.

Section CleanupTargets.
Context {W : Type} (T : Terminal W).

(** X9. Every action of [_cleanup_orphaned_orders] is a close or a cancel,
    for the follower being synchronised, of a ticket of the pass's order
    set for which a master ticket missing from the snapshot is named by the
    order's comment, under the follower's magic number, or by a link of the
    follower. *)
Theorem cleanup_closes_only_orphans (master_orders : list OrderInfo)
    (live : list (Z * MtOrder)) (cfg : FollowerConfig) (s : Sys W) :
  ∃ issued,
    log (cleanup_orphaned_orders T master_orders live cfg s).2 = log s ++ issued ∧
    Forall (fun a => ∃ follower_ticket,
              orphan_ticket master_orders live cfg (follower_orders s) follower_ticket ∧
              (a = AClose (login cfg) follower_ticket ∨
               a = ACancel (login cfg) follower_ticket)) issued.
Proof.
  unfold cleanup_orphaned_orders, bind, get_state. cbn [fst snd].
  assert (Horphan : ∀ e, In e (orders_to_close master_orders live cfg (follower_orders s)) →
            orphan_ticket master_orders live cfg (follower_orders s) e.1.1)
    by apply orders_to_close_orphans.
  destruct (closing_loop_issues T cfg
              (orders_to_close master_orders live cfg (follower_orders s)) s)
    as (issued & Hlog & Hall).
  exists issued. split; [exact Hlog|]. clear Hlog.
  induction Hall as [|e a entries issued Hea Hall IH]; constructor.
  - exists e.1.1. split; [apply Horphan; now left | exact Hea].
  - apply IH. intros e' He'. apply Horphan. now right.
Qed.

End CleanupTargets.

(** ** The master snapshot *)

Lemma mapM_fields {A B} (f : A -> option B) (l : list A) (r : list B) :
  mapM f l = Some r → Forall2 (fun x y => f x = Some y) l r.
Proof.
  revert r. induction l as [|x l IH]; intros r H.
  - cbn in H. injection H as <-. constructor.
  - cbn in H. destruct (f x) as [y|] eqn:Hy; [|discriminate]. cbn in H.
    destruct (mapM f l) as [r'|]; [|discriminate]. cbn in H. injection H as <-.
    constructor; auto.
Qed.

Lemma mapM_complete {A B} (f : A -> option B) (l : list A) :
  Forall (fun x => is_Some (f x)) l → is_Some (mapM f l).
Proof.
  induction 1 as [|x l [y Hy] _ [r Hr]]; [now eexists|].
  exists (y :: r). cbn. rewrite Hy. cbn. rewrite Hr. reflexivity.
Qed.

Lemma Forall2_map_eq {A B C} (R : A -> B -> Prop) (f : A -> C) (g : B -> C) l r :
  (∀ x y, R x y → f x = g y) → Forall2 R l r → map f l = map g r.
Proof.
  intros H. induction 1 as [|x y l r Hxy _ IH]; [reflexivity|].
  cbn [map]. now rewrite (H x y Hxy), IH.
Qed.

Section Snapshot.
Context {W : Type} (T : Terminal W).

(** X10. When the master account connects and every order and position read
    from it carries its attributes, the snapshot lists the pending orders and
    then the positions, one entry each, under their own tickets and with
    their own volumes; a pending order keeps its state and every position is
    given the state FILLED. *)
Theorem master_snapshot_lists_orders_then_positions (config : Config) (s : Sys W) :
  let connected := connect_account T (master_account config) (world s) in
  let pending := orders_get T connected.2 in
  let positions := positions_get T pending.2 in
  connected.1 = true →
  Forall complete pending.1 →
  Forall complete positions.1 →
  let orders := (get_master_orders T config s).1 in
  map ticket orders = map mt_ticket pending.1 ++ map mt_ticket positions.1 ∧
  map volume orders = map mt_volume pending.1 ++ map mt_volume positions.1 ∧
  map state orders = map mt_state pending.1 ++ map (fun _ => FILLED) positions.1.
Proof.
  cbv zeta. intros Hconn Hpending Hpositions.
  unfold get_master_orders, bind, call, ret. cbn [fst snd world with_world].
  rewrite Hconn. cbn [negb fst snd world with_world].
  set (pending := orders_get T (connect_account T (master_account config) (world s)).2) in *.
  set (positions := positions_get T pending.2) in *.
  destruct (mapM_complete order_info_of_pending pending.1) as [l1 H1].
  { eapply Forall_impl; [exact Hpending|]. intros o ([t Ht] & [p Hp] & [c Hc]).
    unfold order_info_of_pending. rewrite Ht, Hp, Hc. now eexists. }
  destruct (mapM_complete order_info_of_position positions.1) as [l2 H2].
  { eapply Forall_impl; [exact Hpositions|]. intros o ([t Ht] & [p Hp] & [c Hc]).
    unfold order_info_of_position. rewrite Ht, Hp, Hc. now eexists. }
  rewrite H1. cbn [fst snd world with_world]. fold positions. rewrite H2. cbn [fst].
  apply mapM_fields in H1, H2. rewrite !map_app.
  assert (Hf1 : ∀ x y, order_info_of_pending x = Some y →
            ticket y = mt_ticket x ∧ volume y = mt_volume x ∧ state y = mt_state x).
  { intros x y. unfold order_info_of_pending.
    destruct (mt_type x), (mt_price_open x), (mt_comment x); try discriminate.
    cbn. intros [= <-]. auto. }
  assert (Hf2 : ∀ x y, order_info_of_position x = Some y →
            ticket y = mt_ticket x ∧ volume y = mt_volume x ∧ state y = FILLED).
  { intros x y. unfold order_info_of_position.
    destruct (mt_type x), (mt_price_open x), (mt_comment x); try discriminate.
    cbn. intros [= <-]. auto. }
  repeat split; f_equal; symmetry.
  - apply (Forall2_map_eq _ mt_ticket ticket _ _ (fun x y H => eq_sym (proj1 (Hf1 x y H))) H1).
  - apply (Forall2_map_eq _ mt_ticket ticket _ _ (fun x y H => eq_sym (proj1 (Hf2 x y H))) H2).
  - apply (Forall2_map_eq _ mt_volume volume _ _
             (fun x y H => eq_sym (proj1 (proj2 (Hf1 x y H)))) H1).
  - apply (Forall2_map_eq _ mt_volume volume _ _
             (fun x y H => eq_sym (proj1 (proj2 (Hf2 x y H)))) H2).
  - apply (Forall2_map_eq _ mt_state state _ _
             (fun x y H => eq_sym (proj2 (proj2 (Hf1 x y H)))) H1).
  - apply (Forall2_map_eq _ (fun _ => FILLED) state _ _
             (fun x y H => eq_sym (proj2 (proj2 (Hf2 x y H)))) H2).
Qed.

End Snapshot.

Lemma master_snapshot_lists_orders_then_positions_witness :
  let orders := (get_master_orders (scripted Steady.script) Steady.config
                   (initial_state (desk 9))).1 in
  map ticket orders = [] ++ [100] ∧
  map volume orders = [] ++ [1%Q] ∧
  map state orders = [] ++ [FILLED].
Proof.
  apply (master_snapshot_lists_orders_then_positions (scripted Steady.script) Steady.config
           (initial_state (desk 9))).
  - reflexivity.
  - constructor.
  - constructor; [|constructor]. repeat split; eexists; reflexivity.
Defined.

(** ** Sizing: the fallbacks *)

Section SizingFallbacks.
Context {W : Type} (T : Terminal W).

(** X11. Risk-based sizing is the multiplier policy under another name: two
    configurations that differ only in naming one or the other size every
    order alike. *)
Theorem risk_based_sizes_as_multiplier (master_volume : Q) (cfg cfg' : FollowerConfig)
    (symbol : string) (s : Sys W) :
  lot_calculation cfg = "risk_based"%string →
  lot_calculation cfg' = "multiplier"%string →
  login cfg' = login cfg → lot_value cfg' = lot_value cfg →
  min_lot cfg' = min_lot cfg → max_lot cfg' = max_lot cfg →
  calculate_lot_size T master_volume cfg symbol s =
  calculate_lot_size T master_volume cfg' symbol s.
Proof.
  intros Hr Hm Hlogin Hvalue Hmin Hmax.
  destruct cfg as [l1 c1 v1 hi1 lo1 sm1 mg1 e1], cfg' as [l2 c2 v2 hi2 lo2 sm2 mg2 e2].
  cbn [login lot_calculation lot_value min_lot max_lot] in *. subst.
  reflexivity.
Qed.

(** X12. A symbol whose volume step is zero makes the rounding divide by
    zero: the handler returns the master's volume as it is, neither scaled
    by the policy nor clamped to the bounds. *)
Theorem zero_volume_step_keeps_master_volume (master_volume : Q) (cfg : FollowerConfig)
    (symbol : string) (s : Sys W) :
  (∀ w, ∃ info, (get_symbol_info T symbol (login cfg) w).1 = Some info ∧
                (volume_step info == 0)%Q) →
  (calculate_lot_size T master_volume cfg symbol s).1 = master_volume.
Proof.
  intros Hzero. unfold calculate_lot_size.
  destruct (LotCalculationType_of_string (lot_calculation cfg)); [|reflexivity].
  unfold bind at 1.
  destruct (policy_lot T l master_volume cfg symbol s) as [[lot|] s1]; [|reflexivity].
  cbn [fst snd]. unfold bind, call. cbn [fst snd].
  destruct (Hzero (world s1)) as (info & -> & Hstep).
  apply Qeq_bool_iff in Hstep. rewrite Hstep. reflexivity.
Qed.

End SizingFallbacks.

Lemma risk_based_sizes_as_multiplier_witness :
  calculate_lot_size (scripted Steady.script) 1
    {| login := 1; lot_calculation := "risk_based"; lot_value := 1 # 2; max_lot := Some 5%Q;
       min_lot := Some (1 # 100)%Q; symbol_mapping := None; magic_number := 777;
       enabled := None |} "EURUSD" (initial_state (desk 1)) =
  calculate_lot_size (scripted Steady.script) 1 Steady.follower "EURUSD" (initial_state (desk 1)).
Proof.
  apply (risk_based_sizes_as_multiplier (scripted Steady.script)); reflexivity.
Defined.

Lemma zero_volume_step_keeps_master_volume_witness :
  (calculate_lot_size
     (scripted {| sc_connect := fun _ => true; sc_pending := fun _ => [];
                  sc_positions := fun _ => [];
                  sc_symbol := fun _ =>
                    Some {| trade_contract_size := 1; trade_tick_value := 1;
                            volume_step := 0 |};
                  sc_balance := None; sc_new_ticket := None; sc_ok := true |})
     250 Steady.follower "EURUSD" (initial_state (desk 1))).1 = 250%Q.
Proof.
  apply zero_volume_step_keeps_master_volume.
  intros w. eexists. split; reflexivity.
Defined.

(** ** Whom a cycle acts for *)

Section Followers.
Context {W : Type} (T : Terminal W).

(** X13. Over any number of cycles, every action is issued for a follower
    account of the configuration that is enabled: a disabled follower gets
    no create, modify, close or cancel. *)
Theorem cycles_act_for_enabled_followers (config : Config) (n : nat) (s : Sys W) :
  ∃ issued,
    log (run_cycles T config n s).2 = log s ++ issued ∧
    Forall (fun a => ∃ cfg, In cfg (follower_accounts config) ∧ is_enabled cfg = true ∧
                            follower_of a = login cfg) issued.
Proof.
  set (P := fun a => ∃ cfg, In cfg (follower_accounts config) ∧ is_enabled cfg = true ∧
                            follower_of a = login cfg).
  assert (Hpass : ∀ cfg master_orders (s' : Sys W),
            In cfg (follower_accounts config) → is_enabled cfg = true →
            wp (sync_orders_to_follower T cfg master_orders) P (fun _ _ => True) s').
  { intros cfg master_orders s' Hin Hen.
    eapply wp_weaken; [apply sync_orders_to_follower_tagged | | auto].
    intros a Ha. exists cfg. auto. }
  assert (Hcycle : ∀ s' : Sys W, wp (run_copy_cycle T config) P (fun _ _ => True) s').
  { intros s'. unfold run_copy_cycle. wp_prim. wp_prim. wp_prim. wp_prim. wp_prim.
    eapply wp_weaken with (P := P) (Q := fun _ _ => True); [| auto |].
    { unfold get_master_orders. wp_steps; exact I. }
    cbv beta. intros master_orders s1 _. unfold reconcile. cbv zeta. wp_prim. wp_prim.
    wp_prim; [wp_steps; exact I|].
    wp_prim. eapply wp_weaken with (P := P) (Q := fun _ _ => True); [| auto |].
    { unfold sync_followers. destruct master_orders.
      - apply wp_for_each with (I := fun _ => True); [|exact I]. intros cfg s2 Hin _.
        wp_prim; [now apply Hpass | wp_steps; exact I].
      - apply wp_for_each with (I := fun _ => True); [|exact I]. intros cfg s2 Hin _.
        wp_prim; [wp_steps; exact I|]. apply Hpass; [exact Hin|].
        match goal with E : negb _ = false |- _ => now apply negb_false_iff in E end. }
    cbv beta. intros ? s2 _. wp_steps; exact I. }
  assert (Hwp : wp (run_cycles T config n) P (fun _ _ => True) s).
  { revert s. induction n as [|n IH]; intros s; simpl.
    - now apply wp_ret.
    - apply wp_bind. eapply wp_weaken; [apply Hcycle | auto |].
      cbv beta. intros ? s' _. apply IH. }
  destruct Hwp as (issued & Hlog & Hall & _). exists issued. auto.
Qed.

Lemma sync_orders_to_follower_counters cfg master_orders (c : Z) (m : gmap Z OrderInfo)
    (s : Sys W) :
  cycle_count s = c ∧ last_master_state s = m →
  wp (sync_orders_to_follower T cfg master_orders) (fun _ => True)
     (fun _ s' => cycle_count s' = c ∧ last_master_state s' = m) s.
Proof.
  intros H. unfold sync_orders_to_follower. wp_prim. wp_prim. wp_prim; [wp_steps; exact H|].
  wp_prim. unfold fetch_live. do 6 wp_prim.
  eapply wp_weaken with (P := fun _ => True)
    (Q := fun _ s' => cycle_count s' = c ∧ last_master_state s' = m); [| auto |].
  - apply wp_for_each with (I := fun s' => cycle_count s' = c ∧ last_master_state s' = m);
      [|exact H].
    intros master_order s' _ H'.
    unfold process_master_order, copy_unless_manually_closed, copy_new_order,
      calculate_lot_size, policy_lot, check_order_modifications, mark_manually_closed,
      mark_synced. cbv zeta.
    repeat first [ wp_prim | apply wp_emit; [exact I|] ]; exact H'.
  - cbv beta. intros ? s' H'. unfold cleanup_orphaned_orders. wp_prim. wp_prim.
    apply wp_for_each with (I := fun s' => cycle_count s' = c ∧ last_master_state s' = m);
      [|exact H'].
    intros [[ticket order] master_ticket] s'' _ H''.
    unfold close_orphan, close_or_cancel, issue_close, issue_cancel, untrack.
    repeat first [ wp_prim | apply wp_emit; [exact I|] ]; exact H''.
Qed.

(** X14. [n] cycles advance the cycle counter by [n], whatever the
    terminal answers and whether or not a follower pass runs: nothing but
    the increment at the start of a cycle writes it. *)
Theorem cycles_are_counted (config : Config) (n : nat) (s : Sys W) :
  cycle_count (run_cycles T config n s).2 = cycle_count s + Z.of_nat n.
Proof.
  assert (Hcycle : ∀ s' : Sys W,
            wp (run_copy_cycle T config) (fun _ => True)
               (fun _ s2 => cycle_count s2 = cycle_count s' + 1) s').
  { intros s'. unfold run_copy_cycle. wp_prim. wp_prim. wp_prim. wp_prim. wp_prim.
    eapply wp_weaken with (P := fun _ => True)
      (Q := fun _ s2 => cycle_count s2 = cycle_count s' + 1); [| auto |].
    { unfold get_master_orders. wp_steps; reflexivity. }
    cbv beta. intros master_orders s1 H1. unfold reconcile. cbv zeta. wp_prim. wp_prim.
    wp_prim; [wp_steps; exact H1|].
    wp_prim.
    eapply wp_weaken with (P := fun _ => True)
      (Q := fun _ s2 => cycle_count s2 = cycle_count s' + 1 ∧
                        last_master_state s2 = last_master_state s1); [| auto |].
    { unfold sync_followers. destruct master_orders.
      - apply wp_for_each with
          (I := fun s2 => cycle_count s2 = cycle_count s' + 1 ∧
                          last_master_state s2 = last_master_state s1); [|auto].
        intros cfg s2 _ H2.
        wp_prim; [now apply sync_orders_to_follower_counters | wp_steps; exact H2].
      - apply wp_for_each with
          (I := fun s2 => cycle_count s2 = cycle_count s' + 1 ∧
                          last_master_state s2 = last_master_state s1); [|auto].
        intros cfg s2 _ H2.
        wp_prim; [wp_steps; exact H2 | now apply sync_orders_to_follower_counters]. }
    cbv beta. intros ? s2 [H2 _]. wp_steps. exact H2. }
  revert s. induction n as [|n IH]; intros s.
  - cbn. lia.
  - cbn [run_cycles]. unfold bind at 1.
    destruct (Hcycle s) as (_ & _ & _ & H1). rewrite IH, H1. lia.
Qed.

End Followers.

(** ** The order wrappers *)

Section WrapperFacts.
Context {W : Type} (mt : Mt5 W).

Lemma send_request_sent request (w : W) :
  (Wrappers.send_request mt request w).1.2 = [request].
Proof.
  unfold Wrappers.send_request. destruct (order_send mt request w) as [[result|] w1];
    [destruct (negb _)|]; reflexivity.
Qed.

Lemma send_request_done request (w : W) result :
  (Wrappers.send_request mt request w).1.1 = Some result →
  (order_send mt request w).1 = Some result ∧ res_retcode result = TRADE_RETCODE_DONE mt.
Proof.
  unfold Wrappers.send_request. destruct (order_send mt request w) as [[r|] w1];
    [|discriminate].
  destruct (negb (res_retcode r =? TRADE_RETCODE_DONE mt)) eqn:E; [discriminate|].
  cbn [fst snd]. intros [= <-]. split; [reflexivity|].
  now apply negb_false_iff, Z.eqb_eq in E.
Qed.

Lemma send_priced_sent req price (w : W) :
  ∃ request,
    (Wrappers.send_priced mt req price w).1.2 = [request] ∧
    tr_action request = (if is_market (req_order_type req) then TRADE_ACTION_DEAL mt
                         else TRADE_ACTION_PENDING mt) ∧
    tr_deviation request = (if is_market (req_order_type req) then Some 20 else None) ∧
    tr_price request = Some price ∧
    tr_symbol request = Some (req_symbol req) ∧ tr_type request = Some (req_order_type req) ∧
    tr_volume request = Some (req_volume req) ∧
    tr_sl request = Some (req_sl req) ∧ tr_tp request = Some (req_tp req) ∧
    tr_magic request = Some (req_magic req) ∧ tr_comment request = Some (req_comment req) ∧
    tr_position request = None ∧ tr_order request = None.
Proof.
  unfold Wrappers.send_priced.
  destruct (Wrappers.get_symbol_info mt (req_symbol req) 0 w) as [info w1].
  destruct (Wrappers.get_filling_mode mt (req_symbol req) w1) as [filling w2].
  match goal with |- context [Wrappers.send_request mt ?r ?w] =>
    pose proof (send_request_sent r w) as Hsent;
    destruct (Wrappers.send_request mt r w) as [[result sent] w3]; exists r end.
  cbn [fst snd] in *. subst sent. repeat split.
Qed.

(** X15. A market order is sent as a deal at the tick: the ask for a buy,
    the bid for a sell, with a deviation of 20, whatever price the caller
    passed; the other fields go through as given. *)
Theorem market_order_goes_at_the_tick (req : OrderRequest) (tick : Tick) (w : W) :
  is_market (req_order_type req) = true →
  (symbol_info_tick mt (req_symbol req) w).1 = Some tick →
  ∃ request,
    (Wrappers.send_order mt req w).1.2 = [request] ∧
    tr_action request = TRADE_ACTION_DEAL mt ∧
    tr_deviation request = Some 20 ∧
    tr_price request =
      Some (Some (if req_order_type req =? ORDER_TYPE_BUY then tick_ask tick
                  else tick_bid tick)) ∧
    tr_symbol request = Some (req_symbol req) ∧ tr_type request = Some (req_order_type req) ∧
    tr_volume request = Some (req_volume req) ∧
    tr_sl request = Some (req_sl req) ∧ tr_tp request = Some (req_tp req) ∧
    tr_magic request = Some (req_magic req) ∧ tr_comment request = Some (req_comment req).
Proof.
  intros Hmarket Htick. unfold Wrappers.send_order.
  assert (Htype : is_order_type (req_order_type req) = true).
  { unfold is_market, is_order_type, ORDER_TYPE_BUY, ORDER_TYPE_SELL in *.
    apply orb_true_iff in Hmarket as [E|E]; apply Z.eqb_eq in E; rewrite E; reflexivity. }
  rewrite Htype, Hmarket. cbn [negb].
  destruct (symbol_info_tick mt (req_symbol req) w) as [t w1]. cbn [fst] in Htick. subst t.
  destruct (send_priced_sent req
              (Some (if req_order_type req =? ORDER_TYPE_BUY then tick_ask tick
                     else tick_bid tick)) w1) as (request & H).
  rewrite Hmarket in H. exists request. tauto.
Qed.

(** X16. A pending order is sent as such at the caller's price, without a
    deviation, and no tick is asked for. *)
Theorem pending_order_goes_at_its_price (req : OrderRequest) (w : W) :
  is_order_type (req_order_type req) = true →
  is_market (req_order_type req) = false →
  ∃ request,
    (Wrappers.send_order mt req w).1.2 = [request] ∧
    tr_action request = TRADE_ACTION_PENDING mt ∧
    tr_deviation request = None ∧
    tr_price request = Some (req_price req) ∧
    tr_symbol request = Some (req_symbol req) ∧ tr_type request = Some (req_order_type req) ∧
    tr_volume request = Some (req_volume req) ∧
    tr_sl request = Some (req_sl req) ∧ tr_tp request = Some (req_tp req) ∧
    tr_magic request = Some (req_magic req) ∧ tr_comment request = Some (req_comment req).
Proof.
  intros Htype Hmarket. unfold Wrappers.send_order. rewrite Htype, Hmarket. cbn [negb].
  destruct (send_priced_sent req (req_price req) w) as (request & H).
  rewrite Hmarket in H. exists request. tauto.
Qed.

(** X17. An order type outside the enumeration, or a market order on a symbol
    without a tick, sends nothing and gives no ticket. *)
Theorem send_order_gives_up_before_sending (req : OrderRequest) (w : W) :
  is_order_type (req_order_type req) = false ∨
  (is_market (req_order_type req) = true ∧
   (symbol_info_tick mt (req_symbol req) w).1 = None) →
  (Wrappers.send_order mt req w).1 = (None, []).
Proof.
  unfold Wrappers.send_order. intros [Htype | [Hmarket Htick]].
  - now rewrite Htype.
  - destruct (negb _); [reflexivity|]. rewrite Hmarket.
    destruct (symbol_info_tick mt (req_symbol req) w) as [t w1]. cbn [fst] in Htick.
    now subst t.
Qed.

(** X18. The ticket that [send_order] returns is the [order] of a result that
    the terminal gave, with the return code DONE, to the one request sent. *)
Theorem send_order_ticket_is_accepted (req : OrderRequest) (ticket : Z) (w : W) :
  (Wrappers.send_order mt req w).1.1 = Some ticket →
  ∃ request w' result,
    (Wrappers.send_order mt req w).1.2 = [request] ∧
    (order_send mt request w').1 = Some result ∧
    res_retcode result = TRADE_RETCODE_DONE mt ∧ res_order result = ticket.
Proof.
  assert (Hpriced : ∀ price w0,
            (Wrappers.send_priced mt req price w0).1.1 = Some ticket →
            ∃ request w' result,
              (Wrappers.send_priced mt req price w0).1.2 = [request] ∧
              (order_send mt request w').1 = Some result ∧
              res_retcode result = TRADE_RETCODE_DONE mt ∧ res_order result = ticket).
  { intros price w0. unfold Wrappers.send_priced.
    destruct (Wrappers.get_symbol_info mt (req_symbol req) 0 w0) as [info w1].
    destruct (Wrappers.get_filling_mode mt (req_symbol req) w1) as [filling w2].
    match goal with |- context [Wrappers.send_request mt ?r ?w] =>
      pose proof (send_request_sent r w) as Hsent;
      pose proof (send_request_done r w) as Hdone;
      destruct (Wrappers.send_request mt r w) as [[result sent] w3]; intros Hres;
      exists r, w end.
    cbn [fst snd] in *. subst sent. destruct result as [result|]; [|discriminate].
    cbn in Hres. injection Hres as <-. exists result.
    destruct (Hdone result eq_refl). auto. }
  unfold Wrappers.send_order. destruct (negb _); [discriminate|].
  destruct (is_market _); [|apply Hpriced].
  destruct (symbol_info_tick mt (req_symbol req) w) as [[tick|] w1]; [apply Hpriced|discriminate].
Qed.

(** X19. [modify_order] on a position sends one stop-level request for it: a
    level that the caller left out keeps the position's current value, and
    the price argument is not used. *)
Theorem modify_position_keeps_unset_levels (ticket : Z) (price sl tp : pyfloat)
    (position : MtOrder) (others : list MtOrder) (w : W) :
  (positions_get_ticket mt ticket w).1 = position :: others →
  ∃ request,
    (Wrappers.modify_order mt ticket price sl tp w).1.2 = [request] ∧
    tr_action request = TRADE_ACTION_SLTP mt ∧
    tr_position request = Some ticket ∧ tr_order request = None ∧
    tr_price request = None ∧
    tr_sl request = Some (match sl with Some _ => sl | None => mt_sl position end) ∧
    tr_tp request = Some (match tp with Some _ => tp | None => mt_tp position end).
Proof.
  intros Hpos. unfold Wrappers.modify_order.
  destruct (positions_get_ticket mt ticket w) as [l w1]. cbn [fst] in Hpos. subst l.
  match goal with |- context [Wrappers.send_request mt ?r ?w] =>
    pose proof (send_request_sent r w) as Hsent;
    destruct (Wrappers.send_request mt r w) as [[result sent] w3]; exists r end.
  cbn [fst snd] in *. subst sent. repeat split.
Qed.

(** X20. [modify_order] on a pending order sends one modification request: the
    price and the levels that the caller left out keep the order's current
    values. *)
Theorem modify_pending_keeps_unset_fields (ticket : Z) (price sl tp : pyfloat)
    (order : MtOrder) (others : list MtOrder) (price_open : pyfloat) (w : W) :
  (positions_get_ticket mt ticket w).1 = [] →
  (orders_get_ticket mt ticket (positions_get_ticket mt ticket w).2).1 = order :: others →
  mt_price_open order = Some price_open →
  ∃ request,
    (Wrappers.modify_order mt ticket price sl tp w).1.2 = [request] ∧
    tr_action request = TRADE_ACTION_MODIFY mt ∧
    tr_order request = Some ticket ∧ tr_position request = None ∧
    tr_price request = Some (match price with Some _ => price | None => price_open end) ∧
    tr_sl request = Some (match sl with Some _ => sl | None => mt_sl order end) ∧
    tr_tp request = Some (match tp with Some _ => tp | None => mt_tp order end).
Proof.
  intros Hpos Hord Hprice. unfold Wrappers.modify_order.
  destruct (positions_get_ticket mt ticket w) as [l w1]. cbn [fst snd] in Hpos, Hord. subst l.
  destruct (orders_get_ticket mt ticket w1) as [l w2]. cbn [fst] in Hord. subst l.
  rewrite Hprice.
  assert (Hgoal : ∀ request,
    tr_action request = TRADE_ACTION_MODIFY mt ∧
    tr_order request = Some ticket ∧ tr_position request = None ∧
    tr_price request = Some (match price with Some _ => price | None => price_open end) ∧
    tr_sl request = Some (match sl with Some _ => sl | None => mt_sl order end) ∧
    tr_tp request = Some (match tp with Some _ => tp | None => mt_tp order end) →
    ∃ request',
      (let '(result, sent, w) := Wrappers.send_request mt request w2 in
       (bool_decide (is_Some result), sent, w)).1.2 = [request'] ∧
      tr_action request' = TRADE_ACTION_MODIFY mt ∧
      tr_order request' = Some ticket ∧ tr_position request' = None ∧
      tr_price request' = Some (match price with Some _ => price | None => price_open end) ∧
      tr_sl request' = Some (match sl with Some _ => sl | None => mt_sl order end) ∧
      tr_tp request' = Some (match tp with Some _ => tp | None => mt_tp order end)).
  { intros request H. exists request. split; [|exact H].
    pose proof (send_request_sent request w2) as Hsent.
    destruct (Wrappers.send_request mt request w2) as [[result sent] w3]. exact Hsent. }
  destruct price; apply Hgoal; repeat split.
Qed.

(** X21. A ticket that is neither a position nor a pending order is not
    modified: nothing is sent. *)
Theorem modify_unknown_ticket_sends_nothing (ticket : Z) (price sl tp : pyfloat) (w : W) :
  (positions_get_ticket mt ticket w).1 = [] →
  (orders_get_ticket mt ticket (positions_get_ticket mt ticket w).2).1 = [] →
  (Wrappers.modify_order mt ticket price sl tp w).1 = (false, []).
Proof.
  intros Hpos Hord. unfold Wrappers.modify_order.
  destruct (positions_get_ticket mt ticket w) as [l w1]. cbn [fst snd] in Hpos, Hord. subst l.
  destruct (orders_get_ticket mt ticket w1) as [l w2]. cbn [fst] in Hord. now subst l.
Qed.

(** X22. [close_position] sends one deal against the position: the opposite
    side (a sell for a buy, a buy for anything else), the position's whole
    volume, at the bid for a buy and at the ask otherwise, under the
    position's magic number. *)
Theorem close_is_the_opposite_deal (ticket : Z) (position : MtOrder)
    (others : list MtOrder) (type : Z) (tick : Tick) (w : W) :
  (positions_get_ticket mt ticket w).1 = position :: others →
  mt_type position = Some type →
  (symbol_info_tick mt (mt_symbol position) (positions_get_ticket mt ticket w).2).1 = Some tick →
  ∃ request,
    (Wrappers.close_position mt ticket w).1.2 = [request] ∧
    tr_action request = TRADE_ACTION_DEAL mt ∧
    tr_position request = Some ticket ∧
    tr_symbol request = Some (mt_symbol position) ∧
    tr_volume request = Some (mt_volume position) ∧
    tr_magic request = Some (mt_magic position) ∧
    tr_type request =
      Some (if type =? ORDER_TYPE_BUY then ORDER_TYPE_SELL else ORDER_TYPE_BUY) ∧
    tr_price request =
      Some (Some (if type =? ORDER_TYPE_BUY then tick_bid tick else tick_ask tick)).
Proof.
  intros Hpos Htype Htick. unfold Wrappers.close_position.
  destruct (positions_get_ticket mt ticket w) as [l w1]. cbn [fst snd] in Hpos, Htick. subst l.
  rewrite Htype.
  destruct (symbol_info_tick mt (mt_symbol position) w1) as [t w2]. cbn [fst] in Htick. subst t.
  destruct (Wrappers.get_filling_mode mt (mt_symbol position) w2) as [filling w3].
  match goal with |- context [Wrappers.send_request mt ?r ?w] =>
    pose proof (send_request_sent r w) as Hsent;
    destruct (Wrappers.send_request mt r w) as [[result sent] w4]; exists r end.
  cbn [fst snd] in *. subst sent. repeat split.
Qed.

(** X23. Without the position, or without a tick for its symbol, nothing is
    sent and the close fails. *)
Theorem close_gives_up_before_sending (ticket : Z) (w : W) :
  (positions_get_ticket mt ticket w).1 = [] ∨
  (∃ position others,
     (positions_get_ticket mt ticket w).1 = position :: others ∧
     (symbol_info_tick mt (mt_symbol position) (positions_get_ticket mt ticket w).2).1 = None) →
  (Wrappers.close_position mt ticket w).1 = (false, []).
Proof.
  unfold Wrappers.close_position.
  destruct (positions_get_ticket mt ticket w) as [l w1]. cbn [fst snd].
  intros [-> | (position & others & -> & Htick)]; [reflexivity|].
  destruct (mt_type position); [|reflexivity].
  destruct (symbol_info_tick mt (mt_symbol position) w1) as [t w2]. cbn [fst] in Htick.
  now subst t.
Qed.

(** X24. [cancel_order] looks nothing up: it always sends one removal request
    for the ticket. *)
Theorem cancel_sends_one_removal (ticket : Z) (w : W) :
  ∃ request,
    (Wrappers.cancel_order mt ticket w).1.2 = [request] ∧
    tr_action request = TRADE_ACTION_REMOVE mt ∧ tr_order request = Some ticket ∧
    tr_position request = None ∧ tr_symbol request = None ∧ tr_volume request = None.
Proof.
  unfold Wrappers.cancel_order.
  match goal with |- context [Wrappers.send_request mt ?r ?w] =>
    pose proof (send_request_sent r w) as Hsent;
    destruct (Wrappers.send_request mt r w) as [[result sent] w1]; exists r end.
  cbn [fst snd] in *. subst sent. repeat split.
Qed.

Lemma checked_send request (w : W) :
  let r := (let '(result, sent, w) := Wrappers.send_request mt request w in
            (bool_decide (is_Some result), sent, w)) in
  r.1.1 = true →
  ∃ request' w' result,
    r.1.2 = [request'] ∧ (order_send mt request' w').1 = Some result ∧
    res_retcode result = TRADE_RETCODE_DONE mt.
Proof.
  cbv zeta. pose proof (send_request_sent request w) as Hsent.
  pose proof (send_request_done request w) as Hdone.
  destruct (Wrappers.send_request mt request w) as [[result sent] w1].
  cbn [fst snd] in *. subst sent. intros H. apply bool_decide_eq_true in H as [r ->].
  exists request, w, r. destruct (Hdone r eq_refl). auto.
Qed.

(** X25. A modify, a close or a cancel that reports success has sent exactly
    one request, and the terminal answered it with the return code DONE. *)
Theorem success_means_done (ticket : Z) (price sl tp : pyfloat) (w : W) :
  let accepted (r : bool * list TradeRequest * W) :=
    r.1.1 = true →
    ∃ request w' result,
      r.1.2 = [request] ∧ (order_send mt request w').1 = Some result ∧
      res_retcode result = TRADE_RETCODE_DONE mt in
  accepted (Wrappers.modify_order mt ticket price sl tp w) ∧
  accepted (Wrappers.close_position mt ticket w) ∧
  accepted (Wrappers.cancel_order mt ticket w).
Proof.
  cbv zeta. split; [|split].
  - unfold Wrappers.modify_order.
    destruct (positions_get_ticket mt ticket w) as [[|position others] w1].
    + destruct (orders_get_ticket mt ticket w1) as [[|order others] w2]; [discriminate|].
      destruct price, (mt_price_open order); try discriminate; apply checked_send.
    + apply checked_send.
  - unfold Wrappers.close_position.
    destruct (positions_get_ticket mt ticket w) as [[|position others] w1]; [discriminate|].
    destruct (mt_type position); [|discriminate].
    destruct (symbol_info_tick mt (mt_symbol position) w1) as [[tick|] w2]; [|discriminate].
    destruct (Wrappers.get_filling_mode mt (mt_symbol position) w2) as [filling w3].
    apply checked_send.
  - unfold Wrappers.cancel_order. apply checked_send.
Qed.

(** X26. The filling mode: RETURN is chosen only for a known symbol that
    allows neither FOK nor IOC, and IOC only for a known symbol that does
    not allow FOK; an unknown symbol gets FOK. *)
Theorem filling_mode_prefers_fok (symbol : string) (w : W) :
  let chosen := (Wrappers.get_filling_mode mt symbol w).1 in
  (chosen = ORDER_FILLING_FOK mt ∨ chosen = ORDER_FILLING_IOC mt ∨
   chosen = ORDER_FILLING_RETURN mt) ∧
  (chosen ≠ ORDER_FILLING_FOK mt →
   ∃ info, (symbol_info mt symbol w).1 = Some info ∧
           Z.land (sym_filling_mode info) (SYMBOL_FILLING_FOK mt) = 0 ∧
           (chosen ≠ ORDER_FILLING_IOC mt →
            Z.land (sym_filling_mode info) (SYMBOL_FILLING_IOC mt) = 0)).
Proof.
  cbv zeta. unfold Wrappers.get_filling_mode.
  destruct (symbol_info mt symbol w) as [[info|] w1]; cbn [fst]; [|split; [auto | tauto]].
  destruct (Z.land (sym_filling_mode info) (SYMBOL_FILLING_FOK mt) =? 0) eqn:Efok;
    cbn [negb fst]; [|split; [auto | tauto]].
  apply Z.eqb_eq in Efok.
  destruct (Z.land (sym_filling_mode info) (SYMBOL_FILLING_IOC mt) =? 0) eqn:Eioc;
    cbn [negb fst].
  - apply Z.eqb_eq in Eioc. split; [auto|]. intros _. exists info. auto.
  - split; [auto|]. intros _. exists info. split; [reflexivity|]. split; [exact Efok|].
    tauto.
Qed.

(** X27. [get_symbol_info] gives the record of a symbol only when the symbol
    is visible or its selection succeeded. *)
Theorem symbol_info_needs_a_visible_symbol (symbol : string) (login : Z)
    (info : SymbolRecord) (w : W) :
  (Wrappers.get_symbol_info mt symbol login w).1 = Some info →
  (symbol_info mt symbol w).1 = Some info ∧
  (sym_visible info = true ∨ (symbol_select mt symbol (symbol_info mt symbol w).2).1 = true).
Proof.
  unfold Wrappers.get_symbol_info.
  destruct (symbol_info mt symbol w) as [[found|] w1]; [|discriminate]. cbn [fst snd].
  destruct (sym_visible found) eqn:Hvisible; cbn [negb].
  - intros [= <-]. auto.
  - destruct (symbol_select mt symbol w1) as [[] w2]; cbn [negb fst]; [|discriminate].
    intros [= <-]. auto.
Qed.

End WrapperFacts.

Lemma market_order_goes_at_the_tick_witness :
  ∃ request,
    (Wrappers.send_order (Bench.mt5 Bench.open) (Bench.buy ORDER_TYPE_BUY) tt).1.2 = [request] ∧
    tr_action request = 1 ∧ tr_deviation request = Some 20 ∧
    tr_price request = Some (Some (11 # 10)%Q).
Proof.
  destruct (market_order_goes_at_the_tick (Bench.mt5 Bench.open) (Bench.buy ORDER_TYPE_BUY)
              Bench.quote tt eq_refl eq_refl) as (request & H1 & H2 & H3 & H4 & _).
  exists request. auto.
Defined.

Lemma pending_order_goes_at_its_price_witness :
  ∃ request,
    (Wrappers.send_order (Bench.mt5 Bench.open) (Bench.buy 2) tt).1.2 = [request] ∧
    tr_action request = 5 ∧ tr_deviation request = None ∧
    tr_price request = Some (Some 1%Q).
Proof.
  destruct (pending_order_goes_at_its_price (Bench.mt5 Bench.open) (Bench.buy 2) tt
              eq_refl eq_refl) as (request & H1 & H2 & H3 & H4 & _).
  exists request. auto.
Defined.

Lemma send_order_gives_up_before_sending_witness :
  (Wrappers.send_order (Bench.mt5 Bench.open) (Bench.buy 8) tt).1 = (None, []) ∧
  (Wrappers.send_order (Bench.mt5 Bench.closed) (Bench.buy ORDER_TYPE_BUY) tt).1 = (None, []).
Proof.
  split.
  - apply send_order_gives_up_before_sending. left. reflexivity.
  - apply send_order_gives_up_before_sending. right. split; reflexivity.
Defined.

Lemma send_order_ticket_is_accepted_witness :
  ∃ request w' result,
    (Wrappers.send_order (Bench.mt5 Bench.open) (Bench.buy 2) tt).1.2 = [request] ∧
    (order_send (Bench.mt5 Bench.open) request w').1 = Some result ∧
    res_retcode result = 10009 ∧ res_order result = 900.
Proof.
  exact (send_order_ticket_is_accepted (Bench.mt5 Bench.open) (Bench.buy 2) 900 tt eq_refl).
Defined.

Lemma modify_position_keeps_unset_levels_witness :
  ∃ request,
    (Wrappers.modify_order (Bench.mt5 Bench.open) 500 (Some 2%Q) (Some (1 # 2)%Q) None tt).1.2
      = [request] ∧
    tr_price request = None ∧
    tr_sl request = Some (Some (1 # 2)%Q) ∧ tr_tp request = Some (Some 0%Q).
Proof.
  destruct (modify_position_keeps_unset_levels (Bench.mt5 Bench.open) 500 (Some 2%Q)
              (Some (1 # 2)%Q) None (Orphan.copy_of_100 ORDER_TYPE_BUY) [] tt eq_refl)
    as (request & H1 & _ & _ & _ & H2 & H3 & H4).
  exists request. auto.
Defined.

Lemma modify_pending_keeps_unset_fields_witness :
  ∃ request,
    (Wrappers.modify_order (Bench.mt5 Bench.open) 501 None (Some (1 # 2)%Q) None tt).1.2
      = [request] ∧
    tr_price request = Some (Some (105 # 100)%Q) ∧
    tr_sl request = Some (Some (1 # 2)%Q) ∧ tr_tp request = Some (Some (12 # 10)%Q).
Proof.
  destruct (modify_pending_keeps_unset_fields (Bench.mt5 Bench.open) 501 None
              (Some (1 # 2)%Q) None (hd (Orphan.copy_of_100 2) (Bench.pending Bench.open)) []
              (Some (105 # 100)%Q) tt eq_refl eq_refl eq_refl)
    as (request & H1 & _ & _ & _ & H2 & H3 & H4).
  exists request. auto.
Defined.

Lemma modify_unknown_ticket_sends_nothing_witness :
  (Wrappers.modify_order (Bench.mt5 Bench.open) 7 None (Some 1%Q) None tt).1 = (false, []).
Proof.
  apply modify_unknown_ticket_sends_nothing; reflexivity.
Defined.

Lemma close_is_the_opposite_deal_witness :
  ∃ request,
    (Wrappers.close_position (Bench.mt5 Bench.open) 500 tt).1.2 = [request] ∧
    tr_type request = Some ORDER_TYPE_SELL ∧
    tr_price request = Some (Some (109 # 100)%Q) ∧
    tr_volume request = Some 1%Q.
Proof.
  destruct (close_is_the_opposite_deal (Bench.mt5 Bench.open) 500
              (Orphan.copy_of_100 ORDER_TYPE_BUY) [] ORDER_TYPE_BUY Bench.quote tt
              eq_refl eq_refl eq_refl)
    as (request & H1 & _ & _ & _ & H2 & _ & H3 & H4).
  exists request. auto.
Defined.

Lemma close_gives_up_before_sending_witness :
  (Wrappers.close_position (Bench.mt5 Bench.open) 501 tt).1 = (false, []) ∧
  (Wrappers.close_position (Bench.mt5 Bench.closed) 500 tt).1 = (false, []).
Proof.
  split.
  - apply close_gives_up_before_sending. left. reflexivity.
  - apply close_gives_up_before_sending. right.
    exists (Orphan.copy_of_100 ORDER_TYPE_BUY), []. split; reflexivity.
Defined.

Lemma symbol_info_needs_a_visible_symbol_witness :
  (symbol_info (Bench.mt5 Bench.open) "EURUSD" tt).1 =
    Some {| sym_visible := true; sym_filling_mode := 2 |}.
Proof.
  exact (proj1 (symbol_info_needs_a_visible_symbol (Bench.mt5 Bench.open) "EURUSD" 1
                  {| sym_visible := true; sym_filling_mode := 2 |} tt eq_refl)).
Defined.

(** ** The follower's own orders *)

Lemma get_set_is_Some {V} k k' (v : V) d :
  is_Some (PyDict.get k' d) → is_Some (PyDict.get k' (PyDict.set k v d)).
Proof.
  intros H. destruct (decide (k' = k)) as [->|Hne].
  - rewrite get_set_eq. eauto.
  - now rewrite get_set_ne.
Qed.

Lemma track_own_keeps magic orders live k :
  is_Some (PyDict.get k live) → is_Some (PyDict.get k (track_own magic orders live)).
Proof.
  revert live. unfold track_own.
  induction orders as [|o orders IH]; intros live H; cbn [fold_left]; [exact H|].
  apply IH. destruct (mt_magic o =? magic); [now apply get_set_is_Some | exact H].
Qed.

Lemma track_own_complete magic orders live o :
  In o orders → mt_magic o = magic →
  is_Some (PyDict.get (mt_ticket o) (track_own magic orders live)).
Proof.
  revert live. induction orders as [|x orders IH]; intros live Hin Hmagic; [contradiction|].
  destruct Hin as [->|Hin].
  - change (track_own magic (o :: orders) live)
      with (track_own magic orders
              (if mt_magic o =? magic then PyDict.set (mt_ticket o) o live else live)).
    apply track_own_keeps. apply Z.eqb_eq in Hmagic. rewrite Hmagic, get_set_eq. eauto.
  - change (track_own magic (x :: orders) live)
      with (track_own magic orders
              (if mt_magic x =? magic then PyDict.set (mt_ticket x) x live else live)).
    now apply IH.
Qed.

Section OwnOrders.
Context {W : Type} (T : Terminal W).

(** X28. Every pending order and every position of the follower's
    account that carries the follower's magic number has an entry under its
    ticket in the order set of the pass. *)
Theorem own_orders_are_tracked (cfg : FollowerConfig) (order : MtOrder) (s : Sys W) :
  let pending := (orders_get T (world s)).1 in
  let positions := (positions_get T (orders_get T (world s)).2).1 in
  In order (pending ++ positions) →
  mt_magic order = magic_number cfg →
  is_Some (PyDict.get (mt_ticket order) (fetch_live T cfg s).1).
Proof.
  cbv zeta. intros Hin Hmagic. unfold fetch_live, bind, call, ret.
  cbn [fst snd world with_world].
  apply in_app_or in Hin as [Hin|Hin].
  - apply track_own_keeps. now apply track_own_complete.
  - now apply track_own_complete.
Qed.

End OwnOrders.

Lemma own_orders_are_tracked_witness :
  is_Some (PyDict.get 500
             (fetch_live (scripted Orphan.pending_script) Orphan.follower1
                Orphan.at_follower1).1).
Proof.
  apply (own_orders_are_tracked (scripted Orphan.pending_script) Orphan.follower1
           (Orphan.copy_of_100 2) Orphan.at_follower1).
  - left. reflexivity.
  - reflexivity.
Defined.

(** ** Connection flags *)

Section ConnectionFlags.
Context {W : Type} (P : Platform W).

(** X29. [connect_account] only ever raises the flag of its own account, and
    only on success: a failed attempt leaves every flag as it was, so an
    account that connected once stays flagged after a later failure. *)
Theorem connect_account_only_raises_flags (account : Account) (s : Session W) :
  let r := Connection.connect_account P account s in
  connections r.2 =
    (if r.1 then PyDict.set (acc_login account) true (connections s) else connections s) ∧
  running r.2 = running s ∧
  ∀ login, PyDict.get login (connections s) = Some true →
           PyDict.get login (connections r.2) = Some true.
Proof.
  cbv zeta.
  assert (H : connections (Connection.connect_account P account s).2 =
              (if (Connection.connect_account P account s).1
               then PyDict.set (acc_login account) true (connections s) else connections s) ∧
              running (Connection.connect_account P account s).2 = running s).
  { unfold Connection.connect_account.
    destruct (path_exists P _ _) as [[] w1]; cbn [negb]; [|split; reflexivity].
    destruct (mt5_initialize P _ _) as [[] w2]; cbn [negb]; [|split; reflexivity].
    destruct (mt5_login P _ _ _ _) as [[] w3]; cbn [negb]; [|split; reflexivity].
    destruct (mt5_account_info P _) as [[] w4]; cbn [negb]; split; reflexivity. }
  destruct H as [Hflags Hrun]. split; [exact Hflags|]. split; [exact Hrun|].
  intros login Hlogin. rewrite Hflags.
  destruct (Connection.connect_account P account s).1; [|exact Hlogin].
  destruct (decide (login = acc_login account)) as [->|Hne].
  - apply get_set_eq.
  - now rewrite get_set_ne.
Qed.

Lemma stop_step_flags (login : Z) (s : Session W) (k : Z) :
  let s' := if default false (PyDict.get login (connections s))
            then Connection.disconnect_account P login s else s in
  running s' = running s ∧
  PyDict.get k (connections s') =
    (if bool_decide (k = login) then (fun _ => false) <$> PyDict.get k (connections s)
     else PyDict.get k (connections s)).
Proof.
  cbv zeta. destruct (PyDict.get login (connections s)) as [[]|] eqn:E;
    cbv beta iota delta [default id].
  - split; [reflexivity|]. unfold Connection.disconnect_account. cbn [connections].
    destruct (bool_decide (k = login)) eqn:D.
    + apply bool_decide_eq_true in D as ->. now rewrite get_set_eq, E.
    + apply bool_decide_eq_false in D. now rewrite get_set_ne.
  - split; [reflexivity|]. destruct (bool_decide (k = login)) eqn:D; [|reflexivity].
    apply bool_decide_eq_true in D as ->. now rewrite E.
  - split; [reflexivity|]. destruct (bool_decide (k = login)) eqn:D; [|reflexivity].
    apply bool_decide_eq_true in D as ->. now rewrite E.
Qed.

Lemma stop_loop_flags (logins : list Z) (s : Session W) (k : Z) :
  let s' := fold_left
              (fun s login =>
                 if default false (PyDict.get login (connections s))
                 then Connection.disconnect_account P login s else s) logins s in
  running s' = running s ∧
  PyDict.get k (connections s') =
    (if bool_decide (k ∈ logins) then (fun _ => false) <$> PyDict.get k (connections s)
     else PyDict.get k (connections s)).
Proof.
  cbv zeta. revert s. induction logins as [|login logins IH]; intros s.
  - split; reflexivity.
  - cbn [fold_left].
    destruct (stop_step_flags login s k) as [Hrun Hget]. cbv zeta in Hrun, Hget.
    destruct (IH (if default false (PyDict.get login (connections s))
                  then Connection.disconnect_account P login s else s)) as [IHrun IHget].
    split; [now rewrite IHrun|]. rewrite IHget, Hget.
    destruct (bool_decide (k = login)) eqn:D.
    + apply bool_decide_eq_true in D as ->.
      rewrite (bool_decide_eq_true_2 (login ∈ login :: logins)) by apply list_elem_of_here.
      destruct (bool_decide (login ∈ logins)); [|reflexivity].
      now destruct (PyDict.get login (connections s)).
    + apply bool_decide_eq_false in D.
      destruct (bool_decide (k ∈ logins)) eqn:E.
      * apply bool_decide_eq_true in E.
        rewrite (bool_decide_eq_true_2 (k ∈ login :: logins)); [reflexivity|].
        now apply list_elem_of_further.
      * apply bool_decide_eq_false in E.
        rewrite (bool_decide_eq_false_2 (k ∈ login :: logins)); [reflexivity|].
        intros Hin. apply elem_of_cons in Hin as [?|?]; contradiction.
Qed.

Lemma get_None_keys {V} k (d : list (Z * V)) : k ∉ PyDict.keys d → PyDict.get k d = None.
Proof.
  unfold PyDict.keys. induction d as [|[k' v] d IH]; intros H; [reflexivity|].
  cbn [PyDict.get map fst] in *. destruct (k =? k') eqn:E.
  - apply Z.eqb_eq in E as ->. exfalso. apply H. apply list_elem_of_here.
  - apply IH. intros Hin. apply H. now apply list_elem_of_further.
Qed.

(** X30. After [stop] the copier is not running and no account is flagged as
    connected: every flag is lowered, and no account is dropped from the
    dictionary. *)
Theorem stop_lowers_every_flag (s : Session W) :
  running (Connection.stop P s) = false ∧
  ∀ login, PyDict.get login (connections (Connection.stop P s)) =
           (fun _ => false) <$> PyDict.get login (connections s).
Proof.
  unfold Connection.stop. split.
  - destruct (stop_loop_flags (PyDict.keys (connections s))
                {| connections := connections s; running := false; platform := platform s |} 0)
      as [Hrun _]. exact Hrun.
  - intros login.
    destruct (stop_loop_flags (PyDict.keys (connections s))
                {| connections := connections s; running := false; platform := platform s |}
                login) as [_ Hget]. cbv zeta in Hget. rewrite Hget. cbn [connections].
    destruct (bool_decide (login ∈ PyDict.keys (connections s))) eqn:E; [reflexivity|].
    apply bool_decide_eq_false in E. now rewrite (get_None_keys _ _ E).
Qed.

End ConnectionFlags.
